(** * CA-Automation: ingestion, classification and reminder pipeline

    A shallow embedding of the backend of the CA e-mail automation system
    ([backend/app]) and the properties of its specification that concern
    - the reminder state machine ([services/reminder_service.py],
      [routers/reminders.py]),
    - the ingestion controller ([services/gmail_service.py]),
    - the classification adapter ([services/perplexity_service.py]),
    - the folder-name sanitiser ([services/storage_service.py]).

    Conventions.  Python [int] is [Z]; [str] is [string], except in the
    sanitiser where it is a list of Unicode code points; [None]-able values
    are [option]; a table of the database is the list of its rows in
    insertion order; a [try]/[except] block is a computation in the small
    exception monad [outcome] closed by [try_except].  Commits are assumed
    to succeed and the log output is not part of the model. *)

From Stdlib Require Import ZArith String Ascii Bool Lia.
From stdpp Require Import base option list strings gmap pretty.

Local Open Scope Z_scope.

(* ===================================================================== *)
(** * Part I.  The program                                                *)
(* ===================================================================== *)

(** ** Exceptions *)

Inductive exn : Type :=
| KeyError
| ValueError
| IndexError
| AttributeError
| OSError
| TimeoutException
| ConnectError
| HTTPStatusError (status : Z)
| JSONDecodeError
| HttpError
| DBAPIError
| MissingGreenlet.

Inductive outcome (A : Type) : Type :=
| Return (a : A)
| Raise (e : exn).
Arguments Return {A} a.
Arguments Raise {A} e.

#[export] Instance outcome_ret : MRet outcome := fun A a => Return a.

#[export] Instance outcome_bind : MBind outcome := fun A B k m =>
  match m with
  | Return a => k a
  | Raise e => Raise e
  end.

(** [try: body except Exception as e: handler e] *)
Definition try_except {A} (body : outcome A) (handler : exn -> A) : A :=
  match body with
  | Return a => a
  | Raise e => handler e
  end.

(** [try: body except json.JSONDecodeError: handler]: other exceptions
    keep propagating. *)
Definition try_except_JSONDecodeError {A}
    (body : outcome A) (handler : outcome A) : outcome A :=
  match body with
  | Raise JSONDecodeError => handler
  | other => other
  end.

(** [d[k]] on a key that may be absent. *)
Definition getitem {A} (field : option A) : outcome A :=
  match field with
  | Some a => Return a
  | None => Raise KeyError
  end.

(** ** [datetime.date] and [datetime.datetime] *)

Record date : Type := Date { year : Z; month : Z; day : Z }.

Definition is_leap (y : Z) : bool :=
  ((y mod 4 =? 0) && negb (y mod 100 =? 0)) || (y mod 400 =? 0).

Definition days_in_month (y m : Z) : Z :=
  if m =? 2 then (if is_leap y then 29 else 28)
  else if (m =? 4) || (m =? 6) || (m =? 9) || (m =? 11) then 30
  else 31.

Definition valid_date (d : date) : bool :=
  (1 <=? year d) && (year d <=? 9999) &&
  (1 <=? month d) && (month d <=? 12) &&
  (1 <=? day d) && (day d <=? days_in_month (year d) (month d)).

(** The constructor [date(y, m, d)]: [ValueError] outside the calendar. *)
Definition date_new (y m d : Z) : outcome date :=
  if valid_date (Date y m d) then Return (Date y m d) else Raise ValueError.

Definition date_ltb (a b : date) : bool :=
  (year a <? year b) ||
  ((year a =? year b) &&
   ((month a <? month b) || ((month a =? month b) && (day a <? day b)))).

Definition date_leb (a b : date) : bool := negb (date_ltb b a).

Definition date_eqb (a b : date) : bool :=
  (year a =? year b) && (month a =? month b) && (day a =? day b).

(** A [datetime]: its calendar day and the microseconds elapsed in it. *)
Record datetime : Type := DateTime { dt_date : date; dt_micro : Z }.

(** ** The tables ([app/models]) *)

Module Company.
Record t : Type := mk { id : Z; name : string; is_active : bool }.
End Company.

Module ClientEmail.
Record t : Type :=
  mk { id : Z; email : string; company_id : option Z; is_active : bool }.
End ClientEmail.

Module Email.
Record t : Type := mk {
  id : Z;
  message_id : string;
  sender : string;
  subject : string;
  body : string;
  company_id : option Z;
  primary_category : option string;
  sub_category : option string;
  data_month : option Z;
  data_year : option Z;
  is_processed : bool;
  ai_classified : bool;
  received_date : option datetime }.

Definition with_is_processed (b : bool) (e : t) : t :=
  mk (id e) (message_id e) (sender e) (subject e) (body e) (company_id e)
     (primary_category e) (sub_category e) (data_month e) (data_year e)
     b (ai_classified e) (received_date e).

Definition with_classification
    (pc sc : option string) (dm dy : option Z) (e : t) : t :=
  mk (id e) (message_id e) (sender e) (subject e) (body e) (company_id e)
     pc sc dm dy (is_processed e) true (received_date e).
End Email.

(** Where an attachment was written: the folder hierarchy of
    [StorageService.create_storage_path], or the [temp] folder.  The path
    is kept as its components; joining them into one string is not
    modelled. *)
Inductive file_path : Type :=
| StoragePath (company_name : string) (data_month data_year : Z)
              (category : string) (filename : string)
| TempPath (filename : string).

Module Attachment.
Record t : Type := mk {
  id : Z;
  email_id : Z;
  file_name : string;
  file_path_ : file_path;
  file_size : Z;
  content_type : string }.
End Attachment.

Module Reminder.
Record t : Type := mk {
  id : Z;
  company_id : Z;
  reminder_month : date;
  expected_by_date : date;
  max_days_to_send : Z;
  days_sent : Z;
  is_active : bool;
  manual_stop : bool;
  gst_received : bool;
  last_sent : option datetime }.

Definition with_max_days_to_send (n : Z) (r : t) : t :=
  mk (id r) (company_id r) (reminder_month r) (expected_by_date r)
     n (days_sent r) (is_active r) (manual_stop r) (gst_received r)
     (last_sent r).

Definition with_days_sent (n : Z) (r : t) : t :=
  mk (id r) (company_id r) (reminder_month r) (expected_by_date r)
     (max_days_to_send r) n (is_active r) (manual_stop r) (gst_received r)
     (last_sent r).

Definition with_is_active (b : bool) (r : t) : t :=
  mk (id r) (company_id r) (reminder_month r) (expected_by_date r)
     (max_days_to_send r) (days_sent r) b (manual_stop r) (gst_received r)
     (last_sent r).

Definition with_manual_stop (b : bool) (r : t) : t :=
  mk (id r) (company_id r) (reminder_month r) (expected_by_date r)
     (max_days_to_send r) (days_sent r) (is_active r) b (gst_received r)
     (last_sent r).

Definition with_gst_received (b : bool) (r : t) : t :=
  mk (id r) (company_id r) (reminder_month r) (expected_by_date r)
     (max_days_to_send r) (days_sent r) (is_active r) (manual_stop r) b
     (last_sent r).

Definition with_last_sent (t0 : option datetime) (r : t) : t :=
  mk (id r) (company_id r) (reminder_month r) (expected_by_date r)
     (max_days_to_send r) (days_sent r) (is_active r) (manual_stop r)
     (gst_received r) t0.
End Reminder.

(** The database.  Primary keys are auto-incremented: a new row gets an
    identifier above every identifier of its table. *)
Record DB : Type := mkDB {
  companies : list Company.t;
  client_emails : list ClientEmail.t;
  emails : list Email.t;
  attachments : list Attachment.t;
  reminders : list Reminder.t }.

Definition fresh_id (ids : list Z) : Z := 1 + foldr Z.max 0 ids.

Definition with_reminders (rs : list Reminder.t) (db : DB) : DB :=
  mkDB (companies db) (client_emails db) (emails db) (attachments db) rs.

Definition with_emails (es : list Email.t) (db : DB) : DB :=
  mkDB (companies db) (client_emails db) es (attachments db) (reminders db).

Definition with_attachments (ats : list Attachment.t) (db : DB) : DB :=
  mkDB (companies db) (client_emails db) (emails db) ats (reminders db).

(** The relationship [reminder.company]. *)
Definition company_of (db : DB) (company_id : Z) : option Company.t :=
  head (filter (fun c => bool_decide (Company.id c = company_id)) (companies db)).

(** The relationship [company.client_emails]. *)
Definition client_emails_of (db : DB) (company : Company.t) : list ClientEmail.t :=
  filter (fun ce => bool_decide (ClientEmail.company_id ce = Some (Company.id company)))
         (client_emails db).

(** [db.get(Reminder, reminder_id)] *)
Definition get_reminder (db : DB) (reminder_id : Z) : option Reminder.t :=
  head (filter (fun r => Reminder.id r =? reminder_id) (reminders db)).

(** Attribute assignments on the object returned by [db.get] reach the
    row of the table: the first (and, identifiers being a primary key,
    only) row with this identifier. *)
Fixpoint update_row (reminder_id : Z) (f : Reminder.t -> Reminder.t)
    (rs : list Reminder.t) : list Reminder.t :=
  match rs with
  | [] => []
  | r :: rest =>
      if Reminder.id r =? reminder_id then f r :: rest
      else r :: update_row reminder_id f rest
  end.

(** ** Notification sink ([services/email_sender.py]) *)

(** One message handed to SMTP.  Its subject and body are functions of the
    company name and of the reminder month. *)
Record Mail : Type :=
  mkMail { recipients : list string; company_name : string; about_month : date }.

(** [send_gst_reminder]: the outcome, and the messages handed to
    [_send_email] (none when the company has no active address).
    [smtp] is the outcome of [_send_email]. *)
Definition send_gst_reminder (smtp : Mail -> bool) (db : DB)
    (company : Company.t) (reminder_month : date) : bool * list Mail :=
  let client_emails := client_emails_of db company in
  if bool_decide (client_emails = []) then (false, [])
  else
    let recipient_emails :=
      ClientEmail.email <$>
        filter (fun e => ClientEmail.is_active e) client_emails in
    if bool_decide (recipient_emails = []) then (false, [])
    else
      let mail := mkMail recipient_emails (Company.name company) reminder_month in
      (smtp mail, [mail]).

(** ** Reminder state machine ([services/reminder_service.py]) *)

(** One call of the notification sink made for a reminder. *)
Record Dispatch : Type := mkDispatch {
  for_reminder : Z;
  mail : Mail;
  sent_at : datetime;
  delivered : bool }.

Definition is_pending (today : date) (r : Reminder.t) : bool :=
  Reminder.is_active r &&
  negb (Reminder.manual_stop r) &&
  negb (Reminder.gst_received r) &&
  (Reminder.days_sent r <? Reminder.max_days_to_send r) &&
  date_leb (Reminder.expected_by_date r) today.

Definition _get_pending_reminders (today : date) (db : DB) : list Reminder.t :=
  filter (fun r => is_pending today r) (reminders db).

Definition is_gst_email_for (reminder : Reminder.t) (e : Email.t) : bool :=
  bool_decide (Email.company_id e = Some (Reminder.company_id reminder)) &&
  bool_decide (Email.primary_category e = Some "GST"%string) &&
  bool_decide (Email.data_month e = Some (month (Reminder.reminder_month reminder))) &&
  bool_decide (Email.data_year e = Some (year (Reminder.reminder_month reminder))).

Definition _check_gst_received (db : DB) (reminder : Reminder.t) : bool :=
  let gst_emails := filter (fun e => is_gst_email_for reminder e) (emails db) in
  0 <? Z.of_nat (length gst_emails).

Definition _should_send_today (today : date) (reminder : Reminder.t) : bool :=
  match Reminder.last_sent reminder with
  | None => true
  | Some last_sent => date_ltb (dt_date last_sent) today
  end.

(** [_process_reminder]: the reminder as the call leaves it, and the calls
    of the notification sink it made.  A reminder whose company row is
    missing makes [send_gst_reminder] fail on [company.client_emails]; the
    handler of [_process_reminder] swallows the error and the reminder is
    left as it was. *)
Definition _process_reminder (now : datetime) (smtp : Z -> Mail -> bool)
    (db : DB) (reminder : Reminder.t) : Reminder.t * list Dispatch :=
  if _check_gst_received db reminder then
    (Reminder.with_is_active false (Reminder.with_gst_received true reminder), [])
  else if negb (_should_send_today (dt_date now) reminder) then
    (reminder, [])
  else
    match company_of db (Reminder.company_id reminder) with
    | None => (reminder, [])
    | Some company =>
        let '(success, mails) :=
          send_gst_reminder (smtp (Reminder.id reminder)) db company
                            (Reminder.reminder_month reminder) in
        let log :=
          (fun m => mkDispatch (Reminder.id reminder) m now success) <$> mails in
        if success then
          let reminder :=
            Reminder.with_days_sent (Reminder.days_sent reminder + 1) reminder in
          let reminder := Reminder.with_last_sent (Some now) reminder in
          if Reminder.max_days_to_send reminder <=? Reminder.days_sent reminder
          then (Reminder.with_is_active false reminder, log)
          else (reminder, log)
        else (reminder, log)
    end.

(** The loop of [process_daily_reminders] over the rows of the table: the
    rows selected by [_get_pending_reminders] are the objects the loop
    mutates, every other row is left alone. *)
Fixpoint process_rows (now : datetime) (smtp : Z -> Mail -> bool) (db : DB)
    (rows : list Reminder.t) : list Reminder.t * list Dispatch :=
  match rows with
  | [] => ([], [])
  | r :: rest =>
      let '(r', log) :=
        if is_pending (dt_date now) r then _process_reminder now smtp db r
        else (r, []) in
      let '(rest', logs) := process_rows now smtp db rest in
      (r' :: rest', log ++ logs)
  end.

(** One reading of the clock, [now], stands for the calls of
    [date.today()] and [datetime.now()] made during a tick. *)
Definition process_daily_reminders (now : datetime) (smtp : Z -> Mail -> bool)
    (db : DB) : DB * list Dispatch :=
  let '(rows, log) := process_rows now smtp db (reminders db) in
  (with_reminders rows db, log).

Definition _calculate_expected_date (reminder_month : date) : outcome date :=
  let year := year reminder_month in
  let month := month reminder_month in
  if month =? 12 then date_new (year + 1) 1 7
  else date_new year (month + 1) 7.

Definition has_reminder (company_id : Z) (target_month : date)
    (rs : list Reminder.t) : bool :=
  bool_decide
    (head (filter (fun r => (Reminder.company_id r =? company_id) &&
                            date_eqb (Reminder.reminder_month r) target_month) rs)
     <> None).

(** The loop of [create_monthly_reminders]; [rs] is the table with the
    rows added so far (the session flushes before each query). *)
Fixpoint create_for_companies (target_month : date) (cs : list Company.t)
    (rs : list Reminder.t) : outcome (list Reminder.t) :=
  match cs with
  | [] => mret rs
  | company :: rest =>
      if has_reminder (Company.id company) target_month rs then
        create_for_companies target_month rest rs
      else
        expected ← _calculate_expected_date target_month;
        let reminder :=
          Reminder.mk (fresh_id (Reminder.id <$> rs)) (Company.id company)
                      target_month expected 5 0 true false false None in
        create_for_companies target_month rest (rs ++ [reminder])
  end.

(** An exception leaves the session without a commit: nothing is stored. *)
Definition create_monthly_reminders (target_month : date) (db : DB) : DB :=
  let companies := filter (fun c => Company.is_active c) (companies db) in
  try_except
    (rs ← create_for_companies target_month companies (reminders db);
     mret (with_reminders rs db))
    (fun _ => db).

(** ** Reminder endpoints ([routers/reminders.py], mounted by [main.py]) *)

Module ReminderCreate.
Record t : Type :=
  mk { company_id : Z; reminder_month : date; max_days_to_send : Z }.
End ReminderCreate.

(** [None] is a field the request leaves unset; a field that the request
    sets to [null] is not in the model. *)
Module ReminderUpdate.
Record t : Type := mk {
  max_days_to_send : option Z;
  is_active : option bool;
  manual_stop : option bool }.
End ReminderUpdate.

Inductive response (A : Type) : Type :=
| Ok (a : A)
| HTTPException (status : Z).
Arguments Ok {A} a.
Arguments HTTPException {A} status.

Definition create_reminder (rem : ReminderCreate.t) (db : DB)
    : DB * response Reminder.t :=
  match date_new (year (ReminderCreate.reminder_month rem))
                 (month (ReminderCreate.reminder_month rem)) 7 with
  | Return expected_by_date =>
      let obj :=
        Reminder.mk (fresh_id (Reminder.id <$> reminders db))
                    (ReminderCreate.company_id rem)
                    (ReminderCreate.reminder_month rem)
                    expected_by_date
                    (ReminderCreate.max_days_to_send rem)
                    0 true false false None in
      (with_reminders (reminders db ++ [obj]) db, Ok obj)
  | Raise _ => (db, HTTPException 500)
  end.

Definition setattrs (data : ReminderUpdate.t) (obj : Reminder.t) : Reminder.t :=
  let obj := match ReminderUpdate.max_days_to_send data with
             | Some v => Reminder.with_max_days_to_send v obj
             | None => obj
             end in
  let obj := match ReminderUpdate.is_active data with
             | Some v => Reminder.with_is_active v obj
             | None => obj
             end in
  match ReminderUpdate.manual_stop data with
  | Some v => Reminder.with_manual_stop v obj
  | None => obj
  end.

Definition update_reminder (reminder_id : Z) (data : ReminderUpdate.t) (db : DB)
    : DB * response Reminder.t :=
  match get_reminder db reminder_id with
  | None => (db, HTTPException 404)
  | Some obj =>
      (with_reminders (update_row reminder_id (setattrs data) (reminders db)) db,
       Ok (setattrs data obj))
  end.

Definition stop (reminder_id : Z) (db : DB) : DB * response string :=
  match get_reminder db reminder_id with
  | None => (db, HTTPException 404)
  | Some _ =>
      (with_reminders
         (update_row reminder_id (Reminder.with_manual_stop true) (reminders db)) db,
       Ok "stopped"%string)
  end.

Definition restart_fields (obj : Reminder.t) : Reminder.t :=
  Reminder.with_is_active true (Reminder.with_manual_stop false obj).

Definition restart (reminder_id : Z) (db : DB) : DB * response string :=
  match get_reminder db reminder_id with
  | None => (db, HTTPException 404)
  | Some _ =>
      (with_reminders (update_row reminder_id restart_fields (reminders db)) db,
       Ok "restarted"%string)
  end.

(** The unmounted sibling [routers/reminder.py] computes the date as the
    service does. *)
Module routers_reminder.
Definition create_reminder (reminder : ReminderCreate.t) (db : DB)
    : DB * response Reminder.t :=
  let year := year (ReminderCreate.reminder_month reminder) in
  let month := month (ReminderCreate.reminder_month reminder) in
  let '(expected_year, expected_month) :=
    if month =? 12 then (year + 1, 1) else (year, month + 1) in
  match date_new expected_year expected_month 7 with
  | Return expected_by_date =>
      let new_reminder :=
        Reminder.mk (fresh_id (Reminder.id <$> reminders db))
                    (ReminderCreate.company_id reminder)
                    (ReminderCreate.reminder_month reminder)
                    expected_by_date
                    (ReminderCreate.max_days_to_send reminder)
                    0 true false false None in
      (with_reminders (reminders db ++ [new_reminder]) db, Ok new_reminder)
  | Raise _ => (db, HTTPException 500)
  end.
End routers_reminder.

(** ** The operations on the reminder tables, as a trace

    [SetEmails] and [SetCompanies] stand for whatever the ingestion
    controller and the company endpoints do to their tables between two
    operations on reminders. *)

Inductive op : Type :=
| Tick (now : datetime) (smtp : Z -> Mail -> bool)
| CreateMonthly (target_month : date)
| Create (rem : ReminderCreate.t)
| Update (reminder_id : Z) (data : ReminderUpdate.t)
| Stop (reminder_id : Z)
| Restart (reminder_id : Z)
| SetEmails (es : list Email.t)
| SetCompanies (cs : list Company.t) (ces : list ClientEmail.t).

Record World : Type := mkWorld { db : DB; outbox : list Dispatch }.

Definition step (w : World) (o : op) : World :=
  match o with
  | Tick now smtp =>
      let '(db', log) := process_daily_reminders now smtp (db w) in
      mkWorld db' (outbox w ++ log)
  | CreateMonthly target_month =>
      mkWorld (create_monthly_reminders target_month (db w)) (outbox w)
  | Create rem => mkWorld (create_reminder rem (db w)).1 (outbox w)
  | Update reminder_id data =>
      mkWorld (update_reminder reminder_id data (db w)).1 (outbox w)
  | Stop reminder_id => mkWorld (stop reminder_id (db w)).1 (outbox w)
  | Restart reminder_id => mkWorld (restart reminder_id (db w)).1 (outbox w)
  | SetEmails es => mkWorld (with_emails es (db w)) (outbox w)
  | SetCompanies cs ces =>
      mkWorld (mkDB cs ces (emails (db w)) (attachments (db w)) (reminders (db w)))
              (outbox w)
  end.

Definition run (ops : list op) (w : World) : World := foldl step w ops.

(** ** Folder names ([StorageService.sanitize_company_name])

    The sanitiser works on Python strings, sequences of Unicode code
    points.  What [str.lower] and the classes [\w] and [\s] of [re] do
    outside ASCII is read from the Unicode character database, which is
    not part of the repository: it is an interface here, with the ASCII
    tables as an instance. *)

Abbreviation str := (list N).

Class UnicodeData : Type := {
  isalnum : N -> bool;        (* [\w] is [isalnum] or the underscore *)
  isspace : N -> bool;        (* [\s] *)
  lower : str -> str }.       (* [str.lower] *)

Definition underscore : N := 95.
Definition hyphen : N := 45.

Section Sanitize.
Context `{UnicodeData}.

Definition is_word (c : N) : bool := isalnum c || (c =? underscore)%N.
Definition is_space_or_hyphen (c : N) : bool := isspace c || (c =? hyphen)%N.

(** [re.sub(r'[^\w\s-]', '', s)] *)
Definition remove_special (s : str) : str :=
  filter (fun c => is_word c || is_space_or_hyphen c) s.

(** [re.sub(r'[\s-]+', '_', s)]; [in_run] tells that the previous
    character belongs to the run being replaced. *)
Fixpoint collapse_runs (in_run : bool) (s : str) : str :=
  match s with
  | [] => []
  | c :: s' =>
      if is_space_or_hyphen c then
        if in_run then collapse_runs true s'
        else underscore :: collapse_runs true s'
      else c :: collapse_runs false s'
  end.

Fixpoint lstrip_underscore (s : str) : str :=
  match s with
  | [] => []
  | c :: s' => if (c =? underscore)%N then lstrip_underscore s' else s
  end.

(** [s.strip('_')] *)
Definition strip_underscore (s : str) : str :=
  reverse (lstrip_underscore (reverse (lstrip_underscore s))).

Definition sanitize_company_name (company_name : str) : str :=
  let sanitized := remove_special (lower company_name) in
  let sanitized := collapse_runs false sanitized in
  strip_underscore sanitized.
End Sanitize.

(** What the sanitiser relies on in the character database: an
    alphanumeric character is neither white space nor the hyphen, the
    underscore is not white space, and a string made of characters of a
    lowered string and of underscores is its own lower-case form. *)
Class UnicodeLaws `{UnicodeData} : Prop := {
  alnum_not_space : forall c, isalnum c = true -> isspace c = false;
  hyphen_not_alnum : isalnum hyphen = false;
  underscore_not_space : isspace underscore = false;
  lower_stable : forall s t,
    (forall c, c ∈ t -> c ∈ lower s \/ c = underscore) -> lower t = t }.

(** The ASCII tables: digits and letters; the white space of
    [str.isspace] (tab to carriage return, the four separators 28-31 and
    the space); [A-Z] lowered by 32.  Code points above 127 are left as
    they are and belong to no class. *)
Definition between (lo hi c : N) : bool := ((lo <=? c) && (c <=? hi))%N.

#[export] Instance ascii_data : UnicodeData := {|
  isalnum c := between 48 57 c || between 65 90 c || between 97 122 c;
  isspace c := between 9 13 c || between 28 31 c || (c =? 32)%N;
  lower s := (fun c => if between 65 90 c then (c + 32)%N else c) <$> s |}.

Definition codepoints (s : string) : str :=
  N_of_ascii <$> list_ascii_of_string s.

(** ** Classification adapter ([services/perplexity_service.py]) *)

(** A value of the dictionary [json.loads] gives; [JOther] is any other
    value (a float, a list, an object), by its text. *)
Inductive json : Type :=
| JNull
| JBool (b : bool)
| JNum (n : Z)
| JStr (s : string)
| JOther (text : string).

(** The prompt is a fixed text around the sender, the subject and the
    first 1000 characters of the body. *)
Record Prompt : Type :=
  mkPrompt { about_sender : string; about_subject : string; about_body : string }.

Definition _create_classification_prompt (subject body sender : string) : Prompt :=
  mkPrompt sender subject (substring 0 1000 body).

(** What [client.post] gives: an exception (time-out, connection error),
    or a response with its status and, when its body is JSON holding a
    string at [["choices"][0]["message"]["content"]], that string. *)
Inductive http_reply : Type :=
| NoReply (e : exn)
| Reply (status_code : Z) (content : option string).

(** [response.raise_for_status()] of httpx: every status that is not 2xx
    raises. *)
Definition is_success (status_code : Z) : bool :=
  (200 <=? status_code) && (status_code <=? 299).

Definition raise_for_status (status_code : Z) : outcome unit :=
  if is_success status_code then mret tt else Raise (HTTPStatusError status_code).

Fixpoint find_from (c : ascii) (s : string) (i : Z) : Z :=
  match s with
  | EmptyString => -1
  | String a s' => if Ascii.eqb a c then i else find_from c s' (i + 1)
  end.

(** [s.find(c)] *)
Definition str_find (s : string) (c : ascii) : Z := find_from c s 0.

Fixpoint rfind_from (c : ascii) (s : string) (i last : Z) : Z :=
  match s with
  | EmptyString => last
  | String a s' => rfind_from c s' (i + 1) (if Ascii.eqb a c then i else last)
  end.

(** [s.rfind(c)] *)
Definition str_rfind (s : string) (c : ascii) : Z := rfind_from c s 0 (-1).

(** [s[i:j]] for [0 <= i <= j], the only case the adapter uses. *)
Definition str_slice (s : string) (i j : Z) : string :=
  substring (Z.to_nat i) (Z.to_nat (j - i)) s.

(** The body of a part: its data, or the identifier of an attachment. *)
Module PartBody.
Record t : Type := mk { data : option string; attachmentId : option string }.
End PartBody.

(** A part of a message payload; a field is [None] when the key is absent
    from the dictionary. *)
Module Part.
#[warnings="-register-all"]
Inductive t : Type :=
  mk (mimeType : option string) (filename : option string)
     (body : option PartBody.t) (parts : option (list t)).

Definition mimeType (p : t) := let 'mk m _ _ _ := p in m.
Definition filename (p : t) := let 'mk _ f _ _ := p in f.
Definition body (p : t) := let 'mk _ _ b _ := p in b.
Definition parts (p : t) := let 'mk _ _ _ ps := p in ps.
End Part.

Module Header.
Record t : Type := mk { name : string; value : string }.
End Header.

Module Message.
Record t : Type := mk { id : string; headers : list Header.t; payload : Part.t }.
End Message.

(** The collaborators of the ingestion pipeline; an answer in [outcome]
    is a value or the exception the call raises. *)
Record Services : Type := mkServices {
  (* the clock: [datetime.now()] and its [strftime("%Y%m%d_%H%M%S")] *)
  now : datetime;
  timestamp : string;
  (* Gmail: [messages().get] and [attachments().get] followed by the
     base64 decoding of its data *)
  gmail_get : string -> outcome Message.t;
  gmail_attachment : string -> string -> outcome (list Byte.byte);
  (* [base64.urlsafe_b64decode(data).decode('utf-8', errors='ignore')] *)
  b64decode_utf8 : string -> outcome string;
  (* [os.makedirs] and [open(path, 'wb').write] *)
  write_file : file_path -> outcome unit;
  (* the classification service and [json.loads] *)
  http_post : Prompt -> http_reply;
  json_loads : string -> outcome (gmap string json);
  (* [str.lower] *)
  str_lower : string -> string;
  (* the commit of [_update_email_classification]: what the columns
     [primary_category], [sub_category], [data_month] and [data_year]
     hold once the database has taken the four values assigned, or the
     error of the commit when it refuses them *)
  db_update_classification :
    option json -> option json -> option json -> option json ->
    outcome (option string * option string * option Z * option Z) }.

Definition _call_perplexity_api (S : Services) (prompt : Prompt)
    : option (gmap string json) :=
  try_except
    (match http_post S prompt with
     | NoReply e => Raise e
     | Reply status_code content =>
         _ ← raise_for_status status_code;
         content ← getitem content;
         try_except_JSONDecodeError
           (let json_start := str_find content "{" in
            let json_end := str_rfind content "}" + 1 in
            if negb (json_start =? -1) && (json_start <? json_end) then
              let json_str := str_slice content json_start json_end in
              d ← json_loads S json_str;
              mret (Some d)
            else mret None)
           (mret None)
     end)
    (fun _ => None).

(** [classification.get(k)]: [None] for an absent key and for [null],
    and the value as it is otherwise, whatever its type. *)
Definition dict_get (d : gmap string json) (k : string) : option json :=
  match d !! k with
  | Some JNull => None
  | v => v
  end.

(** [_update_email_classification]: the four values are assigned as they
    come and committed; the record as the database holds it afterwards.
    When the commit fails the handler rolls back, which leaves the row
    as it was, and raises again. *)
Definition _update_email_classification (S : Services) (email_record : Email.t)
    (classification : gmap string json) : outcome Email.t :=
  '(pc, sc, dm, dy) ←
    db_update_classification S
      (dict_get classification "primary_category")
      (dict_get classification "sub_category")
      (dict_get classification "data_month")
      (dict_get classification "data_year");
  mret (Email.with_classification pc sc dm dy email_record).

(** [classify_email]: the record as the call leaves it, and the result.
    [None] and the empty dictionary both fail the test on
    [classification_result].  The only exception that reaches the handler
    is the one [_update_email_classification] raises after its rollback;
    the message of the handler reads [email_record.id], the rollback has
    expired the record, and the read raises [MissingGreenlet] in the
    asynchronous session: this exception leaves [classify_email]. *)
Definition classify_email (S : Services) (email_record : Email.t)
    : outcome (Email.t * bool) :=
  let prompt :=
    _create_classification_prompt (Email.subject email_record)
      (Email.body email_record) (Email.sender email_record) in
  match _call_perplexity_api S prompt with
  | Some classification_result =>
      if bool_decide (classification_result = ∅) then mret (email_record, false)
      else
        match _update_email_classification S email_record classification_result with
        | Return email_record => mret (email_record, true)
        | Raise _ => Raise MissingGreenlet
        end
  | None => mret (email_record, false)
  end.

(** The query of [classify_all_unclassified_emails] ([routers/emails.py]). *)
Definition unclassified_emails (db : DB) : list Email.t :=
  filter (fun e => negb (Email.ai_classified e)) (emails db).

(** ** Ingestion controller ([services/gmail_service.py]) *)

(** The lower case of the ASCII letters, the [str_lower] of the sample
    data. *)
Definition lower_ascii (s : string) : string :=
  string_of_list_ascii
    ((fun a => let n := N_of_ascii a in
               if between 65 90 n then ascii_of_N (n + 32) else a)
       <$> list_ascii_of_string s).

Fixpoint _get_header_value (S : Services) (headers : list Header.t)
    (name : string) : string :=
  match headers with
  | [] => ""
  | header :: rest =>
      if String.eqb (str_lower S (Header.name header)) (str_lower S name)
      then Header.value header
      else _get_header_value S rest name
  end.

(** The loop of [_extract_body] over [payload['parts']]; it leaves at the
    first part of type [text/plain] whose body has data. *)
Fixpoint first_plain_part (S : Services) (parts : list Part.t) : outcome string :=
  match parts with
  | [] => mret ""%string
  | part :: rest =>
      mime ← getitem (Part.mimeType part);
      if String.eqb mime "text/plain" then
        body ← getitem (Part.body part);
        match PartBody.data body with
        | Some data => b64decode_utf8 S data
        | None => first_plain_part S rest
        end
      else first_plain_part S rest
  end.

(** [body] still holds the empty string when the handler runs. *)
Definition _extract_body (S : Services) (payload : Part.t) : string :=
  try_except
    (match Part.parts payload with
     | Some parts => first_plain_part S parts
     | None =>
         mime ← getitem (Part.mimeType payload);
         match String.eqb mime "text/plain", Part.body payload with
         | true, Some (PartBody.mk (Some data) _) => b64decode_utf8 S data
         | _, _ => mret ""%string
         end
     end)
    (fun _ => ""%string).

Definition _get_company_from_email (db : DB) (email_address : string)
    : option Company.t :=
  match head (filter (fun ce => String.eqb (ClientEmail.email ce) email_address &&
                                ClientEmail.is_active ce) (client_emails db)) with
  | Some client_email =>
      match ClientEmail.company_id client_email with
      | Some cid => company_of db cid
      | None => None
      end
  | None => None
  end.

(** What the controller does outside the database. *)
Inductive api_call : Type :=
| GmailGet (message_id : string)
| GmailAttachmentGet (message_id attachment_id : string)
| PerplexityPost (prompt : Prompt).

Record Ingestion : Type := mkIngestion {
  store : DB;
  disk : list (file_path * list Byte.byte);
  api_log : list api_call }.

Definition with_store (d : DB) (st : Ingestion) : Ingestion :=
  mkIngestion d (disk st) (api_log st).

Definition log_call (c : api_call) (st : Ingestion) : Ingestion :=
  mkIngestion (store st) (disk st) (api_log st ++ [c]).

Definition month_names : list string :=
  [""; "January"; "February"; "March"; "April"; "May"; "June"; "July";
   "August"; "September"; "October"; "November"; "December"]%string.

(** [StorageService.create_storage_path]: the only step that can fail is
    [month_names[month]], out of range above 12 and below -13. *)
Definition create_storage_path (company_name : string) (data_month data_year : Z)
    (category filename : string) : outcome file_path :=
  if (-13 <=? data_month) && (data_month <=? 12)
  then mret (StoragePath company_name data_month data_year category filename)
  else Raise IndexError.

(** [StorageService.save_attachment]: the path written, with the file. *)
Definition save_attachment (S : Services) (company_name : string)
    (data_month data_year : Z) (category original_filename : string)
    (file_data : list Byte.byte) (email_id : Z)
    : outcome (file_path * list Byte.byte) :=
  let filename :=
    if email_id =? 0 then (timestamp S +:+ "_" +:+ original_filename)%string
    else ("email_" +:+ pretty email_id +:+ "_" +:+ original_filename)%string in
  file_path ← create_storage_path company_name data_month data_year category filename;
  _ ← write_file S file_path;
  mret (file_path, file_data).

(** [x or default] on a nullable integer. *)
Definition or_int (x : option Z) (default : Z) : Z :=
  match x with
  | Some v => if v =? 0 then default else v
  | None => default
  end.

Definition truthy_str (x : option string) : bool :=
  match x with
  | Some s => negb (String.eqb s "")
  | None => false
  end.

(** The body of [_save_attachment] once the attachment is downloaded: the
    file written and the row to add. *)
Definition store_attachment (S : Services) (db : DB) (part : Part.t)
    (email_record : Email.t) (file_data : list Byte.byte)
    : outcome ((file_path * list Byte.byte) * Attachment.t) :=
  filename ← getitem (Part.filename part);
  written ←
    match Email.company_id email_record ≫= company_of db,
          truthy_str (Email.primary_category email_record) with
    | Some company, true =>
        save_attachment S (Company.name company)
          (or_int (Email.data_month email_record) (month (dt_date (now S))))
          (or_int (Email.data_year email_record) (year (dt_date (now S))))
          (default ""%string (Email.primary_category email_record))
          filename file_data (Email.id email_record)
    | _, _ =>
        let file_path :=
          TempPath ("email_" +:+ pretty (Email.id email_record) +:+ "_" +:+ filename) in
        _ ← write_file S file_path;
        mret (file_path, file_data)
    end;
  mret (written,
        Attachment.mk (fresh_id (Attachment.id <$> attachments db))
          (Email.id email_record) filename written.1
          (Z.of_nat (length file_data))
          (default "application/octet-stream"%string (Part.mimeType part))).

(** [_save_attachment]: every exception is caught and logged; what was
    done before it stays done. *)
Definition _save_attachment (S : Services) (message : Message.t) (part : Part.t)
    (email_record : Email.t) (st : Ingestion) : Ingestion :=
  match Part.body part with
  | None => st
  | Some body =>
      if negb (truthy_str (PartBody.attachmentId body)) then st
      else
        let attachment_id := default ""%string (PartBody.attachmentId body) in
        let st := log_call (GmailAttachmentGet (Message.id message) attachment_id) st in
        match file_data ← gmail_attachment S (Message.id message) attachment_id;
              store_attachment S (store st) part email_record file_data with
        | Return (written, attachment_record) =>
            mkIngestion
              (with_attachments (attachments (store st) ++ [attachment_record]) (store st))
              (disk st ++ [written])
              (api_log st)
        | Raise _ => st
        end
  end.

Definition _process_attachments (S : Services) (message : Message.t)
    (email_record : Email.t) (st : Ingestion) : Ingestion :=
  match Part.parts (Message.payload message) with
  | Some parts =>
      foldl (fun st part =>
               if truthy_str (Part.filename part)
               then _save_attachment S message part email_record st
               else st)
            st parts
  | None => st
  end.

(** Assignments to [email_record] reach its row. *)
Fixpoint update_email (email_id : Z) (f : Email.t -> Email.t)
    (es : list Email.t) : list Email.t :=
  match es with
  | [] => []
  | e :: rest =>
      if Email.id e =? email_id then f e :: rest
      else e :: update_email email_id f rest
  end.

Definition message_exists (db : DB) (message_id : string) : bool :=
  bool_decide
    (head (filter (fun e => String.eqb (Email.message_id e) message_id) (emails db))
     <> None).

Definition _process_email (S : Services) (message_id sender_email : string)
    (st : Ingestion) : Ingestion :=
  if message_exists (store st) message_id then st
  else
    let st := log_call (GmailGet message_id) st in
    match gmail_get S message_id with
    | Raise _ => st
    | Return message =>
        let headers := Message.headers message in
        let subject := _get_header_value S headers "Subject" in
        let sender := _get_header_value S headers "From" in
        let body := _extract_body S (Message.payload message) in
        let company := _get_company_from_email (store st) sender_email in
        let email_record :=
          Email.mk (fresh_id (Email.id <$> emails (store st)))
                   message_id sender subject body (Company.id <$> company)
                   None None None None false false (Some (now S)) in
        let st := with_store (with_emails (emails (store st) ++ [email_record]) (store st)) st in
        (* Process attachments *)
        let st := _process_attachments S message email_record st in
        (* Classify email with AI *)
        let st :=
          log_call (PerplexityPost
                      (_create_classification_prompt (Email.subject email_record)
                         (Email.body email_record) (Email.sender email_record))) st in
        match classify_email S email_record with
        | Return (classified, _) =>
            (* Mark as processed *)
            let email_record := Email.with_is_processed true classified in
            with_store
              (with_emails
                 (update_email (Email.id email_record) (fun _ => email_record)
                               (emails (store st)))
                 (store st))
              st
        | Raise _ =>
            (* the handler of [_process_email]: the row stays as it was
               committed, not processed *)
            st
        end
    end.

(** ** The behaviour the specification gives to body extraction

    Breadth-first search over all the parts of the payload for the first
    leaf of type [text/plain], in the words of the specification; it is
    compared with [_extract_body] below. *)

Fixpoint part_size (p : Part.t) : nat :=
  match p with
  | Part.mk _ _ _ None => 1
  | Part.mk _ _ _ (Some ps) =>
      Datatypes.S ((fix total (l : list Part.t) : nat :=
           match l with
           | [] => 0
           | q :: l' => part_size q + total l'
           end) ps)
  end%nat.

Fixpoint bfs_first_plain_leaf (fuel : nat) (queue : list Part.t) : option Part.t :=
  match fuel, queue with
  | O, _ => None
  | _, [] => None
  | Datatypes.S fuel, p :: rest =>
      match Part.parts p with
      | Some children => bfs_first_plain_leaf fuel (rest ++ children)
      | None =>
          if bool_decide (Part.mimeType p = Some "text/plain"%string) then Some p
          else bfs_first_plain_leaf fuel rest
      end
  end.

Definition spec_extract_body (S : Services) (payload : Part.t) : string :=
  match bfs_first_plain_leaf (part_size payload) [payload] with
  | Some leaf =>
      match Part.body leaf ≫= PartBody.data with
      | Some data => try_except (b64decode_utf8 S data) (fun _ => ""%string)
      | None => ""%string
      end
  | None => ""%string
  end.

(** ** Vocabulary of the properties *)

(** A part the loop of [_extract_body] passes over: it has a type, and
    either the type is not [text/plain] or its body carries no data. *)
Definition passed_over (p : Part.t) : Prop :=
  exists mime,
    Part.mimeType p = Some mime /\
    (mime <> "text/plain"%string \/
     exists b, Part.body p = Some b /\ PartBody.data b = None).

(** A part at which the loop of [_extract_body] breaks off with an
    exception: it has no type, or it is of type [text/plain] and has no
    body. *)
Definition aborts (p : Part.t) : Prop :=
  Part.mimeType p = None \/
  (Part.mimeType p = Some "text/plain"%string /\ Part.body p = None).

(** A string that does not start with an underscore. *)
Definition clean_head (s : str) : Prop :=
  match s with
  | [] => True
  | c :: _ => c <> underscore
  end.

(** The three invariants of a reminder. *)
Definition reminder_inv (r : Reminder.t) : Prop :=
  Reminder.days_sent r <= Reminder.max_days_to_send r /\
  (Reminder.gst_received r = true -> Reminder.is_active r = false) /\
  (Reminder.max_days_to_send r <= Reminder.days_sent r -> Reminder.is_active r = false).

(** The operations that keep the invariants: every tick, stop and batch
    creation; a manual creation with a budget of at least one; a restart
    of a reminder whose compliance is not received and whose budget is not
    used up; a field update that leaves its row within the invariants. *)
Definition keeps_invariants (d : DB) (o : op) : Prop :=
  match o with
  | Create rem => 1 <= ReminderCreate.max_days_to_send rem
  | Update reminder_id data =>
      forall obj, get_reminder d reminder_id = Some obj ->
                  reminder_inv (setattrs data obj)
  | Restart reminder_id =>
      forall obj, get_reminder d reminder_id = Some obj ->
                  Reminder.gst_received obj = false /\
                  Reminder.days_sent obj < Reminder.max_days_to_send obj
  | _ => True
  end.

(** A trace each of whose operations satisfies [P] in the state it meets. *)
Fixpoint admissible (P : DB -> op -> Prop) (ops : list op) (w : World) : Prop :=
  match ops with
  | [] => True
  | o :: rest => P (db w) o /\ admissible P rest (step w o)
  end.

(** One turn of the loop of [process_daily_reminders]. *)
Definition tick_row (now : datetime) (smtp : Z -> Mail -> bool) (db : DB)
    (r : Reminder.t) : Reminder.t * list Dispatch :=
  if is_pending (dt_date now) r then _process_reminder now smtp db r else (r, []).

(** The rows of [reminders] with a given key. *)
Definition rows_for (company_id : Z) (reminder_month : date)
    (rs : list Reminder.t) : list Reminder.t :=
  filter (fun r => (Reminder.company_id r =? company_id) &&
                   date_eqb (Reminder.reminder_month r) reminder_month) rs.

Definition one_row_per_key (rs : list Reminder.t) : Prop :=
  forall company_id reminder_month,
    (length (rows_for company_id reminder_month rs) <= 1)%nat.

Definition not_direct_creation (o : op) : Prop :=
  match o with
  | Create _ => False
  | _ => True
  end.

(** The reminder and the calendar day of a notification, and the keys of
    the notifications of a log that were delivered. *)
Definition dispatch_key (d : Dispatch) : Z * date :=
  (for_reminder d, dt_date (sent_at d)).

Definition delivered_keys (log : list Dispatch) : list (Z * date) :=
  dispatch_key <$> filter (fun d => delivered d) log.

(** A delivered notification is covered by its reminder when the
    reminder's [last_sent] is not before the day of the notification. *)
Definition covered (rs : list Reminder.t) (d : Dispatch) : Prop :=
  delivered d = true ->
  exists r t,
    r ∈ rs /\ Reminder.id r = for_reminder d /\
    Reminder.last_sent r = Some t /\
    date_leb (dt_date (sent_at d)) (dt_date t) = true.

(** The state of the table and of the sink that the dispatch policy
    maintains: identifiers are unique, every delivered notification is
    covered, and no two delivered notifications share reminder and day. *)
Definition dispatch_inv (w : World) : Prop :=
  NoDup (Reminder.id <$> reminders (db w)) /\
  Forall (covered (reminders (db w))) (outbox w) /\
  NoDup (delivered_keys (outbox w)).

(** The failures of the classification service: the request raises (a
    time-out among others); the status is not a success; the body of the
    response holds no text; the text has no opening brace, or no closing
    brace after the first opening one; [json.loads] rejects the text
    between the first opening and the last closing brace, which it does
    in particular when it accepts no slice of the text at all. *)
Definition classification_fails (S : Services) (prompt : Prompt) : Prop :=
  (exists e, http_post S prompt = NoReply e) \/
  (exists status_code content,
      http_post S prompt = Reply status_code content /\
      is_success status_code = false) \/
  (exists status_code, http_post S prompt = Reply status_code None) \/
  (exists status_code content,
      http_post S prompt = Reply status_code (Some content) /\
      (str_find content "{" = -1 \/
       str_rfind content "}" + 1 <= str_find content "{" \/
       (exists e, json_loads S (str_slice content (str_find content "{")
                                          (str_rfind content "}" + 1)) = Raise e) \/
       (forall i j d, json_loads S (str_slice content i j) <> Return d))).

(** The rows of [emails] stored for a message identifier. *)
Definition stored_emails (message_id : string) (db : DB) : list Email.t :=
  filter (fun e => String.eqb (Email.message_id e) message_id) (emails db).

(** The row [_process_email] leaves for the record it created: the
    classified record marked processed, or the record as it was first
    committed when [classify_email] raises. *)
Definition stored_record (S : Services) (email_record : Email.t) : Email.t :=
  match classify_email S email_record with
  | Return (classified, _) => Email.with_is_processed true classified
  | Raise _ => email_record
  end.

(** The record [_process_email] creates for a new message. *)
Definition new_email_record (S : Services) (message_id sender_email : string)
    (message : Message.t) (db : DB) : Email.t :=
  Email.mk (fresh_id (Email.id <$> emails db)) message_id
    (_get_header_value S (Message.headers message) "From")
    (_get_header_value S (Message.headers message) "Subject")
    (_extract_body S (Message.payload message))
    (Company.id <$> _get_company_from_email db sender_email)
    None None None None false false (Some (now S)).

(** ** Sample data for the examples *)

(** A message with a text part and a PDF attachment. *)
Definition sample_message : Message.t :=
  Message.mk "m1"
    [Header.mk "From" "Acme <a@x>"; Header.mk "subject" "GST June"]
    (Part.mk (Some "multipart/mixed") None None
       (Some [Part.mk (Some "text/html") (Some "")
                      (Some (PartBody.mk (Some "PGI+") None)) None;
              Part.mk (Some "text/plain") (Some "")
                      (Some (PartBody.mk (Some "aGVsbG8=") None)) None;
              Part.mk (Some "application/pdf") (Some "gst.pdf")
                      (Some (PartBody.mk None (Some "att1"))) None]))%string.

(** The same text, one level down in a [multipart/alternative] part. *)
Definition nested_payload : Part.t :=
  Part.mk (Some "multipart/mixed") None None
    (Some [Part.mk (Some "multipart/alternative") None None
             (Some [Part.mk (Some "text/plain") (Some "")
                            (Some (PartBody.mk (Some "aGVsbG8=") None)) None;
                    Part.mk (Some "text/html") (Some "")
                            (Some (PartBody.mk (Some "PGI+") None)) None]);
           Part.mk (Some "application/pdf") (Some "gst.pdf")
                   (Some (PartBody.mk None (Some "att1"))) None])%string.

(** A database that takes text for the text columns and integers, also
    written as text, for the integer columns, and refuses every other
    value. *)
Fixpoint digits (s : string) (acc : Z) : option Z :=
  match s with
  | EmptyString => Some acc
  | String a s' =>
      let n := Z.of_N (N_of_ascii a) in
      if (48 <=? n) && (n <=? 57) then digits s' (10 * acc + (n - 48)) else None
  end.

Definition text_column (v : option json) : outcome (option string) :=
  match v with
  | None => Return None
  | Some (JStr s) => Return (Some s)
  | Some _ => Raise DBAPIError
  end.

Definition integer_column (v : option json) : outcome (option Z) :=
  match v with
  | None => Return None
  | Some (JNum n) => Return (Some n)
  | Some (JStr (String a s)) =>
      match digits (String a s) 0 with
      | Some n => Return (Some n)
      | None => Raise DBAPIError
      end
  | Some _ => Raise DBAPIError
  end.

Definition typed_columns (pc sc dm dy : option json)
    : outcome (option string * option string * option Z * option Z) :=
  pc ← text_column pc;
  sc ← text_column sc;
  dm ← integer_column dm;
  dy ← integer_column dy;
  mret (pc, sc, dm, dy).

(** Gmail and the disk work; the classification service times out. *)
Definition timeout_services : Services :=
  mkServices (DateTime (Date 2025 7 8) 0) "20250708_000000"
    (fun message_id =>
       if String.eqb message_id "m1" then Return sample_message
       else Raise HttpError)
    (fun _ attachment_id =>
       if String.eqb attachment_id "att1" then Return [Byte.x25; Byte.x50; Byte.x44; Byte.x46]
       else Raise HttpError)
    (fun data =>
       if String.eqb data "aGVsbG8=" then Return "hello"%string
       else Raise ValueError)
    (fun _ => Return tt)
    (fun _ => NoReply TimeoutException)
    (fun _ => Raise JSONDecodeError)
    lower_ascii
    typed_columns.

(** The same with a classification service that answers. *)
Definition answering_services : Services :=
  mkServices (now timeout_services) (timestamp timeout_services)
    (gmail_get timeout_services) (gmail_attachment timeout_services)
    (b64decode_utf8 timeout_services) (write_file timeout_services)
    (fun _ => Reply 200 (Some "Here it is: {gst-june} thanks"%string))
    (fun s => if String.eqb s "{gst-june}"
              then Return (<["primary_category" := JStr "GST"]>
                           (<["data_month" := JNum 6]>
                            (<["data_year" := JNum 2025]> ∅)))
              else Raise JSONDecodeError)
    lower_ascii
    typed_columns.

(** The same with an answer whose month is written as text. *)
Definition text_month_services : Services :=
  mkServices (now timeout_services) (timestamp timeout_services)
    (gmail_get timeout_services) (gmail_attachment timeout_services)
    (b64decode_utf8 timeout_services) (write_file timeout_services)
    (http_post answering_services)
    (fun s => if String.eqb s "{gst-june}"
              then Return (<["primary_category" := JStr "GST"]>
                           (<["data_month" := JStr "6"]>
                            (<["data_year" := JNum 2025]> ∅)))
              else Raise JSONDecodeError)
    lower_ascii
    typed_columns.

(** The same with an answer whose sub-category is an object, which the
    database refuses. *)
Definition refused_services : Services :=
  mkServices (now timeout_services) (timestamp timeout_services)
    (gmail_get timeout_services) (gmail_attachment timeout_services)
    (b64decode_utf8 timeout_services) (write_file timeout_services)
    (http_post answering_services)
    (fun s => if String.eqb s "{gst-june}"
              then Return (<["primary_category" := JStr "GST"]>
                           (<["sub_category" := JOther "{}"]>
                            (<["data_month" := JNum 6]>
                             (<["data_year" := JNum 2025]> ∅))))
              else Raise JSONDecodeError)
    lower_ascii
    typed_columns.

Definition fresh_email : Email.t :=
  Email.mk 1 "m1" "a@x" "GST June" "see attached" (Some 1)
           None None None None false false None.

Definition acme_db : DB :=
  mkDB [Company.mk 1 "Acme" true] [ClientEmail.mk 1 "a@x" (Some 1) true] [] [] [].

(** A GST e-mail of company 1 for June 2025. *)
Definition gst_june : Email.t :=
  Email.mk 1 "m1" "a@x" "GST June" "see attached" (Some 1)
           (Some "GST"%string) (Some "GSTR3B"%string) (Some 6) (Some 2025)
           true true None.

Definition smtp_ok : Z -> Mail -> bool := fun _ _ => true.
Definition smtp_down : Z -> Mail -> bool := fun _ _ => false.

Definition acme_world : World := mkWorld acme_db [].

Definition june : date := Date 2025 6 1.
Definition july_8 : datetime := DateTime (Date 2025 7 8) 32400000000.
Definition july_9 : datetime := DateTime (Date 2025 7 9) 32400000000.

(** A trace that uses every operation. *)
Definition sample_trace : list op :=
  [CreateMonthly june;
   Tick july_8 smtp_ok;
   Stop 1;
   Restart 1;
   Create (ReminderCreate.mk 1 (Date 2025 7 1) 3);
   Update 2 (ReminderUpdate.mk (Some 4) None (Some false));
   SetEmails [gst_june];
   Tick july_9 smtp_down].

(** The controller before its first poll. *)
Definition mailroom : Ingestion := mkIngestion acme_db [] [].

(** ** The remaining endpoints of [routers/reminders.py] *)

(** [await db.delete(obj)]: the row of the object leaves the table. *)
Fixpoint delete_row (reminder_id : Z) (rs : list Reminder.t) : list Reminder.t :=
  match rs with
  | [] => []
  | r :: rest =>
      if Reminder.id r =? reminder_id then rest
      else r :: delete_row reminder_id rest
  end.

Definition delete_reminder (reminder_id : Z) (db : DB) : DB * response unit :=
  match get_reminder db reminder_id with
  | None => (db, HTTPException 404)
  | Some _ => (with_reminders (delete_row reminder_id (reminders db)) db, Ok tt)
  end.

Definition list_reminders (active_only : bool) (db : DB) : list Reminder.t :=
  if active_only then filter (fun r => Reminder.is_active r) (reminders db)
  else reminders db.

(** ** Folder names of the fiscal year and of the month
    ([StorageService.get_financial_year], [get_month_folder]) *)

(** [str(n)] *)
Definition py_str (n : Z) : string := pretty n.

(** [s[2:]] *)
Definition drop2 (s : string) : string :=
  match s with
  | String _ (String _ rest) => rest
  | _ => ""%string
  end.

Definition get_financial_year (month year : Z) : string :=
  if 4 <=? month then (py_str year +:+ "-" +:+ drop2 (py_str (year + 1)))%string
  else (py_str (year - 1) +:+ "-" +:+ drop2 (py_str year))%string.

(** [l[i]]: a negative index counts from the end, an index out of range
    raises [IndexError]. *)
Definition py_index {A} (l : list A) (i : Z) : outcome A :=
  let n := Z.of_nat (length l) in
  let item :=
    if 0 <=? i then l !! Z.to_nat i
    else if - n <=? i then l !! Z.to_nat (n + i)
    else None in
  match item with
  | Some a => Return a
  | None => Raise IndexError
  end.

Definition get_month_folder (month year : Z) : outcome string :=
  name ← py_index month_names month;
  mret (name +:+ "-" +:+ drop2 (py_str year))%string.

(** ** Polling ([GmailService.get_registered_emails], [_fetch_from_email],
    [fetch_unread_emails]) *)

(** The list comprehension of [get_registered_emails] over the active
    client addresses; [email.company.is_active] fails on an address
    without company. *)
Fixpoint registered_addresses (db : DB) (ces : list ClientEmail.t)
    : outcome (list string) :=
  match ces with
  | [] => mret []
  | email :: rest =>
      company ← match ClientEmail.company_id email ≫= company_of db with
                | Some company => Return company
                | None => Raise AttributeError
                end;
      tail ← registered_addresses db rest;
      mret (if Company.is_active company then ClientEmail.email email :: tail
            else tail)
  end.

Definition get_registered_emails (db : DB) : list string :=
  try_except
    (registered_addresses db
       (filter (fun ce => ClientEmail.is_active ce) (client_emails db)))
    (fun _ => []).

(** The loop of [_fetch_from_email] over the messages listed. *)
Definition process_messages (S : Services) (email_address : string)
    (messages : list string) (st : Ingestion) : Ingestion :=
  foldl (fun st message_id => _process_email S message_id email_address st)
        st messages.

(** [_fetch_from_email]: [list_unread] is the answer of
    [messages().list(q='from:... is:unread')], the identifiers of the
    unread messages of the address or the exception of the call. *)
Definition _fetch_from_email (S : Services)
    (list_unread : string -> outcome (list string))
    (email_address : string) (st : Ingestion) : Ingestion * Z :=
  match list_unread email_address with
  | Return messages =>
      (process_messages S email_address messages st, Z.of_nat (length messages))
  | Raise _ => (st, 0)
  end.

(** The loop of [fetch_unread_emails] over the registered addresses. *)
Fixpoint fetch_from_all (S : Services)
    (list_unread : string -> outcome (list string))
    (addresses : list string) (st : Ingestion) (processed_count : Z)
    : Ingestion * Z :=
  match addresses with
  | [] => (st, processed_count)
  | email_address :: rest =>
      let '(st, count) := _fetch_from_email S list_unread email_address st in
      fetch_from_all S list_unread rest st (processed_count + count)
  end.

(** [authenticated] tells whether the Gmail service is at hand, built
    before or by [authenticate] now. *)
Definition fetch_unread_emails (S : Services)
    (list_unread : string -> outcome (list string)) (authenticated : bool)
    (st : Ingestion) : Ingestion * Z :=
  if negb authenticated then (st, 0)
  else fetch_from_all S list_unread (get_registered_emails (store st)) st 0.

(** ** The reprocessing endpoint ([routers/email.py]) *)

(** [reprocess_email]: the two flags are reset, the classification
    fields are left. *)
Definition reset_flags (email : Email.t) : Email.t :=
  Email.mk (Email.id email) (Email.message_id email) (Email.sender email)
    (Email.subject email) (Email.body email) (Email.company_id email)
    (Email.primary_category email) (Email.sub_category email)
    (Email.data_month email) (Email.data_year email)
    false false (Email.received_date email).

Definition get_email (db : DB) (email_id : Z) : option Email.t :=
  head (filter (fun e => Email.id e =? email_id) (emails db)).

Definition reprocess_email (email_id : Z) (db : DB) : DB * response string :=
  match get_email db email_id with
  | None => (db, HTTPException 404)
  | Some _ =>
      (with_emails (update_email email_id reset_flags (emails db)) db,
       Ok "Email marked for reprocessing"%string)
  end.


(** ** Vocabulary of the further properties *)

(** The calls of the sink made for a reminder, and those delivered. *)
Definition calls_for (reminder_id : Z) (log : list Dispatch) : list Dispatch :=
  filter (fun d => for_reminder d =? reminder_id) log.

Definition delivered_to (reminder_id : Z) (log : list Dispatch) : list Dispatch :=
  filter (fun d => delivered d) (calls_for reminder_id log).

(** The counters agree with the log: identifiers are unique, every call
    of the log is for a reminder of the table, and [days_sent] is the
    number of notifications delivered for the reminder. *)
Definition counters_ok (log : list Dispatch) (rs : list Reminder.t) : Prop :=
  NoDup (Reminder.id <$> rs) /\
  (forall d, d ∈ log -> for_reminder d ∈ Reminder.id <$> rs) /\
  (forall r, r ∈ rs ->
     Reminder.days_sent r = Z.of_nat (length (delivered_to (Reminder.id r) log))).

Definition counter_inv (w : World) : Prop :=
  counters_ok (outbox w) (reminders (db w)).

(** An operation that leaves every budget as it is or creates a reminder
    with a budget that is not negative. *)
Definition keeps_budget (o : op) : Prop :=
  match o with
  | Update _ data => ReminderUpdate.max_days_to_send data = None
  | Create rem => 0 <= ReminderCreate.max_days_to_send rem
  | _ => True
  end.

(** An operation other than a restart or a field update of the reminder. *)
Definition leaves_alone (reminder_id : Z) (o : op) : Prop :=
  match o with
  | Restart i => i <> reminder_id
  | Update i _ => i <> reminder_id
  | _ => True
  end.

(** The row a delivered notification leaves behind. *)
Definition after_delivery (now : datetime) (r : Reminder.t) : Reminder.t :=
  let r1 :=
    Reminder.with_last_sent (Some now)
      (Reminder.with_days_sent (Reminder.days_sent r + 1) r) in
  if Reminder.max_days_to_send r <=? Reminder.days_sent r + 1
  then Reminder.with_is_active false r1 else r1.

(** A message the controller is done with: its row is stored, or Gmail
    does not deliver it. *)
Definition handled (S : Services) (d : DB) (message_id : string) : Prop :=
  message_exists d message_id = true \/ exists e, gmail_get S message_id = Raise e.

(** The number of messages Gmail lists for an address. *)
Definition listed_count (list_unread : string -> outcome (list string))
    (email_address : string) : Z :=
  match list_unread email_address with
  | Return messages => Z.of_nat (length messages)
  | Raise _ => 0
  end.

(** Whether an active client address counts as registered. *)
Definition of_active_company (db : DB) (ce : ClientEmail.t) : bool :=
  match ClientEmail.company_id ce ≫= company_of db with
  | Some company => Company.is_active company
  | None => false
  end.

(** The keys of the e-mail tables: identifiers and message identifiers
    are unique, and every attachment belongs to a stored e-mail. *)
Definition keys_ok (d : DB) : Prop :=
  NoDup (Email.id <$> emails d) /\
  NoDup (Email.message_id <$> emails d) /\
  NoDup (Attachment.id <$> attachments d) /\
  (forall a, a ∈ attachments d ->
             Attachment.email_id a ∈ Email.id <$> emails d).

Definition is_temp (p : file_path) : bool :=
  match p with
  | TempPath _ => true
  | StoragePath _ _ _ _ _ => false
  end.

(** Gmail lists the same message for the address at every poll. *)
Definition one_unread : string -> outcome (list string) :=
  fun email_address =>
    if String.eqb email_address "a@x" then Return ["m1"%string]
    else Raise HttpError.


(** An operation that adds no reminder. *)
Definition creates_nothing (o : op) : Prop :=
  match o with
  | Create _ | CreateMonthly _ => False
  | _ => True
  end.


(* ===================================================================== *)
(** * Part II.  Properties                                                *)
(* ===================================================================== *)

(** ** Dates *)

Lemma date_ltb_spec a b :
  date_ltb a b = true <->
  (year a < year b \/
   (year a = year b /\
    (month a < month b \/ (month a = month b /\ day a < day b)))).
Proof. unfold date_ltb. lia. Qed.

Lemma date_leb_spec a b :
  date_leb a b = true <->
  (year a < year b \/
   (year a = year b /\
    (month a < month b \/ (month a = month b /\ day a <= day b)))).
Proof.
  unfold date_leb. rewrite negb_true_iff, <- not_true_iff_false, date_ltb_spec. lia.
Qed.

Lemma date_eqb_eq a b : date_eqb a b = true <-> a = b.
Proof.
  unfold date_eqb. destruct a as [ya ma da], b as [yb mb db0]; simpl.
  split.
  - intros E. f_equal; lia.
  - intros [= -> -> ->]. lia.
Qed.

Lemma date_eqb_refl a : date_eqb a a = true.
Proof. by apply date_eqb_eq. Qed.

Lemma date_leb_refl a : date_leb a a = true.
Proof. apply date_leb_spec. lia. Qed.

Lemma date_leb_ltb_trans a b c :
  date_leb a b = true -> date_ltb b c = true -> date_ltb a c = true.
Proof. rewrite date_leb_spec, !date_ltb_spec. lia. Qed.

Lemma date_ltb_leb a b : date_ltb a b = true -> date_leb a b = true.
Proof. rewrite date_leb_spec, date_ltb_spec. lia. Qed.

Lemma date_leb_trans a b c :
  date_leb a b = true -> date_leb b c = true -> date_leb a c = true.
Proof. rewrite !date_leb_spec. lia. Qed.

Lemma date_ltb_neq a b : date_ltb a b = true -> a <> b.
Proof. rewrite date_ltb_spec. intros L ->. lia. Qed.

(** ** Rows reached through [db.get] *)

Lemma update_row_length reminder_id f rs :
  length (update_row reminder_id f rs) = length rs.
Proof.
  induction rs as [|r rs IH]; simpl; [done|].
  destruct (Reminder.id r =? reminder_id); simpl; congruence.
Qed.

Lemma head_filter_id_cons (reminder_id : Z) (r : Reminder.t) rs :
  head (filter (fun r => Reminder.id r =? reminder_id) (r :: rs)) =
  if Reminder.id r =? reminder_id then Some r
  else head (filter (fun r => Reminder.id r =? reminder_id) rs).
Proof.
  rewrite filter_cons. destruct (Reminder.id r =? reminder_id) eqn:E.
  - destruct (decide _) as [|n]; [done|]. by destruct n.
  - destruct (decide _) as [i|]; [|done]. by destruct i.
Qed.

(** The row found by [db.get] is the row the assignments reach. *)
Lemma update_row_get reminder_id f rs obj :
  (forall r, Reminder.id (f r) = Reminder.id r) ->
  head (filter (fun r => Reminder.id r =? reminder_id) rs) = Some obj ->
  head (filter (fun r => Reminder.id r =? reminder_id) (update_row reminder_id f rs))
  = Some (f obj).
Proof.
  intros Hid. induction rs as [|r rs IH]; [done|].
  rewrite head_filter_id_cons. simpl.
  destruct (Reminder.id r =? reminder_id) eqn:E.
  - intros [= ->]. rewrite head_filter_id_cons, Hid, E. done.
  - intros G. rewrite head_filter_id_cons, E. auto.
Qed.

(** Every other position of the table keeps its row. *)
Lemma update_row_other reminder_id f rs (i : nat) r :
  rs !! i = Some r -> Reminder.id r <> reminder_id ->
  update_row reminder_id f rs !! i = Some r.
Proof.
  revert i. induction rs as [|r0 rs IH]; intros i; [done|].
  simpl. destruct (Reminder.id r0 =? reminder_id) eqn:E.
  - destruct i as [|i]; simpl; [|done].
    intros [= ->] N. apply Z.eqb_eq in E. done.
  - destruct i as [|i]; simpl; [done|]. apply IH.
Qed.

(** Positionally, [update_row] applies [f] or nothing. *)
Lemma update_row_Forall2 reminder_id f rs :
  Forall2 (fun r r' => r' = r \/ (Reminder.id r = reminder_id /\ r' = f r))
          rs (update_row reminder_id f rs).
Proof.
  induction rs as [|r rs IH]; simpl; [constructor|].
  destruct (Reminder.id r =? reminder_id) eqn:E.
  - constructor.
    + right. split; [by apply Z.eqb_eq|done].
    + apply Forall2_same_length_lookup_2; [done|].
      intros i x y Hx Hy. left. congruence.
  - constructor; [by left|done].
Qed.

(** ** C10: what [restart] changes *)

(** C10.  For an existing reminder, [restart] answers "restarted", sets
    [manual_stop] to false and [is_active] to true on that reminder and
    changes nothing else: its other eight fields (among them [days_sent],
    [gst_received] and [last_sent]) keep their values, the table keeps its
    length and every row with another identifier, and the other tables are
    untouched. *)
Theorem restart_changes_two_flags_only db reminder_id obj :
  get_reminder db reminder_id = Some obj ->
  let db' := (restart reminder_id db).1 in
  (restart reminder_id db).2 = Ok "restarted"%string /\
  (exists obj',
      get_reminder db' reminder_id = Some obj' /\
      Reminder.manual_stop obj' = false /\
      Reminder.is_active obj' = true /\
      Reminder.id obj' = Reminder.id obj /\
      Reminder.company_id obj' = Reminder.company_id obj /\
      Reminder.reminder_month obj' = Reminder.reminder_month obj /\
      Reminder.expected_by_date obj' = Reminder.expected_by_date obj /\
      Reminder.max_days_to_send obj' = Reminder.max_days_to_send obj /\
      Reminder.days_sent obj' = Reminder.days_sent obj /\
      Reminder.gst_received obj' = Reminder.gst_received obj /\
      Reminder.last_sent obj' = Reminder.last_sent obj) /\
  length (reminders db') = length (reminders db) /\
  (forall (i : nat) r, reminders db !! i = Some r ->
      Reminder.id r <> reminder_id -> reminders db' !! i = Some r) /\
  companies db' = companies db /\
  client_emails db' = client_emails db /\
  emails db' = emails db /\
  attachments db' = attachments db.
Proof.
  intros G. unfold restart. rewrite G. simpl.
  split; [done|]. split.
  - exists (restart_fields obj). split.
    + unfold get_reminder in *. simpl. by apply update_row_get.
    + by destruct obj.
  - split; [apply update_row_length|].
    split; [intros i r; apply update_row_other|done].
Qed.

Lemma restart_changes_two_flags_only_witness :
  let r := Reminder.mk 1 7 (Date 2025 6 1) (Date 2025 7 7) 5 5 false true true
             (Some (DateTime (Date 2025 7 12) 0)) in
  let db0 := mkDB [] [] [] [] [r] in
  exists obj',
    get_reminder (restart 1 db0).1 1 = Some obj' /\
    Reminder.days_sent obj' = 5 /\ Reminder.gst_received obj' = true.
Proof.
  intros r db0.
  destruct (restart_changes_two_flags_only db0 1 r eq_refl)
    as (_ & (obj' & G & _ & _ & _ & _ & _ & _ & _ & D & R & _) & _).
  exists obj'. split; [exact G|]. split; [exact D|exact R].
Defined.

(** An unknown identifier is answered 404 and nothing is changed. *)
Lemma restart_not_found db reminder_id :
  get_reminder db reminder_id = None ->
  restart reminder_id db = (db, HTTPException 404).
Proof. intros G. unfold restart. by rewrite G. Qed.

(** ** C2: the expected-by date *)

(** The service gives the 7th of the month after [reminder_month], January
    of the next year after December (the calendar ends with year 9999). *)
Lemma _calculate_expected_date_next_month reminder_month :
  valid_date reminder_month = true ->
  (year reminder_month < 9999 \/ month reminder_month < 12) ->
  _calculate_expected_date reminder_month =
  Return (if month reminder_month =? 12
          then Date (year reminder_month + 1) 1 7
          else Date (year reminder_month) (month reminder_month + 1) 7).
Proof.
  destruct reminder_month as [y m d]. unfold valid_date, _calculate_expected_date,
    date_new, valid_date. simpl. intros V B.
  destruct (m =? 12) eqn:E; simpl.
  - assert (((1 <=? y + 1) && (y + 1 <=? 9999)) = true) as -> by lia. done.
  - assert (((1 <=? y) && (y <=? 9999) && (1 <=? m + 1) && (m + 1 <=? 12)) = true)
      as -> by lia.
    assert ((7 <=? days_in_month y (m + 1)) = true) as ->; [|done].
    unfold days_in_month.
    repeat match goal with |- context [if ?b then _ else _] => destruct b end; lia.
Qed.

(** The mounted endpoint gives the 7th of [reminder_month]'s own month. *)
Lemma create_reminder_expected_by_date rem db :
  valid_date (ReminderCreate.reminder_month rem) = true ->
  exists obj,
    (create_reminder rem db).2 = Ok obj /\
    Reminder.expected_by_date obj =
    Date (year (ReminderCreate.reminder_month rem))
         (month (ReminderCreate.reminder_month rem)) 7.
Proof.
  destruct rem as [c [y m d] n]. unfold valid_date, create_reminder, date_new,
    valid_date. simpl. intros V.
  assert (((1 <=? y) && (y <=? 9999) && (1 <=? m) && (m <=? 12)) = true) as -> by lia.
  assert ((7 <=? days_in_month y m) = true) as ->.
  { unfold days_in_month.
    repeat match goal with |- context [if ?b then _ else _] => destruct b end; lia. }
  simpl. eauto.
Qed.

(** C2.  For the reminder month 2025-06 the monthly batch and the
    unmounted sibling endpoint set [expected_by_date] to 2025-07-07; the
    mounted endpoint [create_reminder] sets it to 2025-06-07. *)
Theorem create_reminder_expected_by_june :
  let rem := ReminderCreate.mk 1 (Date 2025 6 1) 5 in
  let db0 := mkDB [Company.mk 1 "Acme" true] [] [] [] [] in
  Reminder.expected_by_date <$> reminders (create_monthly_reminders (Date 2025 6 1) db0)
    = [Date 2025 7 7] /\
  Reminder.expected_by_date <$> reminders (routers_reminder.create_reminder rem db0).1
    = [Date 2025 7 7] /\
  Reminder.expected_by_date <$> reminders (create_reminder rem db0).1
    = [Date 2025 6 7].
Proof. vm_compute. done. Qed.

(** ** C9: the sanitiser *)

Section SanitizeFacts.
Context `{UnicodeLaws}.

Lemma is_word_underscore : is_word underscore = true.
Proof. unfold is_word. by rewrite N.eqb_refl, orb_true_r. Qed.

(** A word character is not replaced by the second substitution. *)
Lemma is_word_not_sep c : is_word c = true -> is_space_or_hyphen c = false.
Proof.
  unfold is_word, is_space_or_hyphen. intros W.
  apply orb_true_iff in W as [A|U].
  - rewrite (alnum_not_space c A). simpl.
    apply N.eqb_neq. intros ->. pose proof hyphen_not_alnum. congruence.
  - apply N.eqb_eq in U as ->. by rewrite underscore_not_space.
Qed.

Lemma elem_of_remove_special c s :
  c ∈ remove_special s ->
  c ∈ s /\ (is_word c = true \/ is_space_or_hyphen c = true).
Proof.
  unfold remove_special. rewrite list_elem_of_filter.
  intros [P I]. split; [done|].
  apply Is_true_true in P. by apply orb_true_iff.
Qed.

Lemma elem_of_collapse_runs c b s :
  c ∈ collapse_runs b s ->
  (c ∈ s /\ is_space_or_hyphen c = false) \/ c = underscore.
Proof.
  revert b. induction s as [|a s IH]; intros b; simpl.
  - by intros ?%elem_of_nil.
  - destruct (is_space_or_hyphen a) eqn:E.
    + destruct b.
      * intros I. destruct (IH _ I) as [[I' N]|U]; [left|by right].
        split; [by apply list_elem_of_further|done].
      * intros [->|I]%elem_of_cons; [by right|].
        destruct (IH _ I) as [[I' N]|U]; [left|by right].
        split; [by apply list_elem_of_further|done].
    + intros [->|I]%elem_of_cons.
      * left. split; [apply list_elem_of_here|done].
      * destruct (IH _ I) as [[I' N]|U]; [left|by right].
        split; [by apply list_elem_of_further|done].
Qed.

Lemma elem_of_lstrip_underscore c s : c ∈ lstrip_underscore s -> c ∈ s.
Proof.
  induction s as [|a s IH]; simpl; [done|].
  destruct (a =? underscore)%N; [|done].
  intros I. by apply list_elem_of_further, IH.
Qed.

Lemma elem_of_strip_underscore c s : c ∈ strip_underscore s -> c ∈ s.
Proof.
  unfold strip_underscore. rewrite elem_of_reverse.
  intros I%elem_of_lstrip_underscore. rewrite elem_of_reverse in I.
  by apply elem_of_lstrip_underscore.
Qed.

(** The characters of a sanitised name: word characters taken from the
    lowered input, or underscores. *)
Lemma elem_of_sanitize c x :
  c ∈ sanitize_company_name x ->
  is_word c = true /\ (c ∈ lower x \/ c = underscore).
Proof.
  unfold sanitize_company_name. intros I%elem_of_strip_underscore.
  apply elem_of_collapse_runs in I as [[I N]| ->].
  - apply elem_of_remove_special in I as [I [W|S]]; [|congruence].
    split; [done|by left].
  - split; [apply is_word_underscore|by right].
Qed.

Lemma remove_special_words s :
  (forall c, c ∈ s -> is_word c = true) -> remove_special s = s.
Proof.
  intros W. unfold remove_special. induction s as [|a s IH]; [done|].
  rewrite filter_cons. destruct (decide _) as [|n].
  - f_equal. apply IH. intros c I. apply W. by apply list_elem_of_further.
  - destruct n. rewrite (W a); [done|apply list_elem_of_here].
Qed.

Lemma collapse_runs_words s :
  (forall c, c ∈ s -> is_word c = true) -> collapse_runs false s = s.
Proof.
  intros W. induction s as [|a s IH]; [done|]. simpl.
  rewrite is_word_not_sep; [|apply W, list_elem_of_here].
  f_equal. apply IH. intros c I. apply W. by apply list_elem_of_further.
Qed.

Lemma lstrip_clean_head s : clean_head (lstrip_underscore s).
Proof.
  induction s as [|a s IH]; simpl; [done|].
  destruct (a =? underscore)%N eqn:E; [done|]. simpl. by apply N.eqb_neq.
Qed.

Lemma lstrip_fixed s : clean_head s -> lstrip_underscore s = s.
Proof.
  destruct s as [|a s]; simpl; [done|].
  intros N%N.eqb_neq. by rewrite N.
Qed.

Lemma lstrip_suffix s : exists p, s = p ++ lstrip_underscore s.
Proof.
  induction s as [|a s [p IH]]; simpl; [by exists []|].
  destruct (a =? underscore)%N.
  - exists (a :: p). simpl. by f_equal.
  - by exists [].
Qed.

Lemma lstrip_clean_last s :
  clean_head (reverse s) -> clean_head (reverse (lstrip_underscore s)).
Proof.
  destruct (lstrip_suffix s) as [p E].
  destruct (lstrip_underscore s) as [|a t] eqn:L; [done|].
  rewrite E at 1. rewrite reverse_app.
  destruct (reverse (a :: t)) as [|b u] eqn:R; [|done].
  apply (f_equal length) in R. rewrite length_reverse in R. done.
Qed.

Lemma strip_clean s :
  clean_head (strip_underscore s) /\ clean_head (reverse (strip_underscore s)).
Proof.
  unfold strip_underscore. split.
  - apply lstrip_clean_last. rewrite reverse_involutive. apply lstrip_clean_head.
  - rewrite reverse_involutive. apply lstrip_clean_head.
Qed.

Lemma strip_fixed s :
  clean_head s -> clean_head (reverse s) -> strip_underscore s = s.
Proof.
  intros A B. unfold strip_underscore.
  by rewrite (lstrip_fixed s A), (lstrip_fixed _ B), reverse_involutive.
Qed.

(** C9.  [sanitize_company_name] is idempotent, and as a function of its
    argument alone it gives equal results on equal inputs; this for
    every character database that satisfies [UnicodeLaws]. *)
Theorem sanitize_company_name_idempotent_deterministic :
  (forall x : str,
      sanitize_company_name (sanitize_company_name x) = sanitize_company_name x) /\
  (forall x y : str, x = y -> sanitize_company_name x = sanitize_company_name y).
Proof.
  split; [|by intros x y ->].
  intros x.
  assert (forall c, c ∈ sanitize_company_name x -> is_word c = true) as W.
  { intros c I. by apply elem_of_sanitize in I as [? _]. }
  assert (lower (sanitize_company_name x) = sanitize_company_name x) as L.
  { apply (lower_stable x). intros c I. by apply elem_of_sanitize in I as [_ ?]. }
  unfold sanitize_company_name at 1. rewrite L.
  rewrite (remove_special_words _ W), (collapse_runs_words _ W).
  apply strip_fixed; apply strip_clean.
Qed.
End SanitizeFacts.

(** The ASCII tables satisfy the laws. *)
Lemma ascii_laws : @UnicodeLaws ascii_data.
Proof.
  split.
  - intros c. simpl. unfold between.
    rewrite !orb_true_iff, !andb_true_iff, !orb_false_iff, !andb_false_iff.
    rewrite !N.leb_le, !N.leb_gt, N.eqb_neq. lia.
  - done.
  - done.
  - intros s t I. simpl. simpl in I.
    induction t as [|a t IH]; [done|]. simpl. f_equal.
    + destruct (I a) as [M| ->]; [apply list_elem_of_here| |done].
      apply list_elem_of_fmap in M as (b & -> & _).
      unfold between. destruct ((65 <=? b)%N && (b <=? 90)%N) eqn:E.
      * assert (((65 <=? b + 32)%N && (b + 32 <=? 90)%N) = false) as ->; [|done].
        apply andb_true_iff in E as [E%N.leb_le _].
        apply andb_false_iff. right. apply N.leb_gt. lia.
      * by rewrite E.
    + apply IH. intros c Hc. apply I. by apply list_elem_of_further.
Qed.

Lemma sanitize_company_name_idempotent_deterministic_witness :
  sanitize_company_name (sanitize_company_name (codepoints "ACME & Co. Ltd."))
  = sanitize_company_name (codepoints "ACME & Co. Ltd.").
Proof.
  exact (proj1 (@sanitize_company_name_idempotent_deterministic ascii_data ascii_laws)
               (codepoints "ACME & Co. Ltd.")).
Defined.

(** The example of the specification: lower case, underscores, no
    punctuation. *)
Example sanitize_acme :
  sanitize_company_name (codepoints "ACME & Co. Ltd.") = codepoints "acme_co_ltd".
Proof. vm_compute. done. Qed.

(** ** C6: failures of the classification adapter *)

(** Every failure ends in the handlers of [_call_perplexity_api]. *)
Lemma _call_perplexity_api_fails S prompt :
  classification_fails S prompt -> _call_perplexity_api S prompt = None.
Proof.
  unfold _call_perplexity_api, raise_for_status.
  intros [[e ->]|[(st & c & -> & F)|[[st ->]|(st & c & -> & U)]]].
  - done.
  - by rewrite F.
  - by destruct (is_success st).
  - destruct (is_success st); [|done]. simpl.
    destruct (negb (str_find c "{" =? -1) && (str_find c "{" <? str_rfind c "}" + 1))
      eqn:B; [|done].
    apply andb_true_iff in B as [B1%negb_true_iff%Z.eqb_neq B2%Z.ltb_lt].
    destruct U as [U|[U|[[e U]|U]]]; [lia|lia| |].
    + rewrite U. simpl. by destruct e.
    + destruct (json_loads S _) as [d|e] eqn:J; [by apply U in J|].
      simpl. by destruct e.
Qed.

Lemma classify_email_fails S email_record :
  classification_fails S
    (_create_classification_prompt (Email.subject email_record)
       (Email.body email_record) (Email.sender email_record)) ->
  classify_email S email_record = Return (email_record, false).
Proof.
  intros F. unfold classify_email. by rewrite (_call_perplexity_api_fails _ _ F).
Qed.

(** C6.  When the request times out or fails otherwise, when the status
    is not a success, or when the response holds no text that
    [json.loads] accepts as an object, [classify_email] returns [False]
    (its result is a value: every exception raised inside is handled) and
    leaves the record as it was: [ai_classified] and the classification
    fields keep their values, unset if they were, and an unclassified
    record stays in the selection of [classify_all_unclassified_emails]. *)
Theorem classify_email_failure S email_record :
  classification_fails S
    (_create_classification_prompt (Email.subject email_record)
       (Email.body email_record) (Email.sender email_record)) ->
  exists result,
  classify_email S email_record = Return result /\
  result.2 = false /\
  result.1 = email_record /\
  (Email.ai_classified email_record = false ->
   Email.primary_category email_record = None ->
   Email.sub_category email_record = None ->
   Email.data_month email_record = None ->
   Email.data_year email_record = None ->
   Email.ai_classified result.1 = false /\
   Email.primary_category result.1 = None /\
   Email.sub_category result.1 = None /\
   Email.data_month result.1 = None /\
   Email.data_year result.1 = None) /\
  (forall db, email_record ∈ unclassified_emails db ->
              result.1 ∈ unclassified_emails db).
Proof.
  intros F. exists (email_record, false).
  split; [exact (classify_email_fails _ _ F)|]. simpl.
  repeat split; done.
Qed.

Lemma classify_email_failure_witness :
  exists result,
    classify_email timeout_services fresh_email = Return result /\
    result.2 = false /\
    result.1 = fresh_email.
Proof.
  destruct (classify_email_failure timeout_services fresh_email)
    as (result & C & R & E & _).
  - left. exists TimeoutException. reflexivity.
  - exists result. split; [exact C|]. split; [exact R|exact E].
Defined.

(** A reply without braces, and a reply whose braces enclose no JSON. *)
Example classify_email_no_json :
  let S text := mkServices (now timeout_services) (timestamp timeout_services)
                  (gmail_get timeout_services) (gmail_attachment timeout_services)
                  (b64decode_utf8 timeout_services) (write_file timeout_services)
                  (fun _ => Reply 200 (Some text)) (json_loads answering_services)
                  lower_ascii typed_columns in
  classify_email (S "I cannot classify this."%string) fresh_email
    = Return (fresh_email, false) /\
  classify_email (S "} so { what"%string) fresh_email = Return (fresh_email, false) /\
  classify_email (S "{not json}"%string) fresh_email = Return (fresh_email, false).
Proof. vm_compute. done. Qed.

(** A reply that carries a JSON object is classified: the adapter keeps
    the text from the first opening brace to the last closing brace. *)
Example classify_email_success :
  exists e,
    classify_email answering_services fresh_email = Return (e, true) /\
    Email.ai_classified e = true /\
    Email.primary_category e = Some "GST"%string /\
    Email.data_month e = Some 6 /\ Email.data_year e = Some 2025.
Proof. eexists. split; [vm_compute; reflexivity|]. done. Qed.

(** A month written as text is stored by a database that converts it;
    an answer the database refuses makes [classify_email] raise. *)
Example classify_email_text_month :
  exists e,
    classify_email text_month_services fresh_email = Return (e, true) /\
    Email.data_month e = Some 6.
Proof. eexists. split; [vm_compute; reflexivity|]. done. Qed.

Example classify_email_refused :
  classify_email refused_services fresh_email = Raise MissingGreenlet.
Proof. vm_compute. done. Qed.

(** ** C8: body extraction *)

Lemma first_plain_part_passed_over S before rest :
  Forall passed_over before ->
  first_plain_part S (before ++ rest) = first_plain_part S rest.
Proof.
  induction 1 as [|p before (mime & M & P) _ IH]; [done|].
  simpl. rewrite M. simpl.
  destruct P as [N|(b & B & D)].
  - apply String.eqb_neq in N. by rewrite N.
  - destruct (String.eqb mime "text/plain"); [|done].
    rewrite B. simpl. by rewrite D.
Qed.

Lemma first_plain_part_aborts S part rest :
  aborts part -> exists e, first_plain_part S (part :: rest) = Raise e.
Proof.
  intros [M|[M B]]; simpl; rewrite M; simpl; [by eexists|].
  rewrite B. simpl. by eexists.
Qed.

(** The loop over the direct parts ends in one of three ways. *)
Lemma direct_parts_cases parts :
  Forall passed_over parts \/
  exists before part after,
    parts = before ++ part :: after /\
    Forall passed_over before /\
    (aborts part \/
     exists b data,
       Part.mimeType part = Some "text/plain"%string /\
       Part.body part = Some b /\
       PartBody.data b = Some data).
Proof.
  induction parts as [|p parts IH]; [by left|].
  assert (passed_over p ->
          Forall passed_over (p :: parts) \/
          exists before part after,
            p :: parts = before ++ part :: after /\
            Forall passed_over before /\
            (aborts part \/
             exists b data,
               Part.mimeType part = Some "text/plain"%string /\
               Part.body part = Some b /\
               PartBody.data b = Some data)) as Over.
  { intros P. destruct IH as [F|(before & part & after & -> & F & C)].
    - left. by constructor.
    - right. exists (p :: before), part, after. split; [done|].
      split; [by constructor|done]. }
  destruct (Part.mimeType p) as [mime|] eqn:M.
  - destruct (String.eqb_spec mime "text/plain") as [->|N].
    + destruct (Part.body p) as [b|] eqn:B.
      * destruct (PartBody.data b) as [data|] eqn:D.
        -- right. exists [], p, parts. split; [done|]. split; [constructor|].
           right. by exists b, data.
        -- apply Over. exists "text/plain"%string. split; [done|].
           right. by exists b.
      * right. exists [], p, parts. split; [done|]. split; [constructor|].
        left. right. by split.
    + apply Over. exists mime. split; [done|]. by left.
  - right. exists [], p, parts. split; [done|]. split; [constructor|].
    left. by left.
Qed.

(** C8 as amended.  [_extract_body] reads the parts directly under the
    payload, in their order, and nothing below them.  When the payload
    has parts, the loop passes over the parts that have a type other
    than [text/plain] or a body without data; the result is the decoded
    data of the first direct part of type [text/plain] whose body
    carries data (the empty string if it cannot be decoded), provided
    every part before it is passed over; it is the empty string when
    every direct part is passed over, and also when the loop comes first
    to a part without type or to a [text/plain] part without body,
    whatever follows; every list of parts is in one of these three
    cases.  When the payload has no parts, the result is its own decoded
    data if it is of type [text/plain] and carries data, and the empty
    string otherwise. *)
Theorem _extract_body_direct_parts S payload :
  (forall parts, Part.parts payload = Some parts ->
     (Forall passed_over parts -> _extract_body S payload = ""%string) /\
     (forall before part after b data,
         parts = before ++ part :: after ->
         Forall passed_over before ->
         Part.mimeType part = Some "text/plain"%string ->
         Part.body part = Some b ->
         PartBody.data b = Some data ->
         _extract_body S payload =
         try_except (b64decode_utf8 S data) (fun _ => ""%string)) /\
     (forall before part after,
         parts = before ++ part :: after ->
         Forall passed_over before ->
         aborts part ->
         _extract_body S payload = ""%string) /\
     (Forall passed_over parts \/
      exists before part after,
        parts = before ++ part :: after /\
        Forall passed_over before /\
        (aborts part \/
         exists b data,
           Part.mimeType part = Some "text/plain"%string /\
           Part.body part = Some b /\
           PartBody.data b = Some data))) /\
  (Part.parts payload = None ->
     (forall b data,
         Part.mimeType payload = Some "text/plain"%string ->
         Part.body payload = Some b ->
         PartBody.data b = Some data ->
         _extract_body S payload =
         try_except (b64decode_utf8 S data) (fun _ => ""%string)) /\
     ((Part.mimeType payload <> Some "text/plain"%string \/
       Part.body payload ≫= PartBody.data = None) ->
      _extract_body S payload = ""%string)).
Proof.
  split.
  - intros parts P. unfold _extract_body. rewrite P.
    split; [|split; [|split]].
    + intros F. rewrite <- (app_nil_r parts).
      by rewrite first_plain_part_passed_over.
    + intros before part after b data -> F M B D.
      rewrite first_plain_part_passed_over by done.
      simpl. rewrite M. simpl. rewrite B. simpl. by rewrite D.
    + intros before part after -> F A.
      rewrite first_plain_part_passed_over by done.
      by destruct (first_plain_part_aborts S part after A) as [e ->].
    + apply direct_parts_cases.
  - intros P. unfold _extract_body. rewrite P. split.
    + intros b data M B D. rewrite M, B. simpl. destruct b as [d a].
      simpl in D. by rewrite D.
    + intros [N|N].
      * destruct (Part.mimeType payload) as [mime|]; [|done]. simpl.
        destruct (String.eqb mime "text/plain") eqn:E; [|done].
        apply String.eqb_eq in E. congruence.
      * destruct (Part.mimeType payload) as [mime|]; [|done]. simpl.
        destruct (String.eqb mime "text/plain"); [|done].
        destruct (Part.body payload) as [[[d|] a]|]; done.
Qed.

Lemma _extract_body_direct_parts_witness :
  _extract_body timeout_services (Message.payload sample_message) = "hello"%string.
Proof.
  refine (proj1 (proj2 (proj1 (_extract_body_direct_parts timeout_services
                                 (Message.payload sample_message)) _ eq_refl))
                [Part.mk (Some "text/html") (Some "")
                         (Some (PartBody.mk (Some "PGI+") None)) None]%string
                _ _ _ _ eq_refl _ eq_refl eq_refl eq_refl).
  constructor; [|constructor].
  exists "text/html"%string. split; [reflexivity|]. left. discriminate.
Defined.

(** A part without type before the text: the loop breaks off and the
    text that follows is not read. *)
Example _extract_body_breaks_off :
  _extract_body timeout_services
    (Part.mk (Some "multipart/mixed") None None
       (Some [Part.mk None None None None;
              Part.mk (Some "text/plain") (Some "")
                      (Some (PartBody.mk (Some "aGVsbG8=") None)) None]))%string
  = ""%string.
Proof. vm_compute. done. Qed.

(** On [nested_payload] the first [text/plain] leaf in breadth-first
    order is the nested text part; [_extract_body] does not reach it and
    returns the empty string. *)
Lemma _extract_body_misses_nested_leaf :
  spec_extract_body timeout_services nested_payload = "hello"%string /\
  _extract_body timeout_services nested_payload = ""%string /\
  _extract_body timeout_services nested_payload
    <> spec_extract_body timeout_services nested_payload.
Proof. vm_compute. repeat split; discriminate. Qed.

(** ** C4 and C5: the ingestion controller *)

Lemma fresh_id_gt ids x : x ∈ ids -> x < fresh_id ids.
Proof.
  unfold fresh_id. induction ids as [|y ids IH]; simpl.
  - by intros ?%elem_of_nil.
  - intros [->|I]%elem_of_cons; [lia|]. specialize (IH I). lia.
Qed.

Lemma update_email_last email_id f es e :
  (forall e', e' ∈ es -> Email.id e' <> email_id) ->
  Email.id e = email_id ->
  update_email email_id f (es ++ [e]) = es ++ [f e].
Proof.
  intros N I. induction es as [|e' es IH]; simpl.
  - apply Z.eqb_eq in I. by rewrite I.
  - destruct (Email.id e' =? email_id) eqn:E.
    + apply Z.eqb_eq in E. destruct (N e'); [apply list_elem_of_here|done].
    + f_equal. apply IH. intros e'' I'. apply N. by apply list_elem_of_further.
Qed.

Lemma message_exists_stored db message_id :
  message_exists db message_id = true <-> stored_emails message_id db <> [].
Proof.
  unfold message_exists, stored_emails. rewrite bool_decide_eq_true.
  by destruct (filter _ (emails db)).
Qed.

Lemma message_exists_not_stored db message_id :
  message_exists db message_id = false <-> stored_emails message_id db = [].
Proof.
  unfold message_exists, stored_emails. rewrite bool_decide_eq_false.
  destruct (filter _ (emails db)); simpl; [|split; [intros []|]; done].
  split; [done|]. intros _ N. by apply N.
Qed.

Lemma _save_attachment_emails S message part email_record st :
  emails (store (_save_attachment S message part email_record st)) = emails (store st).
Proof.
  unfold _save_attachment. destruct (Part.body part); [|done].
  destruct (negb _); [done|].
  by destruct (_ ≫= _) as [[w r]|].
Qed.

Lemma _save_attachment_attachments S message part email_record st a :
  a ∈ attachments (store st) ->
  a ∈ attachments (store (_save_attachment S message part email_record st)).
Proof.
  unfold _save_attachment. destruct (Part.body part); [|done].
  destruct (negb _); [done|].
  destruct (_ ≫= _) as [[w r]|]; simpl; [|done].
  intros I. apply elem_of_app. by left.
Qed.

Lemma _process_attachments_emails S message email_record st :
  emails (store (_process_attachments S message email_record st)) = emails (store st).
Proof.
  unfold _process_attachments. destruct (Part.parts _) as [parts|]; [|done].
  revert st. induction parts as [|p parts IH]; intros st; simpl; [done|].
  rewrite IH. destruct (truthy_str _); [|done]. apply _save_attachment_emails.
Qed.

Lemma foldl_save_attachments S message email_record parts st a :
  a ∈ attachments (store st) ->
  a ∈ attachments (store
         (foldl (fun st part =>
                   if truthy_str (Part.filename part)
                   then _save_attachment S message part email_record st
                   else st) st parts)).
Proof.
  revert st. induction parts as [|p parts IH]; intros st I; simpl; [done|].
  apply IH. destruct (truthy_str _); [|done].
  by apply _save_attachment_attachments.
Qed.

(** A named part whose download and write succeed gets its row, also
    when the record carries no classification; the file is then written
    under [temp]. *)
Lemma _save_attachment_saves S message part email_record st
    filename body attachment_id file_data :
  Email.primary_category email_record = None ->
  Part.filename part = Some filename ->
  Part.body part = Some body ->
  PartBody.attachmentId body = Some attachment_id ->
  attachment_id <> ""%string ->
  gmail_attachment S (Message.id message) attachment_id = Return file_data ->
  (forall p, write_file S p = Return tt) ->
  exists a,
    a ∈ attachments (store (_save_attachment S message part email_record st)) /\
    Attachment.email_id a = Email.id email_record /\
    Attachment.file_name a = filename /\
    Attachment.file_size a = Z.of_nat (length file_data) /\
    is_temp (Attachment.file_path_ a) = true.
Proof.
  intros C F B A N G W. unfold _save_attachment. rewrite B, A. simpl.
  apply String.eqb_neq in N. rewrite N. simpl. rewrite G. simpl.
  unfold store_attachment. rewrite F, C. simpl.
  destruct (Email.company_id email_record ≫= _); simpl; rewrite W; simpl;
    (eexists; split; [apply elem_of_app; right; apply list_elem_of_here|done]).
Qed.

Lemma foldl_save_attachments_saves S message email_record parts st part
    filename body attachment_id file_data :
  part ∈ parts ->
  Email.primary_category email_record = None ->
  Part.filename part = Some filename ->
  filename <> ""%string ->
  Part.body part = Some body ->
  PartBody.attachmentId body = Some attachment_id ->
  attachment_id <> ""%string ->
  gmail_attachment S (Message.id message) attachment_id = Return file_data ->
  (forall p, write_file S p = Return tt) ->
  exists a,
    a ∈ attachments (store
           (foldl (fun st part =>
                     if truthy_str (Part.filename part)
                     then _save_attachment S message part email_record st
                     else st) st parts)) /\
    Attachment.email_id a = Email.id email_record /\
    Attachment.file_name a = filename /\
    Attachment.file_size a = Z.of_nat (length file_data) /\
    is_temp (Attachment.file_path_ a) = true.
Proof.
  intros I C F NF B A N G W. revert st.
  induction parts as [|p parts IH]; intros st; [by apply elem_of_nil in I|].
  apply elem_of_cons in I as [<-|I]; simpl.
  - rewrite F. simpl. apply String.eqb_neq in NF. rewrite NF. simpl.
    destruct (_save_attachment_saves S message part email_record st
                filename body attachment_id file_data) as (a & Ia & Ha); try done.
    exists a. split; [|done]. by apply foldl_save_attachments.
  - by apply IH.
Qed.

(** The calls of Gmail made for the attachments stay in the log. *)
Lemma _save_attachment_log S message part email_record st c :
  c ∈ api_log st ->
  c ∈ api_log (_save_attachment S message part email_record st).
Proof.
  unfold _save_attachment. destruct (Part.body part); [|done].
  destruct (negb _); [done|]. intros I.
  destruct (_ ≫= _) as [[w r]|]; simpl; apply elem_of_app; by left.
Qed.

Lemma foldl_save_attachments_log S message email_record parts st c :
  c ∈ api_log st ->
  c ∈ api_log
        (foldl (fun st part =>
                  if truthy_str (Part.filename part)
                  then _save_attachment S message part email_record st
                  else st) st parts).
Proof.
  revert st. induction parts as [|p parts IH]; intros st I; simpl; [done|].
  apply IH. destruct (truthy_str _); [|done]. by apply _save_attachment_log.
Qed.

Lemma foldl_save_attachments_downloads S message email_record parts st part
    filename body attachment_id :
  part ∈ parts ->
  Part.filename part = Some filename ->
  filename <> ""%string ->
  Part.body part = Some body ->
  PartBody.attachmentId body = Some attachment_id ->
  attachment_id <> ""%string ->
  GmailAttachmentGet (Message.id message) attachment_id ∈
    api_log
      (foldl (fun st part =>
                if truthy_str (Part.filename part)
                then _save_attachment S message part email_record st
                else st) st parts).
Proof.
  intros I F NF B A N. revert st.
  induction parts as [|p parts IH]; intros st; [by apply elem_of_nil in I|].
  apply elem_of_cons in I as [<-|I]; simpl; [|by apply IH].
  rewrite F. simpl. apply String.eqb_neq in NF. rewrite NF. simpl.
  apply foldl_save_attachments_log.
  unfold _save_attachment. rewrite B, A. simpl.
  apply String.eqb_neq in N. rewrite N. simpl.
  destruct (_ ≫= _) as [[w r]|]; simpl;
    apply elem_of_app; right; apply list_elem_of_here.
Qed.

(** What [classify_email] keeps of the record it returns. *)
Lemma classify_email_keeps S e e' ok :
  classify_email S e = Return (e', ok) ->
  Email.id e' = Email.id e /\
  Email.message_id e' = Email.message_id e /\
  Email.company_id e' = Email.company_id e /\
  Email.is_processed e' = Email.is_processed e.
Proof.
  unfold classify_email.
  destruct (_call_perplexity_api _ _) as [d|]; [|by intros [= <- <-]].
  destruct (bool_decide _); [by intros [= <- <-]|].
  unfold _update_email_classification.
  destruct (db_update_classification S _ _ _ _) as [[[[pc sc] dm] dy]|];
    simpl; [|done].
  by intros [= <- <-].
Qed.

Lemma stored_record_keeps S e :
  Email.id (stored_record S e) = Email.id e /\
  Email.message_id (stored_record S e) = Email.message_id e /\
  Email.company_id (stored_record S e) = Email.company_id e.
Proof.
  unfold stored_record. destruct (classify_email S e) as [[e' ok]|] eqn:C; [|done].
  by destruct (classify_email_keeps S e e' ok C) as (? & ? & ? & _).
Qed.

(** [classify_email] raises exactly when the service gave a dictionary
    and the database refuses the commit of its values. *)
Lemma classify_email_raises S email_record :
  (exists e, classify_email S email_record = Raise e) <->
  exists d e,
    _call_perplexity_api S
      (_create_classification_prompt (Email.subject email_record)
         (Email.body email_record) (Email.sender email_record)) = Some d /\
    d <> ∅ /\
    db_update_classification S
      (dict_get d "primary_category") (dict_get d "sub_category")
      (dict_get d "data_month") (dict_get d "data_year") = Raise e.
Proof.
  unfold classify_email, _update_email_classification. split.
  - intros [e C]. destruct (_call_perplexity_api _ _) as [d|]; [|done].
    destruct (bool_decide (d = ∅)) eqn:B; [done|].
    apply bool_decide_eq_false in B.
    destruct (db_update_classification S _ _ _ _) as [[[[pc sc] dm] dy]|e'] eqn:U;
      [done|].
    by exists d, e'.
  - intros (d & e & -> & N & U). rewrite U. simpl.
    destruct (bool_decide (d = ∅)) eqn:B; [|by eexists].
    by apply bool_decide_eq_true in B.
Qed.

(** The state a new message leaves behind, step by step. *)
Lemma _process_email_new S message_id sender_email st message :
  stored_emails message_id (store st) = [] ->
  gmail_get S message_id = Return message ->
  let email_record := new_email_record S message_id sender_email message (store st) in
  let added :=
    with_store (with_emails (emails (store st) ++ [email_record]) (store st))
               (log_call (GmailGet message_id) st) in
  let after := _process_attachments S message email_record added in
  let st1 := _process_email S message_id sender_email st in
  emails (store st1) = emails (store st) ++ [stored_record S email_record] /\
  attachments (store st1) = attachments (store after) /\
  disk st1 = disk after /\
  api_log st1 =
    api_log after ++
    [PerplexityPost (_create_classification_prompt (Email.subject email_record)
                       (Email.body email_record) (Email.sender email_record))].
Proof.
  intros E G email_record added after st1.
  apply message_exists_not_stored in E.
  unfold st1, _process_email. rewrite E. simpl. rewrite G.
  fold (new_email_record S message_id sender_email message (store st)).
  fold email_record. fold added. fold after. unfold stored_record.
  destruct (classify_email S email_record) as [[classified ok]|e] eqn:C; simpl.
  - split; [|done].
    unfold after. rewrite _process_attachments_emails. simpl.
    destruct (classify_email_keeps S email_record classified ok C) as (I & _).
    rewrite update_email_last; [done| |done].
    intros e' I'. simpl. rewrite I. simpl.
    assert (Email.id e' < fresh_id (Email.id <$> emails (store st))); [|lia].
    apply fresh_id_gt, list_elem_of_fmap. eauto.
  - split; [|done]. unfold after. by rewrite _process_attachments_emails.
Qed.

Lemma _process_email_stored S message_id sender_email st :
  stored_emails message_id (store st) <> [] ->
  _process_email S message_id sender_email st = st.
Proof.
  intros E%message_exists_stored. unfold _process_email. by rewrite E.
Qed.

Lemma stored_emails_new S message_id sender_email st message :
  stored_emails message_id (store st) = [] ->
  gmail_get S message_id = Return message ->
  stored_emails message_id (store (_process_email S message_id sender_email st)) =
  [stored_record S (new_email_record S message_id sender_email message (store st))].
Proof.
  intros E G.
  destruct (_process_email_new S message_id sender_email st message E G) as (Em & _).
  unfold stored_emails in *. rewrite Em, filter_app, E. simpl.
  rewrite filter_cons, filter_nil. destruct (decide _) as [|n]; [done|].
  destruct n.
  destruct (stored_record_keeps S
              (new_email_record S message_id sender_email message (store st)))
    as (_ & K & _).
  rewrite K. simpl. apply Is_true_true, String.eqb_refl.
Qed.

Lemma stored_emails_fetch_failed S message_id sender_email st e :
  stored_emails message_id (store st) = [] ->
  gmail_get S message_id = Raise e ->
  _process_email S message_id sender_email st = log_call (GmailGet message_id) st.
Proof.
  intros E%message_exists_not_stored G. unfold _process_email. by rewrite E, G.
Qed.

(** C4.  A message identifier that is stored makes [_process_email]
    return the state it was given: no row, no attachment, no file and no
    call to Gmail or to the classification service is added.  For an
    identifier that is not stored yet, two processings in a row leave at
    most one row for it; when the first fetch succeeds there is exactly
    one row after the first processing, and the second processing changes
    nothing. *)
Theorem _process_email_twice S1 S2 message_id sender1 sender2 st :
  let st1 := _process_email S1 message_id sender1 st in
  let st2 := _process_email S2 message_id sender2 st1 in
  (stored_emails message_id (store st) <> [] -> st1 = st) /\
  (stored_emails message_id (store st) = [] ->
     (length (stored_emails message_id (store st2)) <= 1)%nat /\
     forall message, gmail_get S1 message_id = Return message ->
       length (stored_emails message_id (store st1)) = 1%nat /\ st2 = st1).
Proof.
  intros st1 st2. split; [apply _process_email_stored|].
  intros E.
  assert (forall message, gmail_get S1 message_id = Return message ->
            length (stored_emails message_id (store st1)) = 1%nat /\ st2 = st1) as Ok.
  { intros message G.
    pose proof (stored_emails_new S1 message_id sender1 st message E G) as N.
    fold st1 in N. split; [by rewrite N|].
    apply _process_email_stored. by rewrite N. }
  split; [|done].
  destruct (gmail_get S1 message_id) as [message|e] eqn:G1.
  - destruct (Ok message eq_refl) as [L ->]. lia.
  - assert (stored_emails message_id (store st1) = []) as E1.
    { unfold st1. rewrite (stored_emails_fetch_failed _ _ _ _ e) by done.
      exact E. }
    destruct (gmail_get S2 message_id) as [message|e'] eqn:G2.
    + unfold st2. by rewrite (stored_emails_new S2 message_id sender2 st1 message).
    + unfold st2. rewrite (stored_emails_fetch_failed _ _ _ _ e') by done.
      change (store (log_call (GmailGet message_id) st1)) with (store st1).
      rewrite E1. simpl. lia.
Qed.

Lemma _process_email_twice_witness :
  let st1 := _process_email timeout_services "m1" "a@x" mailroom in
  length (stored_emails "m1" (store st1)) = 1%nat /\
  _process_email answering_services "m1" "a@x" st1 = st1.
Proof.
  exact (proj2 (proj2 (_process_email_twice timeout_services answering_services
                         "m1" "a@x" "a@x" mailroom) eq_refl)
               sample_message eq_refl).
Defined.

(** C5.  [_process_email] does not follow the order of the
    specification.  For a new message that Gmail delivers, the
    attachments are saved first and whatever the classification does
    afterwards: every part directly under the payload that carries a file
    name and an attachment identifier, and whose download and write
    succeed, has its row in [attachments], its file under [temp], and
    its download in the log before the one request to the classification
    service, which ends the log.  The record is stored once; it is
    marked processed when [classify_email] returns, with or without a
    classification, and it is left as first committed, not processed
    and not classified, when [classify_email] raises. *)
Theorem _process_email_attachments_before_classification
    S message_id sender_email st message :
  stored_emails message_id (store st) = [] ->
  gmail_get S message_id = Return message ->
  let email_record := new_email_record S message_id sender_email message (store st) in
  let prompt :=
    _create_classification_prompt (Email.subject email_record)
      (Email.body email_record) (Email.sender email_record) in
  let st1 := _process_email S message_id sender_email st in
  (exists calls,
      api_log st1 = calls ++ [PerplexityPost prompt] /\
      forall parts part filename body attachment_id file_data,
        Part.parts (Message.payload message) = Some parts ->
        part ∈ parts ->
        Part.filename part = Some filename ->
        filename <> ""%string ->
        Part.body part = Some body ->
        PartBody.attachmentId body = Some attachment_id ->
        attachment_id <> ""%string ->
        gmail_attachment S (Message.id message) attachment_id = Return file_data ->
        (forall p, write_file S p = Return tt) ->
        GmailAttachmentGet (Message.id message) attachment_id ∈ calls /\
        exists a,
          a ∈ attachments (store st1) /\
          Attachment.email_id a = Email.id email_record /\
          Attachment.file_name a = filename /\
          Attachment.file_size a = Z.of_nat (length file_data) /\
          is_temp (Attachment.file_path_ a) = true) /\
  (forall classified ok,
      classify_email S email_record = Return (classified, ok) ->
      stored_emails message_id (store st1) =
        [Email.with_is_processed true classified]) /\
  (forall e,
      classify_email S email_record = Raise e ->
      stored_emails message_id (store st1) = [email_record] /\
      Email.is_processed email_record = false /\
      Email.ai_classified email_record = false).
Proof.
  intros E G email_record prompt st1.
  pose proof (stored_emails_new S message_id sender_email st message E G) as N.
  destruct (_process_email_new S message_id sender_email st message E G)
    as (_ & At & _ & Log).
  fold email_record in N, At, Log. fold st1 in N, At, Log.
  split; [|split].
  - eexists. split; [exact Log|].
    intros parts part filename body attachment_id file_data P I F NF B A NA D W.
    rewrite At. unfold _process_attachments. rewrite P. split.
    + by eapply foldl_save_attachments_downloads.
    + by eapply foldl_save_attachments_saves.
  - intros classified ok C. rewrite N. unfold stored_record. by rewrite C.
  - intros e C. rewrite N. unfold stored_record. by rewrite C.
Qed.

Lemma _process_email_attachments_before_classification_witness :
  let st1 := _process_email refused_services "m1" "a@x" mailroom in
  stored_emails "m1" (store st1) =
    [new_email_record refused_services "m1" "a@x" sample_message (store mailroom)] /\
  Email.is_processed
    (new_email_record refused_services "m1" "a@x" sample_message (store mailroom))
  = false /\
  Email.ai_classified
    (new_email_record refused_services "m1" "a@x" sample_message (store mailroom))
  = false.
Proof.
  exact (proj2 (proj2 (_process_email_attachments_before_classification
                         refused_services "m1" "a@x" mailroom sample_message
                         eq_refl eq_refl))
               MissingGreenlet eq_refl).
Defined.

(** A new message whose classification fails is stored processed and
    unclassified, within reach of [classify_all_unclassified_emails]. *)
Lemma _process_email_classification_failure S message_id sender_email st message :
  stored_emails message_id (store st) = [] ->
  gmail_get S message_id = Return message ->
  (let e := new_email_record S message_id sender_email message (store st) in
   classification_fails S
     (_create_classification_prompt (Email.subject e) (Email.body e) (Email.sender e))) ->
  let st1 := _process_email S message_id sender_email st in
  exists e,
    stored_emails message_id (store st1) = [e] /\
    Email.is_processed e = true /\
    Email.ai_classified e = false /\
    Email.primary_category e = None /\
    Email.data_month e = None /\
    Email.data_year e = None /\
    e ∈ unclassified_emails (store st1).
Proof.
  intros E G F st1.
  pose proof (stored_emails_new S message_id sender_email st message E G) as N.
  destruct (_process_email_new S message_id sender_email st message E G) as (Em & _).
  fold st1 in N, Em. unfold stored_record in N, Em.
  rewrite (classify_email_fails _ _ F) in N, Em. simpl in N, Em.
  eexists. split; [exact N|]. repeat (split; [done|]).
  unfold unclassified_emails. apply list_elem_of_filter. split; [done|].
  rewrite Em. apply elem_of_app. right. apply list_elem_of_here.
Qed.

(** With a classification service that times out, the attachment of
    [sample_message] is downloaded, written and recorded all the same, and
    this before the classification is attempted. *)
Example _process_email_saves_without_classification :
  let st1 := _process_email timeout_services "m1" "a@x" mailroom in
  Email.ai_classified <$> emails (store st1) = [false] /\
  Email.is_processed <$> emails (store st1) = [true] /\
  Attachment.file_name <$> attachments (store st1) = ["gst.pdf"%string] /\
  fst <$> disk st1 = [TempPath "email_1_gst.pdf"] /\
  api_log st1 =
    [GmailGet "m1"; GmailAttachmentGet "m1" "att1";
     PerplexityPost (mkPrompt "Acme <a@x>" "GST June" "hello")].
Proof. vm_compute. done. Qed.

(** With a classification that succeeds, the attachment is under [temp]
    all the same: it was written before the category was known. *)
Example _process_email_saves_before_classification :
  let st1 := _process_email answering_services "m1" "a@x" mailroom in
  Email.primary_category <$> emails (store st1) = [Some "GST"%string] /\
  Email.is_processed <$> emails (store st1) = [true] /\
  fst <$> disk st1 = [TempPath "email_1_gst.pdf"].
Proof. vm_compute. done. Qed.

(** With an answer the database refuses, the record is left not
    processed and not classified, and its attachment is stored. *)
Example _process_email_refused_stays_unprocessed :
  let st1 := _process_email refused_services "m1" "a@x" mailroom in
  Email.is_processed <$> emails (store st1) = [false] /\
  Email.ai_classified <$> emails (store st1) = [false] /\
  Email.primary_category <$> emails (store st1) = [None] /\
  Attachment.file_name <$> attachments (store st1) = ["gst.pdf"%string].
Proof. vm_compute. done. Qed.

(** ** The reminder state machine, operation by operation *)

Lemma run_cons o ops w : run (o :: ops) w = run ops (step w o).
Proof. done. Qed.

Lemma process_rows_cons now smtp db r rest :
  process_rows now smtp db (r :: rest) =
  ((tick_row now smtp db r).1 :: (process_rows now smtp db rest).1,
   (tick_row now smtp db r).2 ++ (process_rows now smtp db rest).2).
Proof.
  simpl. unfold tick_row.
  destruct (if is_pending _ r then _ else _) as [r' log].
  by destruct (process_rows now smtp db rest).
Qed.

Lemma process_daily_reminders_rows now smtp db :
  reminders (process_daily_reminders now smtp db).1
  = (process_rows now smtp db (reminders db)).1.
Proof.
  unfold process_daily_reminders. by destruct (process_rows _ _ _ _).
Qed.

Lemma process_daily_reminders_log now smtp db :
  (process_daily_reminders now smtp db).2
  = (process_rows now smtp db (reminders db)).2.
Proof.
  unfold process_daily_reminders. by destruct (process_rows _ _ _ _).
Qed.

(** The loop over the table is the loop of the source over the rows
    selected beforehand. *)
Lemma process_daily_reminders_select_then_loop now smtp db :
  (process_daily_reminders now smtp db).2 =
  _get_pending_reminders (dt_date now) db
    ≫= (fun r => (_process_reminder now smtp db r).2).
Proof.
  rewrite process_daily_reminders_log. unfold _get_pending_reminders.
  induction (reminders db) as [|r rows IH]; [done|].
  rewrite process_rows_cons, filter_cons. simpl. unfold tick_row at 1.
  destruct (is_pending (dt_date now) r) eqn:P.
  - destruct (decide _) as [|n]; [|by destruct n].
    rewrite bind_cons. by f_equal.
  - destruct (decide _) as [i|]; [by destruct i|]. done.
Qed.

Lemma is_pending_spec today r :
  is_pending today r = true <->
  Reminder.is_active r = true /\ Reminder.manual_stop r = false /\
  Reminder.gst_received r = false /\
  Reminder.days_sent r < Reminder.max_days_to_send r /\
  date_leb (Reminder.expected_by_date r) today = true.
Proof.
  unfold is_pending. rewrite !andb_true_iff, !negb_true_iff, Z.ltb_lt. tauto.
Qed.

(** The row found by [db.get] is the only row [update_row] touches. *)
Lemma update_row_Forall (P : Reminder.t -> Prop) reminder_id f rs :
  (forall obj,
      head (filter (fun r => Reminder.id r =? reminder_id) rs) = Some obj ->
      P obj -> P (f obj)) ->
  Forall P rs -> Forall P (update_row reminder_id f rs).
Proof.
  induction rs as [|r rs IH]; simpl; [done|].
  intros Hf [Pr Prs]%Forall_cons. rewrite head_filter_id_cons in Hf.
  destruct (Reminder.id r =? reminder_id).
  - constructor; [by apply Hf|done].
  - constructor; [done|]. by apply IH.
Qed.

(** ** C1: the invariants *)

(** Whatever a selected reminder was, [_process_reminder] leaves it
    within the invariants. *)
Lemma _process_reminder_inv now smtp db r :
  is_pending (dt_date now) r = true ->
  reminder_inv (_process_reminder now smtp db r).1.
Proof.
  intros (A & M & G & D & E)%is_pending_spec.
  unfold _process_reminder, reminder_inv.
  destruct (_check_gst_received db r); [simpl; split; [lia|done]|].
  destruct (negb _); [simpl; split; [lia|split; [congruence|lia]]|].
  destruct (company_of db _) as [company|];
    [|simpl; split; [lia|split; [congruence|lia]]].
  destruct (send_gst_reminder _ _ _ _) as [[] mails];
    [|simpl; split; [lia|split; [congruence|lia]]].
  simpl. destruct (_ <=? _) eqn:L; simpl.
  - split; [lia|done].
  - split; [lia|]. split; [congruence|lia].
Qed.

Lemma tick_row_inv now smtp db r :
  reminder_inv r -> reminder_inv (tick_row now smtp db r).1.
Proof.
  intros I. unfold tick_row. destruct (is_pending _ r) eqn:P; [|done].
  by apply _process_reminder_inv.
Qed.

Lemma process_rows_inv now smtp db rows :
  Forall reminder_inv rows ->
  Forall reminder_inv (process_rows now smtp db rows).1.
Proof.
  induction 1 as [|r rows I _ IH]; [constructor|].
  rewrite process_rows_cons. simpl. constructor; [by apply tick_row_inv|done].
Qed.

Lemma create_for_companies_inv target_month cs rs rs' :
  create_for_companies target_month cs rs = Return rs' ->
  Forall reminder_inv rs -> Forall reminder_inv rs'.
Proof.
  revert rs. induction cs as [|c cs IH]; intros rs; simpl.
  - by intros [= ->].
  - destruct (has_reminder _ _ _); [apply IH|].
    destruct (_calculate_expected_date target_month) as [expected|]; [|done].
    simpl. intros C F. apply (IH _ C), Forall_app. split; [done|].
    constructor; [|constructor]. unfold reminder_inv. simpl. split; [lia|].
    split; [done|lia].
Qed.

Lemma create_monthly_reminders_inv target_month db :
  Forall reminder_inv (reminders db) ->
  Forall reminder_inv (reminders (create_monthly_reminders target_month db)).
Proof.
  intros F. unfold create_monthly_reminders.
  destruct (create_for_companies _ _ _) as [rs|] eqn:C; simpl; [|done].
  by eapply create_for_companies_inv.
Qed.

Lemma step_inv w o :
  keeps_invariants (db w) o ->
  Forall reminder_inv (reminders (db w)) ->
  Forall reminder_inv (reminders (db (step w o))).
Proof.
  intros K F. destruct o as [now smtp|m|rem|i data|i|i|es|cs ces]; simpl in *.
  - destruct (process_daily_reminders now smtp (db w)) as [db' log] eqn:T. simpl.
    replace db' with (process_daily_reminders now smtp (db w)).1 by by rewrite T.
    rewrite process_daily_reminders_rows. by apply process_rows_inv.
  - by apply create_monthly_reminders_inv.
  - unfold create_reminder. destruct (date_new _ _ _); simpl; [|done].
    apply Forall_app. split; [done|]. constructor; [|constructor].
    unfold reminder_inv. simpl. split; [lia|]. split; [done|lia].
  - unfold update_reminder. destruct (get_reminder (db w) i) as [obj|] eqn:G; [|done].
    simpl. apply update_row_Forall; [|done].
    intros obj' G' _. apply K. rewrite <- G. exact G'.
  - unfold stop. destruct (get_reminder (db w) i) as [obj|] eqn:G; [|done].
    simpl. apply update_row_Forall; [|done]. by intros [] _.
  - unfold restart. destruct (get_reminder (db w) i) as [obj|] eqn:G; [|done].
    simpl. apply update_row_Forall; [|done].
    intros obj' G' (I1 & I2 & I3).
    destruct (K obj') as [R D]; [rewrite <- G; exact G'|].
    unfold reminder_inv. destruct obj'; simpl in *. split; [lia|].
    split; [congruence|lia].
  - done.
  - done.
Qed.

(** C1 as amended.  Along every trace of daily ticks (whatever the
    dispatches do), batch creations, stops, changes of the e-mail and
    company tables, manual creations with [max_days_to_send >= 1],
    restarts of reminders whose compliance is not received and whose
    budget is not used up, and field updates that leave their row
    within the invariants, the three invariants hold of every reminder
    if they held at the start. *)
Theorem reminder_invariants_kept ops w :
  admissible keeps_invariants ops w ->
  Forall reminder_inv (reminders (db w)) ->
  Forall reminder_inv (reminders (db (run ops w))).
Proof.
  revert w. induction ops as [|o ops IH]; intros w; [done|].
  intros [K A] F. rewrite run_cons. apply IH; [done|]. by apply step_inv.
Qed.

Lemma reminder_invariants_kept_witness :
  Forall reminder_inv (reminders (db (run sample_trace acme_world))).
Proof.
  apply (reminder_invariants_kept sample_trace acme_world).
  - simpl. do 3 (split; [exact I|]).
    split.
    { intros obj G. vm_compute in G. injection G as <-. vm_compute. by split. }
    split; [lia|].
    split; [|done].
    intros obj G. vm_compute in G. injection G as <-.
    unfold reminder_inv. simpl. split; [lia|]. split; [discriminate|lia].
  - constructor.
Defined.

(** Restart after compliance, restart at the budget and a field update
    that lowers the budget each leave a reminder outside one of the
    invariants. *)
Lemma restart_and_update_break_invariants :
  (exists r,
      r ∈ reminders (db (run [SetEmails [gst_june]; CreateMonthly june;
                              Tick july_8 smtp_ok; Restart 1] acme_world)) /\
      Reminder.gst_received r = true /\ Reminder.is_active r = true) /\
  (exists r,
      r ∈ reminders (db (run [Create (ReminderCreate.mk 1 june 1);
                              Tick july_8 smtp_ok; Restart 1] acme_world)) /\
      Reminder.max_days_to_send r <= Reminder.days_sent r /\
      Reminder.is_active r = true) /\
  (exists r,
      r ∈ reminders (db (run [CreateMonthly june; Tick july_8 smtp_ok;
                              Update 1 (ReminderUpdate.mk (Some 0) None None)]
                             acme_world)) /\
      Reminder.max_days_to_send r < Reminder.days_sent r).
Proof.
  repeat split; eexists; (split; [vm_compute; apply list_elem_of_here|]);
    vm_compute; done.
Qed.

(** ** C3: one row per company and month *)

Lemma rows_for_app company_id reminder_month rs rs' :
  rows_for company_id reminder_month (rs ++ rs') =
  rows_for company_id reminder_month rs ++ rows_for company_id reminder_month rs'.
Proof. apply filter_app. Qed.

Lemma rows_for_cons company_id reminder_month r rs :
  rows_for company_id reminder_month (r :: rs) =
  if (Reminder.company_id r =? company_id) &&
     date_eqb (Reminder.reminder_month r) reminder_month
  then r :: rows_for company_id reminder_month rs
  else rows_for company_id reminder_month rs.
Proof.
  unfold rows_for. rewrite filter_cons.
  destruct (_ && _); destruct (decide _) as [i|n]; try done; by destruct n.
Qed.

(** The number of rows of a key depends on the keys of the rows only. *)
Lemma rows_for_same_keys company_id reminder_month rs rs' :
  Forall2 (fun r r' => Reminder.company_id r' = Reminder.company_id r /\
                       Reminder.reminder_month r' = Reminder.reminder_month r)
          rs rs' ->
  length (rows_for company_id reminder_month rs') =
  length (rows_for company_id reminder_month rs).
Proof.
  induction 1 as [|r r' rs rs' [E1 E2] _ IH]; [done|].
  rewrite !rows_for_cons, E1, E2. destruct (_ && _); simpl; congruence.
Qed.

Lemma update_row_same_keys reminder_id f rs :
  (forall r, Reminder.company_id (f r) = Reminder.company_id r /\
             Reminder.reminder_month (f r) = Reminder.reminder_month r) ->
  Forall2 (fun r r' => Reminder.company_id r' = Reminder.company_id r /\
                       Reminder.reminder_month r' = Reminder.reminder_month r)
          rs (update_row reminder_id f rs).
Proof.
  intros Hf. eapply Forall2_impl; [apply update_row_Forall2|].
  intros r r' [->|[_ ->]]; [done|apply Hf].
Qed.

(** A tick leaves the identifier, the key and the expected-by date of a
    row as they are. *)
Lemma tick_row_same_key now smtp db r :
  Reminder.id (tick_row now smtp db r).1 = Reminder.id r /\
  Reminder.company_id (tick_row now smtp db r).1 = Reminder.company_id r /\
  Reminder.reminder_month (tick_row now smtp db r).1 = Reminder.reminder_month r /\
  Reminder.expected_by_date (tick_row now smtp db r).1 = Reminder.expected_by_date r.
Proof.
  unfold tick_row, _process_reminder.
  repeat case_match; done.
Qed.

Lemma process_rows_same_keys now smtp db rows :
  Forall2 (fun r r' => Reminder.company_id r' = Reminder.company_id r /\
                       Reminder.reminder_month r' = Reminder.reminder_month r)
          rows (process_rows now smtp db rows).1.
Proof.
  induction rows as [|r rows IH]; [constructor|].
  rewrite process_rows_cons. simpl. constructor; [|done].
  by destruct (tick_row_same_key now smtp db r) as (_ & ? & ? & _).
Qed.

Lemma has_reminder_rows_for company_id target_month rs :
  has_reminder company_id target_month rs = false <->
  rows_for company_id target_month rs = [].
Proof.
  unfold has_reminder, rows_for. rewrite bool_decide_eq_false.
  destruct (filter _ rs); simpl; [|split; [intros []|]; done].
  split; [done|]. intros _ N. by apply N.
Qed.

Lemma has_reminder_app company_id target_month rs ext :
  has_reminder company_id target_month rs = true ->
  has_reminder company_id target_month (rs ++ ext) = true.
Proof.
  rewrite <- !not_false_iff_true, !has_reminder_rows_for, rows_for_app.
  intros N E. by apply app_eq_nil in E as [E _].
Qed.

Lemma create_for_companies_one_row target_month cs rs rs' :
  create_for_companies target_month cs rs = Return rs' ->
  one_row_per_key rs -> one_row_per_key rs'.
Proof.
  revert rs. induction cs as [|c cs IH]; intros rs; simpl.
  - by intros [= ->].
  - destruct (has_reminder _ _ _) eqn:E; [apply IH|].
    destruct (_calculate_expected_date target_month) as [expected|]; [|done].
    simpl. intros C U. apply (IH _ C). intros company_id reminder_month.
    rewrite rows_for_app, length_app, rows_for_cons. simpl.
    destruct (_ && _) eqn:K; simpl; [|specialize (U company_id reminder_month); lia].
    apply andb_true_iff in K as [<-%Z.eqb_eq <-%date_eqb_eq].
    apply has_reminder_rows_for in E. by rewrite E.
Qed.

Lemma create_for_companies_covers target_month cs rs rs' :
  create_for_companies target_month cs rs = Return rs' ->
  (exists ext, rs' = rs ++ ext) /\
  (forall c, c ∈ cs -> has_reminder (Company.id c) target_month rs' = true).
Proof.
  revert rs. induction cs as [|c cs IH]; intros rs; simpl.
  - intros [= ->]. split; [exists []; by rewrite app_nil_r|].
    by intros c ?%elem_of_nil.
  - destruct (has_reminder _ _ rs) eqn:E.
    + intros C. destruct (IH _ C) as [[ext ->] Cov]. split; [by exists ext|].
      intros c' [->|I]%elem_of_cons; [by apply has_reminder_app|by apply Cov].
    + destruct (_calculate_expected_date target_month) as [expected|]; [|done].
      simpl. intros C. destruct (IH _ C) as [[ext ->] Cov]. split.
      * eexists. by rewrite <- app_assoc.
      * intros c' [->|I]%elem_of_cons; [|by apply Cov].
        apply has_reminder_app, not_false_iff_true.
        rewrite has_reminder_rows_for, rows_for_app, rows_for_cons. simpl.
        rewrite Z.eqb_refl, date_eqb_refl. simpl.
        intros [_ ?]%app_eq_nil. done.
Qed.

Lemma create_for_companies_nothing_to_do target_month cs rs :
  (forall c, c ∈ cs -> has_reminder (Company.id c) target_month rs = true) ->
  create_for_companies target_month cs rs = Return rs.
Proof.
  induction cs as [|c cs IH]; intros Cov; simpl; [done|].
  rewrite Cov by apply list_elem_of_here.
  apply IH. intros c' I. apply Cov. by apply list_elem_of_further.
Qed.

Lemma create_monthly_reminders_idempotent target_month db :
  create_monthly_reminders target_month (create_monthly_reminders target_month db)
  = create_monthly_reminders target_month db.
Proof.
  destruct (create_for_companies target_month
              (filter (fun c => Company.is_active c) (companies db)) (reminders db))
    as [rs|e] eqn:C.
  - assert (create_monthly_reminders target_month db = with_reminders rs db) as ->.
    { unfold create_monthly_reminders. by rewrite C. }
    apply create_for_companies_covers in C as [_ Cov].
    unfold create_monthly_reminders. simpl.
    by rewrite (create_for_companies_nothing_to_do _ _ _ Cov).
  - assert (create_monthly_reminders target_month db = db) as ->.
    { unfold create_monthly_reminders. by rewrite C. }
    unfold create_monthly_reminders. by rewrite C.
Qed.

Lemma step_one_row w o :
  not_direct_creation o ->
  one_row_per_key (reminders (db w)) ->
  one_row_per_key (reminders (db (step w o))).
Proof.
  intros N U c m.
  destruct o as [now smtp|tm|rem|i data|i|i|es|cs ces]; simpl in *.
  - destruct (process_daily_reminders now smtp (db w)) as [db' log] eqn:T. simpl.
    replace db' with (process_daily_reminders now smtp (db w)).1 by by rewrite T.
    rewrite process_daily_reminders_rows.
    rewrite (rows_for_same_keys _ _ _ _ (process_rows_same_keys _ _ _ _)). apply U.
  - unfold create_monthly_reminders.
    destruct (create_for_companies _ _ _) as [rs|] eqn:C; simpl; [|apply U].
    by apply (create_for_companies_one_row _ _ _ _ C).
  - done.
  - unfold update_reminder. destruct (get_reminder _ _); simpl; [|apply U].
    rewrite (rows_for_same_keys _ _ (reminders (db w))); [apply U|].
    apply update_row_same_keys. intros r. unfold setattrs. by repeat case_match.
  - unfold stop. destruct (get_reminder _ _); simpl; [|apply U].
    rewrite (rows_for_same_keys _ _ (reminders (db w))); [apply U|].
    by apply update_row_same_keys.
  - unfold restart. destruct (get_reminder _ _); simpl; [|apply U].
    rewrite (rows_for_same_keys _ _ (reminders (db w))); [apply U|].
    by apply update_row_same_keys.
  - apply U.
  - apply U.
Qed.

Lemma create_reminder_adds_row rem db :
  valid_date (ReminderCreate.reminder_month rem) = true ->
  length (rows_for (ReminderCreate.company_id rem) (ReminderCreate.reminder_month rem)
            (reminders (create_reminder rem db).1)) =
  Datatypes.S
    (length (rows_for (ReminderCreate.company_id rem)
               (ReminderCreate.reminder_month rem) (reminders db))).
Proof.
  intros V. destruct (create_reminder_expected_by_date rem db V) as (obj & R & _).
  unfold create_reminder in *. destruct (date_new _ _ _); [|done]. simpl.
  rewrite rows_for_app, length_app, rows_for_cons. simpl.
  rewrite Z.eqb_refl, date_eqb_refl. simpl. lia.
Qed.

(** C3 as amended.  Along every trace without direct creation (ticks,
    monthly creations, stops, restarts, field updates) a table with at
    most one row per (company, month) keeps at most one row per key; a
    second [create_monthly_reminders] for the same month changes nothing;
    the direct creation [create_reminder] adds a row for its key whether
    or not one exists. *)
Theorem one_row_per_key_without_direct_creation :
  (forall ops w,
      Forall not_direct_creation ops ->
      one_row_per_key (reminders (db w)) ->
      one_row_per_key (reminders (db (run ops w)))) /\
  (forall target_month db,
      create_monthly_reminders target_month
        (create_monthly_reminders target_month db)
      = create_monthly_reminders target_month db) /\
  (forall rem db,
      valid_date (ReminderCreate.reminder_month rem) = true ->
      length (rows_for (ReminderCreate.company_id rem)
                (ReminderCreate.reminder_month rem)
                (reminders (create_reminder rem db).1)) =
      Datatypes.S
        (length (rows_for (ReminderCreate.company_id rem)
                   (ReminderCreate.reminder_month rem) (reminders db)))).
Proof.
  split; [|split; [apply create_monthly_reminders_idempotent
                  |apply create_reminder_adds_row]].
  intros ops. induction ops as [|o ops IH]; intros w; [done|].
  intros [N F]%Forall_cons U. rewrite run_cons. apply IH; [done|].
  by apply step_one_row.
Qed.

Lemma one_row_per_key_without_direct_creation_witness :
  one_row_per_key
    (reminders (db (run [CreateMonthly june; Tick july_8 smtp_ok;
                         CreateMonthly june; Restart 1; CreateMonthly june]
                        acme_world))) /\
  length (rows_for 1 june
            (reminders (create_reminder (ReminderCreate.mk 1 june 5) acme_db).1))
  = 1%nat.
Proof.
  split.
  - apply (proj1 one_row_per_key_without_direct_creation).
    + repeat constructor.
    + intros c m. simpl. lia.
  - exact (proj2 (proj2 one_row_per_key_without_direct_creation)
                 (ReminderCreate.mk 1 june 5) acme_db eq_refl).
Defined.

(** Two direct creations, or a direct creation after the monthly one,
    leave two rows with the same key. *)
Lemma direct_creation_duplicates_key :
  length (rows_for 1 june
            (reminders (db (run [Create (ReminderCreate.mk 1 june 5);
                                 Create (ReminderCreate.mk 1 june 5)] acme_world))))
  = 2%nat /\
  length (rows_for 1 june
            (reminders (db (run [CreateMonthly june;
                                 Create (ReminderCreate.mk 1 june 5)] acme_world))))
  = 2%nat.
Proof. vm_compute. done. Qed.

(** ** C7: when the daily tick dispatches *)

Lemma process_rows_fst now smtp db rows :
  (process_rows now smtp db rows).1 = (fun r => (tick_row now smtp db r).1) <$> rows.
Proof.
  induction rows as [|r rows IH]; [done|].
  rewrite process_rows_cons, fmap_cons. simpl. by f_equal.
Qed.

Lemma process_rows_snd now smtp db rows :
  (process_rows now smtp db rows).2 = rows ≫= (fun r => (tick_row now smtp db r).2).
Proof.
  induction rows as [|r rows IH]; [done|].
  rewrite process_rows_cons, bind_cons. simpl. by f_equal.
Qed.

Lemma send_gst_reminder_shape smtp db company reminder_month :
  send_gst_reminder smtp db company reminder_month = (false, []) \/
  exists m, send_gst_reminder smtp db company reminder_month = (smtp m, [m]).
Proof.
  unfold send_gst_reminder. destruct (bool_decide _); [by left|].
  destruct (bool_decide _); [by left|]. right. eauto.
Qed.

(** What a turn of the loop does to a row and to the sink: nothing, the
    compliance flags, one failed call, or one delivered call with the
    counter and [last_sent] advanced. *)
Lemma tick_row_cases now smtp db r :
  let r' := (tick_row now smtp db r).1 in
  let log := (tick_row now smtp db r).2 in
  (log = [] /\ Reminder.last_sent r' = Reminder.last_sent r) \/
  (exists m,
      is_pending (dt_date now) r = true /\
      _check_gst_received db r = false /\
      _should_send_today (dt_date now) r = true /\
      ((log = [mkDispatch (Reminder.id r) m now false] /\
        Reminder.last_sent r' = Reminder.last_sent r) \/
       (log = [mkDispatch (Reminder.id r) m now true] /\
        Reminder.last_sent r' = Some now))).
Proof.
  unfold tick_row. destruct (is_pending _ r) eqn:P; [|by left].
  unfold _process_reminder.
  destruct (_check_gst_received db r) eqn:G; [by left|].
  destruct (_should_send_today _ r) eqn:T; [|by left]. simpl.
  destruct (company_of db _) as [company|]; [|by left].
  destruct (send_gst_reminder_shape (smtp (Reminder.id r)) db company
              (Reminder.reminder_month r)) as [->|[m ->]]; [by left|].
  right. exists m. repeat (split; [done|]).
  destruct (smtp (Reminder.id r) m); simpl; [right|by left].
  by destruct (_ <=? _).
Qed.

Lemma _should_send_today_spec today r :
  _should_send_today today r = true <->
  Reminder.last_sent r = None \/
  exists t, Reminder.last_sent r = Some t /\ date_ltb (dt_date t) today = true.
Proof.
  unfold _should_send_today. destruct (Reminder.last_sent r) as [t|].
  - split; [intros E; right; eauto|]. by intros [|(t' & [= <-] & E)].
  - split; [by left|done].
Qed.

(** The guard of every call of the sink. *)
Lemma tick_row_log now smtp db r d :
  d ∈ (tick_row now smtp db r).2 ->
  for_reminder d = Reminder.id r /\ sent_at d = now /\
  is_pending (dt_date now) r = true /\
  _should_send_today (dt_date now) r = true /\
  (delivered d = true -> Reminder.last_sent (tick_row now smtp db r).1 = Some now).
Proof.
  destruct (tick_row_cases now smtp db r) as [[-> _]|(m & P & _ & T & [[-> _]|[-> L]])].
  - by intros ?%elem_of_nil.
  - intros ->%list_elem_of_singleton. done.
  - intros ->%list_elem_of_singleton. done.
Qed.

Lemma tick_row_last_sent now smtp db r :
  Reminder.last_sent (tick_row now smtp db r).1 = Reminder.last_sent r \/
  (Reminder.last_sent (tick_row now smtp db r).1 = Some now /\
   _should_send_today (dt_date now) r = true).
Proof.
  destruct (tick_row_cases now smtp db r) as [[_ L]|(m & _ & _ & T & [[_ L]|[_ L]])];
    [by left|by left|by right].
Qed.

Lemma process_rows_log now smtp db rows d :
  d ∈ (process_rows now smtp db rows).2 ->
  exists r, r ∈ rows /\ d ∈ (tick_row now smtp db r).2.
Proof.
  rewrite process_rows_snd, list_elem_of_bind. intros (r & I & R). eauto.
Qed.

Lemma process_rows_ids now smtp db rows :
  Reminder.id <$> (process_rows now smtp db rows).1 = Reminder.id <$> rows.
Proof.
  rewrite process_rows_fst, <- list_fmap_compose. apply list_fmap_ext.
  intros i r _. simpl. by destruct (tick_row_same_key now smtp db r) as [-> _].
Qed.

(** A tick calls the sink at most once for a reminder. *)
Lemma process_rows_log_NoDup now smtp db rows :
  NoDup (Reminder.id <$> rows) ->
  NoDup (for_reminder <$> (process_rows now smtp db rows).2).
Proof.
  induction rows as [|r rows IH]; [constructor|].
  rewrite fmap_cons, NoDup_cons. intros [N D].
  rewrite process_rows_cons. simpl. rewrite fmap_app.
  apply NoDup_app. split; [|split; [|by apply IH]].
  - destruct (tick_row_cases now smtp db r)
      as [[-> _]|(m & _ & _ & _ & [[-> _]|[-> _]])];
      [constructor|apply NoDup_singleton|apply NoDup_singleton].
  - intros x (d & -> & I)%list_elem_of_fmap (d' & E & I')%list_elem_of_fmap.
    apply tick_row_log in I as (Id & _).
    apply process_rows_log in I' as (r' & Ir' & I').
    apply tick_row_log in I' as (Id' & _).
    apply N, list_elem_of_fmap. exists r'. split; [congruence|done].
Qed.

Lemma NoDup_ids_eq (rs : list Reminder.t) r1 r2 :
  NoDup (Reminder.id <$> rs) -> r1 ∈ rs -> r2 ∈ rs ->
  Reminder.id r1 = Reminder.id r2 -> r1 = r2.
Proof.
  induction rs as [|r rs IH]; [by intros _ ?%elem_of_nil|].
  rewrite fmap_cons, NoDup_cons. intros [N D] I1 I2 E.
  apply elem_of_cons in I1 as [->|I1]; apply elem_of_cons in I2 as [->|I2].
  - done.
  - destruct N. apply list_elem_of_fmap. eauto.
  - destruct N. apply list_elem_of_fmap. eauto.
  - by apply IH.
Qed.

(** The coverage of the notifications already sent survives every change
    of the table that keeps the identifiers and does not move [last_sent]
    back. *)
Lemma covered_mono rs rs' d :
  (forall r, r ∈ rs ->
     exists r', r' ∈ rs' /\ Reminder.id r' = Reminder.id r /\
       (Reminder.last_sent r' = Reminder.last_sent r \/
        exists t', Reminder.last_sent r' = Some t' /\
          forall t, Reminder.last_sent r = Some t ->
                    date_leb (dt_date t) (dt_date t') = true)) ->
  covered rs d -> covered rs' d.
Proof.
  intros M C D. destruct (C D) as (r & t & I & Id & L & Le).
  destruct (M r I) as (r' & I' & Id' & [L'|(t' & L' & Le')]).
  - exists r', t. repeat split; congruence.
  - exists r', t'. split; [done|]. split; [congruence|]. split; [done|].
    eapply date_leb_trans; [exact Le|by apply Le'].
Qed.

Lemma covered_same rs rs' d :
  Forall2 (fun r r' => Reminder.id r' = Reminder.id r /\
                       Reminder.last_sent r' = Reminder.last_sent r) rs rs' ->
  covered rs d -> covered rs' d.
Proof.
  intros F. apply covered_mono. intros r I.
  apply list_elem_of_lookup in I as [i I].
  destruct (Forall2_lookup_l _ _ _ _ _ F I) as (r' & I' & Id & L).
  exists r'. split; [by eapply list_elem_of_lookup_2|]. split; [done|by left].
Qed.

Lemma covered_app rs ext d : covered rs d -> covered (rs ++ ext) d.
Proof.
  apply covered_mono. intros r I. exists r.
  split; [apply elem_of_app; by left|]. split; [done|by left].
Qed.

Lemma Forall2_ids rs rs' :
  Forall2 (fun r r' => Reminder.id r' = Reminder.id r /\
                       Reminder.last_sent r' = Reminder.last_sent r) rs rs' ->
  Reminder.id <$> rs' = Reminder.id <$> rs.
Proof.
  induction 1 as [|r r' rs rs' [E _] _ IH]; [done|].
  by rewrite !fmap_cons, E, IH.
Qed.

Lemma update_row_same_stamp reminder_id f rs :
  (forall r, Reminder.id (f r) = Reminder.id r /\
             Reminder.last_sent (f r) = Reminder.last_sent r) ->
  Forall2 (fun r r' => Reminder.id r' = Reminder.id r /\
                       Reminder.last_sent r' = Reminder.last_sent r)
          rs (update_row reminder_id f rs).
Proof.
  intros Hf. eapply Forall2_impl; [apply update_row_Forall2|].
  intros r r' [->|[_ ->]]; [done|apply Hf].
Qed.

Lemma NoDup_fresh_id ids : NoDup ids -> NoDup (ids ++ [fresh_id ids]).
Proof.
  intros N. apply NoDup_app. split; [done|]. split; [|apply NoDup_singleton].
  intros x I ->%list_elem_of_singleton. apply fresh_id_gt in I. lia.
Qed.

Lemma create_for_companies_ids target_month cs rs rs' :
  create_for_companies target_month cs rs = Return rs' ->
  NoDup (Reminder.id <$> rs) -> NoDup (Reminder.id <$> rs').
Proof.
  revert rs. induction cs as [|c cs IH]; intros rs; simpl.
  - by intros [= ->].
  - destruct (has_reminder _ _ _); [apply IH|].
    destruct (_calculate_expected_date target_month) as [expected|]; [|done].
    simpl. intros C N. apply (IH _ C). rewrite fmap_app. simpl.
    by apply NoDup_fresh_id.
Qed.

Lemma delivered_keys_app log log' :
  delivered_keys (log ++ log') = delivered_keys log ++ delivered_keys log'.
Proof. unfold delivered_keys. by rewrite filter_app, fmap_app. Qed.

Lemma elem_of_delivered_keys k log :
  k ∈ delivered_keys log ->
  exists d, d ∈ log /\ delivered d = true /\ k = dispatch_key d.
Proof.
  unfold delivered_keys.
  intros (d & -> & [D I]%list_elem_of_filter)%list_elem_of_fmap.
  exists d. split; [done|]. split; [by apply Is_true_true|done].
Qed.

Lemma delivered_keys_NoDup log :
  NoDup (for_reminder <$> log) -> NoDup (delivered_keys log).
Proof.
  induction log as [|d log IH]; [constructor|].
  rewrite fmap_cons, NoDup_cons. intros [N D].
  unfold delivered_keys. rewrite filter_cons.
  destruct (decide _); [|by apply IH].
  rewrite fmap_cons. apply NoDup_cons. split; [|by apply IH].
  intros (d' & I & _ & E)%elem_of_delivered_keys.
  apply N, list_elem_of_fmap. exists d'. split; [|done].
  by injection E.
Qed.

Lemma tick_keeps_dispatch_inv now smtp w :
  dispatch_inv w ->
  dispatch_inv
    (mkWorld (process_daily_reminders now smtp (db w)).1
             (outbox w ++ (process_daily_reminders now smtp (db w)).2)).
Proof.
  intros (N & C & K). unfold dispatch_inv. simpl.
  rewrite process_daily_reminders_rows, process_daily_reminders_log.
  set (rows := reminders (db w)) in *.
  assert (forall r, r ∈ rows ->
            (tick_row now smtp (db w) r).1 ∈ (process_rows now smtp (db w) rows).1)
    as In'.
  { intros r I. rewrite process_rows_fst.
    by apply (list_elem_of_fmap_2 (fun r => (tick_row now smtp (db w) r).1)). }
  split; [by rewrite process_rows_ids|]. split.
  - apply Forall_app. split.
    + eapply Forall_impl; [exact C|]. intros d. apply covered_mono.
      intros r I. exists (tick_row now smtp (db w) r).1.
      split; [by apply In'|].
      split; [by destruct (tick_row_same_key now smtp (db w) r) as [-> _]|].
      destruct (tick_row_last_sent now smtp (db w) r) as [L|[L T]]; [by left|].
      right. exists now. split; [done|]. intros t Lt.
      apply _should_send_today_spec in T as [T|(t' & T & Lt')]; [congruence|].
      apply date_ltb_leb. congruence.
    + apply Forall_forall. intros d I D.
      apply process_rows_log in I as (r & I & Il).
      apply tick_row_log in Il as (Id & At & _ & _ & L).
      exists (tick_row now smtp (db w) r).1, now.
      split; [by apply In'|].
      split; [by destruct (tick_row_same_key now smtp (db w) r) as [-> _]|].
      split; [by apply L|]. rewrite At. apply date_leb_refl.
  - rewrite delivered_keys_app. apply NoDup_app. split; [done|]. split.
    + intros k (d1 & I1 & D1 & ->)%elem_of_delivered_keys
               (d2 & I2 & D2 & E)%elem_of_delivered_keys.
      injection E as E1 E2.
      rewrite Forall_forall in C.
      destruct (C d1 I1 D1) as (r1 & t & Ir1 & Id1 & L1 & Le).
      apply process_rows_log in I2 as (r2 & Ir2 & Il).
      apply tick_row_log in Il as (Id2 & At & _ & T & _).
      assert (r1 = r2) as <-.
      { apply (NoDup_ids_eq rows); [done..|congruence]. }
      apply _should_send_today_spec in T as [T|(t' & T & Lt)]; [congruence|].
      assert (t' = t) as -> by congruence.
      rewrite At in E2. rewrite E2 in Le.
      pose proof (date_leb_ltb_trans _ _ _ Le Lt) as Abs.
      by apply date_ltb_neq in Abs.
    + by apply delivered_keys_NoDup, process_rows_log_NoDup.
Qed.

Lemma step_keeps_dispatch_inv w o : dispatch_inv w -> dispatch_inv (step w o).
Proof.
  intros I. destruct o as [now smtp|tm|rem|i data|i|i|es|cs ces]; simpl.
  - pose proof (tick_keeps_dispatch_inv now smtp w I) as T.
    by destruct (process_daily_reminders now smtp (db w)).
  - destruct I as (N & C & K). unfold dispatch_inv, create_monthly_reminders. simpl.
    destruct (create_for_companies _ _ _) as [rs|] eqn:E; simpl; [|done].
    split; [by apply (create_for_companies_ids _ _ _ _ E)|]. split; [|done].
    destruct (create_for_companies_covers _ _ _ _ E) as [[ext ->] _].
    eapply Forall_impl; [exact C|]. intros d. apply covered_app.
  - destruct I as (N & C & K). unfold dispatch_inv, create_reminder. simpl.
    destruct (date_new _ _ _); simpl; [|done].
    split; [rewrite fmap_app; by apply NoDup_fresh_id|]. split; [|done].
    eapply Forall_impl; [exact C|]. intros d. apply covered_app.
  - destruct I as (N & C & K). unfold dispatch_inv, update_reminder. simpl.
    destruct (get_reminder _ _); simpl; [|done].
    assert (forall r, Reminder.id (setattrs data r) = Reminder.id r /\
                      Reminder.last_sent (setattrs data r) = Reminder.last_sent r) as S.
    { intros r. unfold setattrs. by repeat case_match. }
    pose proof (update_row_same_stamp i _ (reminders (db w)) S) as F.
    split; [by rewrite (Forall2_ids _ _ F)|]. split; [|done].
    eapply Forall_impl; [exact C|]. intros d. by apply covered_same.
  - destruct I as (N & C & K). unfold dispatch_inv, stop. simpl.
    destruct (get_reminder _ _); simpl; [|done].
    pose proof (update_row_same_stamp i (Reminder.with_manual_stop true)
                  (reminders (db w)) (fun r => conj eq_refl eq_refl)) as F.
    split; [by rewrite (Forall2_ids _ _ F)|]. split; [|done].
    eapply Forall_impl; [exact C|]. intros d. by apply covered_same.
  - destruct I as (N & C & K). unfold dispatch_inv, restart. simpl.
    destruct (get_reminder _ _); simpl; [|done].
    pose proof (update_row_same_stamp i restart_fields
                  (reminders (db w)) (fun r => conj eq_refl eq_refl)) as F.
    split; [by rewrite (Forall2_ids _ _ F)|]. split; [|done].
    eapply Forall_impl; [exact C|]. intros d. by apply covered_same.
  - done.
  - done.
Qed.

Lemma run_keeps_dispatch_inv ops w : dispatch_inv w -> dispatch_inv (run ops w).
Proof.
  revert w. induction ops as [|o ops IH]; intros w I; [done|].
  rewrite run_cons. by apply IH, step_keeps_dispatch_inv.
Qed.

(** C7.  Every call of the notification sink made by a daily tick is for
    a reminder of the table that is active, not stopped, without
    compliance received, below its budget, due today or earlier, and
    whose [last_sent] is null or on a day strictly before today; a tick
    calls the sink at most once for a reminder; and along every trace of
    operations, starting with an empty log, no two delivered
    notifications are for the same reminder on the same calendar day. *)
Theorem daily_tick_dispatch_policy :
  (forall now smtp d0 d,
      d ∈ (process_daily_reminders now smtp d0).2 ->
      sent_at d = now /\
      exists r,
        r ∈ reminders d0 /\ r ∈ _get_pending_reminders (dt_date now) d0 /\
        Reminder.id r = for_reminder d /\
        Reminder.is_active r = true /\
        Reminder.manual_stop r = false /\
        Reminder.gst_received r = false /\
        Reminder.days_sent r < Reminder.max_days_to_send r /\
        date_leb (Reminder.expected_by_date r) (dt_date now) = true /\
        (Reminder.last_sent r = None \/
         exists t, Reminder.last_sent r = Some t /\
                   date_ltb (dt_date t) (dt_date now) = true)) /\
  (forall now smtp d0,
      NoDup (Reminder.id <$> reminders d0) ->
      NoDup (for_reminder <$> (process_daily_reminders now smtp d0).2)) /\
  (forall ops w,
      outbox w = [] ->
      NoDup (Reminder.id <$> reminders (db w)) ->
      NoDup (delivered_keys (outbox (run ops w)))).
Proof.
  split; [|split].
  - intros now smtp d0 d. rewrite process_daily_reminders_log.
    intros (r & I & Il)%process_rows_log.
    apply tick_row_log in Il as (Id & At & P & T & _).
    split; [done|]. exists r. split; [done|].
    split; [apply list_elem_of_filter; split; [by apply Is_true_true|done]|].
    split; [done|].
    apply is_pending_spec in P as (A & M & G & D & E).
    repeat (split; [done|]). by apply _should_send_today_spec.
  - intros now smtp d0 N. rewrite process_daily_reminders_log.
    by apply process_rows_log_NoDup.
  - intros ops w O N.
    apply (run_keeps_dispatch_inv ops w). unfold dispatch_inv. rewrite O.
    split; [done|]. split; constructor.
Qed.

Lemma daily_tick_dispatch_policy_witness :
  NoDup (delivered_keys
           (outbox (run [CreateMonthly june; Tick july_8 smtp_ok;
                         Tick july_8 smtp_ok; Restart 1; Tick july_9 smtp_ok]
                        acme_world))).
Proof.
  apply (proj2 (proj2 daily_tick_dispatch_policy)).
  - reflexivity.
  - simpl. constructor.
Defined.

(** The scenario of the specification: the reminder of June 2025 is due
    on 2025-07-07 (batch creation); a tick on 2025-07-01 sends nothing, a
    tick on 2025-07-08 sends once, and a second tick on that day sends
    nothing more. *)
Example scenario_acme_june :
  let tick d := Tick (DateTime (Date 2025 7 d) 32400000000) smtp_ok in
  let w1 := run [CreateMonthly june; tick 1] acme_world in
  let w2 := run [tick 8; tick 8] w1 in
  Reminder.expected_by_date <$> reminders (db w1) = [Date 2025 7 7] /\
  outbox w1 = [] /\
  dispatch_key <$> outbox w2 = [(1, Date 2025 7 8)] /\
  Reminder.days_sent <$> reminders (db w2) = [1].
Proof. vm_compute. done. Qed.

(** Five daily ticks use up the budget of five and deactivate the
    reminder; a sixth sends nothing. *)
Example scenario_budget :
  let tick d := Tick (DateTime (Date 2025 7 d) 32400000000) smtp_ok in
  let w := run [CreateMonthly june; tick 8; tick 9; tick 10; tick 11; tick 12; tick 13]
               acme_world in
  (fun r => (Reminder.days_sent r, Reminder.is_active r)) <$> reminders (db w)
    = [(5, false)] /\
  length (outbox w) = 5%nat.
Proof. vm_compute. done. Qed.

(** A dispatch that fails leaves the counter and [last_sent] as they
    were, and the next tick of the same day calls the sink again. *)
Example scenario_failed_dispatch :
  let w := run [CreateMonthly june; Tick july_8 smtp_down; Tick july_8 smtp_ok]
               acme_world in
  delivered <$> outbox w = [false; true] /\
  Reminder.days_sent <$> reminders (db w) = [1].
Proof. vm_compute. done. Qed.

(* ===================================================================== *)
(** * Part III.  Further properties of the code                           *)
(* ===================================================================== *)

(** ** The daily tick, row by row *)

Lemma send_gst_reminder_uniform db company reminder_month :
  (forall smtp, send_gst_reminder smtp db company reminder_month = (false, [])) \/
  (exists m,
      recipients m =
        ClientEmail.email <$>
          filter (fun e => ClientEmail.is_active e) (client_emails_of db company) /\
      recipients m <> [] /\
      company_name m = Company.name company /\
      about_month m = reminder_month /\
      forall smtp, send_gst_reminder smtp db company reminder_month = (smtp m, [m])).
Proof.
  unfold send_gst_reminder. destruct (bool_decide _); [by left|].
  destruct (bool_decide _) eqn:E; [by left|]. right.
  apply bool_decide_eq_false in E. eexists. repeat split; done.
Qed.

(** The four outcomes of a turn of the loop. *)
Lemma tick_row_full now smtp db r :
  (tick_row now smtp db r = (r, []) /\
   forall smtp', tick_row now smtp' db r = (r, [])) \/
  (is_pending (dt_date now) r = true /\
   _check_gst_received db r = true /\
   tick_row now smtp db r =
     (Reminder.with_is_active false (Reminder.with_gst_received true r), [])) \/
  (exists m,
      is_pending (dt_date now) r = true /\
      _check_gst_received db r = false /\
      _should_send_today (dt_date now) r = true /\
      tick_row now smtp db r = (r, [mkDispatch (Reminder.id r) m now false])) \/
  (exists m,
      is_pending (dt_date now) r = true /\
      _check_gst_received db r = false /\
      _should_send_today (dt_date now) r = true /\
      tick_row now smtp db r =
        (after_delivery now r, [mkDispatch (Reminder.id r) m now true])).
Proof.
  unfold tick_row. destruct (is_pending _ r) eqn:P; [|by left].
  unfold _process_reminder.
  destruct (_check_gst_received db r) eqn:G; [right; by left|].
  destruct (_should_send_today _ r) eqn:T; [|by left]. simpl.
  destruct (company_of db _) as [company|]; [|by left].
  destruct (send_gst_reminder_uniform db company (Reminder.reminder_month r))
    as [E|(m & _ & _ & _ & _ & E)].
  - left. split; [by rewrite E|]. intros smtp'. by rewrite E.
  - rewrite E. do 2 right. destruct (smtp (Reminder.id r) m); simpl.
    + right. exists m. repeat (split; [done|]). unfold after_delivery.
      destruct r; simpl. by destruct (_ <=? _).
    + left. exists m. by repeat (split; [done|]).
Qed.

Lemma filter_none {A} (P : A -> Prop) `{forall x, Decision (P x)} (l : list A) :
  (forall x, x ∈ l -> ~ P x) -> filter P l = [].
Proof.
  induction l as [|a l IH]; intros N; [done|].
  rewrite filter_cons. destruct (decide (P a)) as [p|_].
  - destruct (N a); [apply list_elem_of_here|done].
  - apply IH. intros x I. apply N. by apply list_elem_of_further.
Qed.

Lemma calls_for_app i log log' :
  calls_for i (log ++ log') = calls_for i log ++ calls_for i log'.
Proof. apply filter_app. Qed.

Lemma delivered_to_app i log log' :
  delivered_to i (log ++ log') = delivered_to i log ++ delivered_to i log'.
Proof. unfold delivered_to. by rewrite calls_for_app, filter_app. Qed.

Lemma calls_for_others i log :
  (forall d, d ∈ log -> for_reminder d <> i) -> calls_for i log = [].
Proof.
  intros N. apply filter_none. intros d I E%Is_true_true%Z.eqb_eq. by apply (N d).
Qed.

Lemma tick_row_log_id now smtp db r d :
  d ∈ (tick_row now smtp db r).2 -> for_reminder d = Reminder.id r.
Proof. intros I. by apply tick_row_log in I as [? _]. Qed.

(** In the log of a tick, the calls for a reminder are those of its own
    turn of the loop. *)
Lemma calls_for_process_rows now smtp db rows r :
  NoDup (Reminder.id <$> rows) -> r ∈ rows ->
  calls_for (Reminder.id r) (process_rows now smtp db rows).2 =
  calls_for (Reminder.id r) (tick_row now smtp db r).2.
Proof.
  induction rows as [|x rows IH]; [by intros _ ?%elem_of_nil|].
  rewrite fmap_cons, NoDup_cons. intros [N D] I.
  rewrite process_rows_cons. simpl. rewrite calls_for_app.
  assert (forall y, y ∈ rows ->
            calls_for (Reminder.id x) (tick_row now smtp db y).2 = [] /\
            calls_for (Reminder.id y) (tick_row now smtp db x).2 = []) as Other.
  { intros y Iy.
    assert (Reminder.id y <> Reminder.id x) as Ne.
    { intros E. apply N, list_elem_of_fmap. eauto. }
    split; apply calls_for_others; intros d Id%tick_row_log_id; congruence. }
  apply elem_of_cons in I as [->|I].
  - rewrite (calls_for_others _ (process_rows now smtp db rows).2);
      [by rewrite app_nil_r|].
    intros d (y & Iy & Id)%process_rows_log E.
    apply tick_row_log_id in Id. apply N, list_elem_of_fmap.
    exists y. split; [congruence|done].
  - rewrite (proj2 (Other r I)). simpl. by apply IH.
Qed.

Lemma process_rows_elem now smtp db rows r :
  r ∈ rows -> (tick_row now smtp db r).1 ∈ (process_rows now smtp db rows).1.
Proof.
  intros I. rewrite process_rows_fst.
  by apply (list_elem_of_fmap_2 (fun r => (tick_row now smtp db r).1)).
Qed.

Lemma process_rows_elem_inv now smtp db rows r' :
  r' ∈ (process_rows now smtp db rows).1 ->
  exists r, r ∈ rows /\ r' = (tick_row now smtp db r).1.
Proof.
  rewrite process_rows_fst. intros (r & -> & I)%list_elem_of_fmap. eauto.
Qed.

(** The counter moves with the deliveries. *)
Lemma tick_row_days_sent now smtp db r :
  Reminder.days_sent (tick_row now smtp db r).1 =
  Reminder.days_sent r +
  Z.of_nat (length (delivered_to (Reminder.id r) (tick_row now smtp db r).2)) /\
  Reminder.max_days_to_send (tick_row now smtp db r).1 = Reminder.max_days_to_send r.
Proof.
  unfold delivered_to, calls_for.
  destruct (tick_row_full now smtp db r)
    as [[-> _]|[(_ & _ & ->)|[(m & _ & _ & _ & ->)|(m & _ & _ & _ & ->)]]]; simpl.
  - split; [lia|done].
  - split; [lia|done].
  - rewrite filter_cons. simpl. rewrite Z.eqb_refl. simpl. split; [lia|done].
  - rewrite filter_cons. simpl. rewrite Z.eqb_refl. simpl.
    unfold after_delivery. destruct (_ <=? _); simpl; split; (lia || done).
Qed.

(** ** The tables under the operations *)

Lemma update_row_fmap {A} (g : Reminder.t -> A) i f rs :
  (forall r, g (f r) = g r) -> g <$> update_row i f rs = g <$> rs.
Proof.
  intros Hg. induction rs as [|r rs IH]; [done|]. simpl.
  destruct (Reminder.id r =? i); rewrite !fmap_cons; [by rewrite Hg|by rewrite IH].
Qed.

Lemma update_row_elem i f rs r :
  r ∈ rs -> exists r', r' ∈ update_row i f rs /\ (r' = r \/ r' = f r).
Proof.
  intros [k K]%list_elem_of_lookup.
  destruct (Forall2_lookup_l _ _ _ _ _ (update_row_Forall2 i f rs) K)
    as (r' & K' & E).
  exists r'. split; [by eapply list_elem_of_lookup_2|].
  destruct E as [->|[_ ->]]; eauto.
Qed.

Lemma update_row_elem_other i f rs r :
  r ∈ rs -> Reminder.id r <> i -> r ∈ update_row i f rs.
Proof.
  intros [k K]%list_elem_of_lookup N.
  eapply list_elem_of_lookup_2. by apply update_row_other.
Qed.

Lemma step_keeps_ids_NoDup w o :
  NoDup (Reminder.id <$> reminders (db w)) ->
  NoDup (Reminder.id <$> reminders (db (step w o))).
Proof.
  intros N. destruct o as [now smtp|tm|rem|i data|i|i|es|cs ces]; simpl.
  - destruct (process_daily_reminders now smtp (db w)) as [db' log] eqn:T. simpl.
    replace db' with (process_daily_reminders now smtp (db w)).1 by by rewrite T.
    by rewrite process_daily_reminders_rows, process_rows_ids.
  - unfold create_monthly_reminders.
    destruct (create_for_companies _ _ _) as [rs|] eqn:E; simpl; [|done].
    by apply (create_for_companies_ids _ _ _ _ E).
  - unfold create_reminder. destruct (date_new _ _ _); simpl; [|done].
    rewrite fmap_app. by apply NoDup_fresh_id.
  - unfold update_reminder. destruct (get_reminder _ _); simpl; [|done].
    rewrite update_row_fmap; [done|]. intros r. unfold setattrs. by repeat case_match.
  - unfold stop. destruct (get_reminder _ _); simpl; [|done].
    by rewrite update_row_fmap.
  - unfold restart. destruct (get_reminder _ _); simpl; [|done].
    by rewrite update_row_fmap.
  - done.
  - done.
Qed.

(** ** X1, X2: the counter and the budget *)

Lemma counters_ok_same log rs rs' :
  (fun r => (Reminder.id r, Reminder.days_sent r)) <$> rs' =
  (fun r => (Reminder.id r, Reminder.days_sent r)) <$> rs ->
  counters_ok log rs -> counters_ok log rs'.
Proof.
  intros E (N & L & C).
  assert (Reminder.id <$> rs' = Reminder.id <$> rs) as Ei.
  { apply (f_equal (fmap fst)) in E. by rewrite <- !list_fmap_compose in E. }
  split; [by rewrite Ei|]. split; [by rewrite Ei|].
  intros r' I.
  apply (list_elem_of_fmap_2 (fun r => (Reminder.id r, Reminder.days_sent r))) in I.
  rewrite E in I. apply list_elem_of_fmap in I as (r & [= -> ->] & I). by apply C.
Qed.

Lemma counters_ok_snoc log rs new :
  counters_ok log rs ->
  Reminder.id new = fresh_id (Reminder.id <$> rs) ->
  Reminder.days_sent new = 0 ->
  counters_ok log (rs ++ [new]).
Proof.
  intros (N & L & C) I D. split; [|split].
  - rewrite fmap_app. simpl. rewrite I. by apply NoDup_fresh_id.
  - intros d Id. rewrite fmap_app. apply elem_of_app. left. by apply L.
  - intros r [Ir| ->%list_elem_of_singleton]%elem_of_app; [by apply C|].
    rewrite D. unfold delivered_to. rewrite calls_for_others; [done|].
    intros d Id E. apply L, fresh_id_gt in Id. lia.
Qed.

Lemma create_for_companies_counters log target_month cs rs rs' :
  create_for_companies target_month cs rs = Return rs' ->
  counters_ok log rs -> counters_ok log rs'.
Proof.
  revert rs. induction cs as [|c cs IH]; intros rs; simpl.
  - by intros [= ->].
  - destruct (has_reminder _ _ _); [apply IH|].
    destruct (_calculate_expected_date target_month) as [expected|]; [|done].
    simpl. intros E C. apply (IH _ E). by apply counters_ok_snoc.
Qed.

Lemma delivered_to_process_rows now smtp db rows r :
  NoDup (Reminder.id <$> rows) -> r ∈ rows ->
  delivered_to (Reminder.id r) (process_rows now smtp db rows).2 =
  delivered_to (Reminder.id r) (tick_row now smtp db r).2.
Proof.
  intros N I. unfold delivered_to. by rewrite calls_for_process_rows.
Qed.

Lemma tick_keeps_counters now smtp d0 log :
  counters_ok log (reminders d0) ->
  counters_ok (log ++ (process_rows now smtp d0 (reminders d0)).2)
              (process_rows now smtp d0 (reminders d0)).1.
Proof.
  intros (N & L & C). split; [|split].
  - by rewrite process_rows_ids.
  - rewrite process_rows_ids.
    intros d [I|(r & Ir & I)%process_rows_log]%elem_of_app; [by apply L|].
    apply tick_row_log_id in I. apply list_elem_of_fmap. eauto.
  - intros r' (r & Ir & ->)%process_rows_elem_inv.
    destruct (tick_row_same_key now smtp d0 r) as [-> _].
    destruct (tick_row_days_sent now smtp d0 r) as [-> _].
    rewrite (C r Ir), delivered_to_app, length_app.
    rewrite (delivered_to_process_rows now smtp d0 _ r N Ir). lia.
Qed.

Lemma step_keeps_counter_inv w o : counter_inv w -> counter_inv (step w o).
Proof.
  unfold counter_inv. intros I.
  destruct o as [now smtp|tm|rem|i data|i|i|es|cs ces]; simpl.
  - pose proof (tick_keeps_counters now smtp (db w) (outbox w) I) as T.
    unfold process_daily_reminders.
    by destruct (process_rows now smtp (db w) (reminders (db w))).
  - unfold create_monthly_reminders.
    destruct (create_for_companies _ _ _) as [rs|] eqn:E; simpl; [|done].
    by apply (create_for_companies_counters _ _ _ _ _ E).
  - unfold create_reminder. destruct (date_new _ _ _); simpl; [|done].
    by apply counters_ok_snoc.
  - unfold update_reminder. destruct (get_reminder _ _); simpl; [|done].
    eapply counters_ok_same; [|exact I]. apply update_row_fmap.
    intros r. unfold setattrs. by repeat case_match.
  - unfold stop. destruct (get_reminder _ _); simpl; [|done].
    eapply counters_ok_same; [|exact I]. by apply update_row_fmap.
  - unfold restart. destruct (get_reminder _ _); simpl; [|done].
    eapply counters_ok_same; [|exact I]. by apply update_row_fmap.
  - done.
  - done.
Qed.

Lemma run_keeps_counter_inv ops w : counter_inv w -> counter_inv (run ops w).
Proof.
  revert w. induction ops as [|o ops IH]; intros w I; [done|].
  rewrite run_cons. by apply IH, step_keeps_counter_inv.
Qed.

(** X1.  Along every trace of operations, [days_sent] of a reminder is
    the number of notifications delivered for it, identifiers stay
    unique and every call of the sink is for a reminder of the table,
    if this held at the start (as it does in an empty system). *)
Theorem days_sent_counts_deliveries ops w :
  counter_inv w ->
  NoDup (Reminder.id <$> reminders (db (run ops w))) /\
  (forall d, d ∈ outbox (run ops w) ->
             for_reminder d ∈ Reminder.id <$> reminders (db (run ops w))) /\
  (forall r, r ∈ reminders (db (run ops w)) ->
     Reminder.days_sent r =
     Z.of_nat (length (delivered_to (Reminder.id r) (outbox (run ops w))))).
Proof. intros I. exact (run_keeps_counter_inv ops w I). Qed.

Lemma counter_inv_empty d0 : reminders d0 = [] -> counter_inv (mkWorld d0 []).
Proof.
  intros E. unfold counter_inv, counters_ok. simpl. rewrite E.
  split; [constructor|]. split; [by intros d ?%elem_of_nil|by intros r ?%elem_of_nil].
Qed.

Lemma days_sent_counts_deliveries_witness :
  Forall (fun r =>
            Reminder.days_sent r =
            Z.of_nat (length (delivered_to (Reminder.id r)
                                (outbox (run sample_trace acme_world)))))
         (reminders (db (run sample_trace acme_world))).
Proof.
  apply Forall_forall.
  exact (proj2 (proj2 (days_sent_counts_deliveries sample_trace acme_world
                         (counter_inv_empty acme_db eq_refl)))).
Defined.

Lemma tick_row_budget now smtp db r :
  Reminder.days_sent r <= Reminder.max_days_to_send r ->
  Reminder.days_sent (tick_row now smtp db r).1
  <= Reminder.max_days_to_send (tick_row now smtp db r).1.
Proof.
  destruct (tick_row_full now smtp db r)
    as [[-> _]|[(_ & _ & ->)|[(m & _ & _ & _ & ->)|(m & P & _ & _ & ->)]]];
    simpl; try done.
  apply is_pending_spec in P as (_ & _ & _ & D & _).
  unfold after_delivery. destruct (_ <=? _); simpl; lia.
Qed.

Lemma step_keeps_budget w o :
  keeps_budget o ->
  Forall (fun r => Reminder.days_sent r <= Reminder.max_days_to_send r)
         (reminders (db w)) ->
  Forall (fun r => Reminder.days_sent r <= Reminder.max_days_to_send r)
         (reminders (db (step w o))).
Proof.
  intros K F. destruct o as [now smtp|tm|rem|i data|i|i|es|cs ces]; simpl in *.
  - destruct (process_daily_reminders now smtp (db w)) as [db' log] eqn:T. simpl.
    replace db' with (process_daily_reminders now smtp (db w)).1 by by rewrite T.
    rewrite process_daily_reminders_rows, process_rows_fst.
    apply Forall_fmap. eapply Forall_impl; [exact F|].
    intros r. apply tick_row_budget.
  - unfold create_monthly_reminders.
    destruct (create_for_companies _ _ _) as [rs|] eqn:E; simpl; [|done].
    revert E F. generalize (reminders (db w)).
    induction (filter (fun c => Company.is_active c) (companies (db w)))
      as [|c cs IH]; intros rs0; simpl.
    + by intros [= ->].
    + destruct (has_reminder _ _ _); [apply IH|].
      destruct (_calculate_expected_date tm) as [expected|]; [|done].
      simpl. intros E F. apply (IH _ E), Forall_app. split; [done|].
      constructor; [simpl; lia|constructor].
  - unfold create_reminder. destruct (date_new _ _ _); simpl; [|done].
    apply Forall_app. split; [done|]. constructor; [simpl; lia|constructor].
  - unfold update_reminder. destruct (get_reminder _ _); simpl; [|done].
    apply update_row_Forall; [|done]. intros obj _. unfold setattrs. rewrite K.
    by repeat case_match.
  - unfold stop. destruct (get_reminder _ _); simpl; [|done].
    apply update_row_Forall; [|done]. by intros [].
  - unfold restart. destruct (get_reminder _ _); simpl; [|done].
    apply update_row_Forall; [|done]. by intros [].
  - done.
  - done.
Qed.

(** X2.  Along every trace that leaves the budgets as they are (no field
    update of [max_days_to_send], no creation with a negative budget),
    the number of notifications delivered for a reminder never exceeds
    its [max_days_to_send], restarts included. *)
Theorem deliveries_within_budget ops w :
  Forall keeps_budget ops ->
  counter_inv w ->
  Forall (fun r => Reminder.days_sent r <= Reminder.max_days_to_send r)
         (reminders (db w)) ->
  Forall (fun r =>
            Z.of_nat (length (delivered_to (Reminder.id r) (outbox (run ops w))))
            <= Reminder.max_days_to_send r)
         (reminders (db (run ops w))).
Proof.
  intros K I B.
  assert (Forall (fun r => Reminder.days_sent r <= Reminder.max_days_to_send r)
                 (reminders (db (run ops w)))) as B'.
  { revert w I B. induction K as [|o ops Ko _ IH]; intros w I B; [done|].
    rewrite run_cons. apply IH; [by apply step_keeps_counter_inv|].
    by apply step_keeps_budget. }
  destruct (run_keeps_counter_inv ops w I) as (_ & _ & C).
  apply Forall_forall. intros r Ir. rewrite Forall_forall in B'.
  rewrite <- (C r Ir). by apply B'.
Qed.

Lemma deliveries_within_budget_witness :
  let tick d := Tick (DateTime (Date 2025 7 d) 32400000000) smtp_ok in
  Forall (fun r =>
            Z.of_nat (length (delivered_to (Reminder.id r)
               (outbox (run [CreateMonthly june; tick 8; tick 9; tick 10; tick 11;
                             tick 12; Restart 1; tick 13; Restart 1; tick 14]
                            acme_world))))
            <= Reminder.max_days_to_send r)
         (reminders (db (run [CreateMonthly june; tick 8; tick 9; tick 10; tick 11;
                              tick 12; Restart 1; tick 13; Restart 1; tick 14]
                             acme_world))).
Proof.
  intros tick. apply deliveries_within_budget.
  - repeat constructor.
  - by apply counter_inv_empty.
  - constructor.
Defined.

(** ** X3, X4: reminders the tick passes by *)

(** A row that is not selected keeps its place and gets no call. *)
Lemma tick_passes_by now smtp d0 r :
  NoDup (Reminder.id <$> reminders d0) ->
  r ∈ reminders d0 ->
  is_pending (dt_date now) r = false ->
  r ∈ reminders (process_daily_reminders now smtp d0).1 /\
  calls_for (Reminder.id r) (process_daily_reminders now smtp d0).2 = [].
Proof.
  intros N I P.
  assert (tick_row now smtp d0 r = (r, [])) as T.
  { unfold tick_row. by rewrite P. }
  rewrite process_daily_reminders_rows, process_daily_reminders_log. split.
  - pose proof (process_rows_elem now smtp d0 _ r I) as I'. by rewrite T in I'.
  - rewrite calls_for_process_rows by done. by rewrite T.
Qed.

Lemma step_outbox_tick now smtp w :
  outbox (step w (Tick now smtp)) =
  outbox w ++ (process_daily_reminders now smtp (db w)).2 /\
  db (step w (Tick now smtp)) = (process_daily_reminders now smtp (db w)).1.
Proof. simpl. by destruct (process_daily_reminders now smtp (db w)). Qed.

Lemma create_reminder_extends rem d0 :
  exists ext, reminders (create_reminder rem d0).1 = reminders d0 ++ ext.
Proof.
  unfold create_reminder. destruct (date_new _ _ _); simpl; [by eexists|].
  exists []. by rewrite app_nil_r.
Qed.

Lemma create_monthly_reminders_extends target_month d0 :
  exists ext, reminders (create_monthly_reminders target_month d0) = reminders d0 ++ ext.
Proof.
  unfold create_monthly_reminders.
  destruct (create_for_companies _ _ _) as [rs|] eqn:E; simpl.
  - by destruct (create_for_companies_covers _ _ _ _ E) as [[ext ->] _]; eexists.
  - exists []. by rewrite app_nil_r.
Qed.

(** What every operation keeps of a reminder whose compliance is
    received. *)
Lemma step_keeps_compliance w o r :
  NoDup (Reminder.id <$> reminders (db w)) ->
  r ∈ reminders (db w) ->
  Reminder.gst_received r = true ->
  (exists r',
      r' ∈ reminders (db (step w o)) /\
      Reminder.id r' = Reminder.id r /\
      Reminder.gst_received r' = true /\
      Reminder.days_sent r' = Reminder.days_sent r /\
      Reminder.last_sent r' = Reminder.last_sent r) /\
  calls_for (Reminder.id r) (outbox (step w o)) = calls_for (Reminder.id r) (outbox w).
Proof.
  intros N I G.
  assert (forall i f,
            (forall x, Reminder.id (f x) = Reminder.id x /\
                       Reminder.gst_received (f x) = Reminder.gst_received x /\
                       Reminder.days_sent (f x) = Reminder.days_sent x /\
                       Reminder.last_sent (f x) = Reminder.last_sent x) ->
            exists r',
              r' ∈ update_row i f (reminders (db w)) /\
              Reminder.id r' = Reminder.id r /\
              Reminder.gst_received r' = true /\
              Reminder.days_sent r' = Reminder.days_sent r /\
              Reminder.last_sent r' = Reminder.last_sent r) as Upd.
  { intros i f Hf. destruct (update_row_elem i f _ r I) as (r' & I' & [-> | ->]).
    - by exists r.
    - destruct (Hf r) as (E1 & E2 & E3 & E4). exists (f r). by rewrite E1, E2, E3, E4. }
  destruct o as [now smtp|tm|rem|i data|i|i|es|cs ces].
  - destruct (step_outbox_tick now smtp w) as [-> ->].
    assert (is_pending (dt_date now) r = false) as P.
    { apply not_true_iff_false. intros (_ & _ & G' & _)%is_pending_spec. congruence. }
    destruct (tick_passes_by now smtp (db w) r N I P) as [I' C].
    split; [by exists r|]. by rewrite calls_for_app, C, app_nil_r.
  - simpl. split; [|done].
    destruct (create_monthly_reminders_extends tm (db w)) as [ext ->].
    exists r. split; [apply elem_of_app; by left|done].
  - simpl. split; [|done].
    destruct (create_reminder_extends rem (db w)) as [ext ->].
    exists r. split; [apply elem_of_app; by left|done].
  - simpl. split; [|done]. unfold update_reminder.
    destruct (get_reminder _ _); simpl; [|by exists r].
    apply Upd. intros x. unfold setattrs. by repeat case_match.
  - simpl. split; [|done]. unfold stop.
    destruct (get_reminder _ _); simpl; [|by exists r]. by apply Upd.
  - simpl. split; [|done]. unfold restart.
    destruct (get_reminder _ _); simpl; [|by exists r]. by apply Upd.
  - simpl. split; [by exists r|done].
  - simpl. split; [by exists r|done].
Qed.

(** X3.  Compliance is final: once [gst_received] is set on a reminder,
    no operation clears it, moves its counter or its [last_sent], and no
    tick calls the sink for it any more, whether it is restarted or
    updated in between. *)
Theorem compliance_is_final ops w r :
  NoDup (Reminder.id <$> reminders (db w)) ->
  r ∈ reminders (db w) ->
  Reminder.gst_received r = true ->
  (exists r',
      r' ∈ reminders (db (run ops w)) /\
      Reminder.id r' = Reminder.id r /\
      Reminder.gst_received r' = true /\
      Reminder.days_sent r' = Reminder.days_sent r /\
      Reminder.last_sent r' = Reminder.last_sent r) /\
  calls_for (Reminder.id r) (outbox (run ops w)) = calls_for (Reminder.id r) (outbox w).
Proof.
  revert w r. induction ops as [|o ops IH]; intros w r N I G.
  - split; [by exists r|done].
  - rewrite run_cons.
    destruct (step_keeps_compliance w o r N I G) as [(r1 & I1 & E1 & G1 & D1 & L1) C1].
    destruct (IH (step w o) r1 (step_keeps_ids_NoDup w o N) I1 G1)
      as [(r' & I' & E' & G' & D' & L') C'].
    split.
    + exists r'. repeat split; congruence.
    + rewrite <- E1. rewrite C'. by rewrite E1.
Qed.

Lemma compliance_is_final_witness :
  let w := run [SetEmails [gst_june]; CreateMonthly june; Tick july_8 smtp_ok] acme_world in
  calls_for 1 (outbox (run [Restart 1; Tick july_9 smtp_ok;
                            Update 1 (ReminderUpdate.mk (Some 9) (Some true) (Some false));
                            Tick july_9 smtp_ok] w))
  = calls_for 1 (outbox w).
Proof.
  intros w.
  refine (proj2 (compliance_is_final _ w
                   (Reminder.mk 1 1 june (Date 2025 7 7) 5 0 false false true None)
                   _ _ eq_refl)).
  - vm_compute. apply NoDup_singleton.
  - vm_compute. apply list_elem_of_here.
Defined.

Lemma with_manual_stop_stopped r :
  Reminder.manual_stop r = true -> Reminder.with_manual_stop true r = r.
Proof. destruct r. simpl. by intros ->. Qed.

Lemma step_keeps_stopped w o r :
  NoDup (Reminder.id <$> reminders (db w)) ->
  r ∈ reminders (db w) ->
  Reminder.manual_stop r = true ->
  leaves_alone (Reminder.id r) o ->
  r ∈ reminders (db (step w o)) /\
  calls_for (Reminder.id r) (outbox (step w o)) = calls_for (Reminder.id r) (outbox w).
Proof.
  intros N I M A. destruct o as [now smtp|tm|rem|i data|i|i|es|cs ces].
  - destruct (step_outbox_tick now smtp w) as [-> ->].
    assert (is_pending (dt_date now) r = false) as P.
    { apply not_true_iff_false. intros (_ & M' & _)%is_pending_spec. congruence. }
    destruct (tick_passes_by now smtp (db w) r N I P) as [I' C].
    split; [done|]. by rewrite calls_for_app, C, app_nil_r.
  - simpl. split; [|done].
    destruct (create_monthly_reminders_extends tm (db w)) as [ext ->].
    apply elem_of_app. by left.
  - simpl. split; [|done].
    destruct (create_reminder_extends rem (db w)) as [ext ->].
    apply elem_of_app. by left.
  - simpl in *. split; [|done]. unfold update_reminder.
    destruct (get_reminder _ _); simpl; [|done].
    apply update_row_elem_other; [done|congruence].
  - simpl. split; [|done]. unfold stop.
    destruct (get_reminder _ _); simpl; [|done].
    destruct (decide (Reminder.id r = i)) as [E|E].
    + destruct (update_row_elem i (Reminder.with_manual_stop true) _ r I)
        as (r' & I' & [-> | ->]); [done|].
      by rewrite with_manual_stop_stopped in I'.
    + by apply update_row_elem_other.
  - simpl in *. split; [|done]. unfold restart.
    destruct (get_reminder _ _); simpl; [|done].
    apply update_row_elem_other; [done|congruence].
  - simpl. by split.
  - simpl. by split.
Qed.

(** X4.  A stopped reminder is frozen: as long as it is neither
    restarted nor updated, its row stays exactly as it is and no tick
    calls the sink for it, whatever else happens. *)
Theorem stopped_reminder_is_frozen ops w r :
  NoDup (Reminder.id <$> reminders (db w)) ->
  r ∈ reminders (db w) ->
  Reminder.manual_stop r = true ->
  Forall (leaves_alone (Reminder.id r)) ops ->
  r ∈ reminders (db (run ops w)) /\
  calls_for (Reminder.id r) (outbox (run ops w)) = calls_for (Reminder.id r) (outbox w).
Proof.
  intros N I M A. revert w N I.
  induction A as [|o ops Ao _ IH]; intros w N I; [done|].
  rewrite run_cons.
  destruct (step_keeps_stopped w o r N I M Ao) as [I1 C1].
  destruct (IH (step w o) (step_keeps_ids_NoDup w o N) I1) as [I' C'].
  split; [done|]. by rewrite C'.
Qed.

Lemma stopped_reminder_is_frozen_witness :
  let w := run [CreateMonthly june; Tick july_8 smtp_ok; Stop 1] acme_world in
  let r := Reminder.mk 1 1 june (Date 2025 7 7) 5 1 true true false (Some july_8) in
  r ∈ reminders (db (run [Tick july_9 smtp_ok; SetEmails [gst_june]; Stop 1;
                          Tick july_9 smtp_ok; CreateMonthly june] w)).
Proof.
  intros w r.
  refine (proj1 (stopped_reminder_is_frozen _ w r _ _ eq_refl _)).
  - vm_compute. apply NoDup_singleton.
  - vm_compute. apply list_elem_of_here.
  - repeat constructor.
Defined.

(** ** X5: what a tick leaves alone *)

Lemma tick_row_frame now smtp db r :
  let r' := (tick_row now smtp db r).1 in
  Reminder.id r' = Reminder.id r /\
  Reminder.company_id r' = Reminder.company_id r /\
  Reminder.reminder_month r' = Reminder.reminder_month r /\
  Reminder.expected_by_date r' = Reminder.expected_by_date r /\
  Reminder.max_days_to_send r' = Reminder.max_days_to_send r /\
  Reminder.manual_stop r' = Reminder.manual_stop r /\
  Reminder.days_sent r <= Reminder.days_sent r' <= Reminder.days_sent r + 1 /\
  (Reminder.is_active r' = true -> Reminder.is_active r = true) /\
  (Reminder.gst_received r = true -> Reminder.gst_received r' = true).
Proof.
  cbv zeta.
  destruct (tick_row_full now smtp db r)
    as [[E _]|[(P & _ & E)|[(m & P & _ & _ & E)|(m & P & _ & _ & E)]]];
    rewrite E; simpl.
  - repeat split; (done || lia).
  - repeat split; (done || lia).
  - repeat split; (done || lia).
  - apply is_pending_spec in P as (A & _).
    unfold after_delivery. destruct (_ <=? _); simpl; repeat split; (done || lia).
Qed.

(** X5.  A daily tick touches the table of reminders only: companies,
    client addresses, e-mails and attachments are as before, and row by
    row the reminder keeps its identifier, company, month, due date,
    budget and [manual_stop]; its counter stays or goes up by one; an
    inactive reminder is never made active and a received compliance is
    never taken back. *)
Theorem process_daily_reminders_frame now smtp d0 :
  let d1 := (process_daily_reminders now smtp d0).1 in
  companies d1 = companies d0 /\
  client_emails d1 = client_emails d0 /\
  emails d1 = emails d0 /\
  attachments d1 = attachments d0 /\
  Forall2 (fun r r' =>
             Reminder.id r' = Reminder.id r /\
             Reminder.company_id r' = Reminder.company_id r /\
             Reminder.reminder_month r' = Reminder.reminder_month r /\
             Reminder.expected_by_date r' = Reminder.expected_by_date r /\
             Reminder.max_days_to_send r' = Reminder.max_days_to_send r /\
             Reminder.manual_stop r' = Reminder.manual_stop r /\
             Reminder.days_sent r <= Reminder.days_sent r' <= Reminder.days_sent r + 1 /\
             (Reminder.is_active r' = true -> Reminder.is_active r = true) /\
             (Reminder.gst_received r = true -> Reminder.gst_received r' = true))
          (reminders d0) (reminders d1).
Proof.
  cbv zeta. rewrite process_daily_reminders_rows, process_rows_fst.
  unfold process_daily_reminders.
  destruct (process_rows now smtp d0 (reminders d0)) as [rows log]. simpl.
  repeat (split; [done|]).
  apply Forall2_fmap_r, Forall_Forall2_diag, Forall_forall.
  intros r _. apply tick_row_frame.
Qed.

(** ** X6, X7: the monthly batch *)

(** The rows the batch adds. *)
Lemma create_for_companies_rows target_month expected cs rs rs' :
  _calculate_expected_date target_month = Return expected ->
  create_for_companies target_month cs rs = Return rs' ->
  exists ext,
    rs' = rs ++ ext /\
    Forall (fun r =>
              exists c, c ∈ cs /\
                r = Reminder.mk (Reminder.id r) (Company.id c) target_month
                                expected 5 0 true false false None) ext.
Proof.
  intros X. revert rs. induction cs as [|c cs IH]; intros rs; simpl.
  - intros [= ->]. exists []. by rewrite app_nil_r.
  - destruct (has_reminder _ _ rs).
    + intros C. destruct (IH _ C) as (ext & -> & F). exists ext. split; [done|].
      eapply Forall_impl; [exact F|]. intros r (c' & I & E).
      exists c'. split; [by apply list_elem_of_further|done].
    + rewrite X. simpl. intros C. destruct (IH _ C) as (ext & -> & F).
      eexists. split; [by rewrite <- app_assoc|]. constructor.
      * exists c. split; [apply list_elem_of_here|done].
      * eapply Forall_impl; [exact F|]. intros r (c' & I & E).
        exists c'. split; [by apply list_elem_of_further|done].
Qed.

Lemma create_for_companies_total target_month expected cs rs :
  _calculate_expected_date target_month = Return expected ->
  exists rs', create_for_companies target_month cs rs = Return rs'.
Proof.
  intros X. revert rs. induction cs as [|c cs IH]; intros rs; simpl; [by eexists|].
  destruct (has_reminder _ _ rs); [apply IH|]. rewrite X. simpl. apply IH.
Qed.

(** X6.  When the due date of the month exists, the monthly batch keeps
    the table and appends to it: afterwards every active company has a
    reminder for the month, and every row added is for an active company
    and for that month, due on the date computed, with a budget of five,
    a counter of zero, active, not stopped, without compliance and never
    sent.  The other tables are untouched. *)
Theorem create_monthly_reminders_covers target_month expected d0 :
  _calculate_expected_date target_month = Return expected ->
  let d1 := create_monthly_reminders target_month d0 in
  companies d1 = companies d0 /\
  client_emails d1 = client_emails d0 /\
  emails d1 = emails d0 /\
  attachments d1 = attachments d0 /\
  (forall c, c ∈ companies d0 -> Company.is_active c = true ->
             has_reminder (Company.id c) target_month (reminders d1) = true) /\
  exists ext,
    reminders d1 = reminders d0 ++ ext /\
    Forall (fun r =>
              exists c, c ∈ companies d0 /\ Company.is_active c = true /\
                r = Reminder.mk (Reminder.id r) (Company.id c) target_month
                                expected 5 0 true false false None) ext.
Proof.
  intros X. cbv zeta. unfold create_monthly_reminders.
  destruct (create_for_companies_total target_month expected
              (filter (fun c => Company.is_active c) (companies d0))
              (reminders d0) X) as [rs' C].
  rewrite C. simpl. repeat (split; [done|]). split.
  - intros c I A. apply (proj2 (create_for_companies_covers _ _ _ _ C)).
    apply list_elem_of_filter. split; [by apply Is_true_true|done].
  - destruct (create_for_companies_rows _ _ _ _ _ X C) as (ext & -> & F).
    exists ext. split; [done|].
    eapply Forall_impl; [exact F|]. intros r (c & [A I]%list_elem_of_filter & E).
    exists c. split; [done|]. split; [by apply Is_true_true|done].
Qed.

Lemma create_monthly_reminders_covers_witness :
  exists ext,
    reminders (create_monthly_reminders june acme_db) = reminders acme_db ++ ext /\
    Forall (fun r =>
              exists c, c ∈ companies acme_db /\ Company.is_active c = true /\
                r = Reminder.mk (Reminder.id r) (Company.id c) june
                                (Date 2025 7 7) 5 0 true false false None) ext.
Proof.
  exact (proj2 (proj2 (proj2 (proj2 (proj2
           (create_monthly_reminders_covers june (Date 2025 7 7) acme_db eq_refl)))))).
Defined.

(** The due date is in the month after the reminder month. *)
Lemma _calculate_expected_date_later reminder_month expected today :
  _calculate_expected_date reminder_month = Return expected ->
  year today = year reminder_month ->
  month today = month reminder_month ->
  date_ltb today expected = true.
Proof.
  unfold _calculate_expected_date, date_new.
  destruct (month reminder_month =? 12) eqn:M.
  - destruct (valid_date _); [|done]. intros [= <-] Y Mo.
    unfold date_ltb. simpl. lia.
  - destruct (valid_date _); [|done]. intros [= <-] Y Mo.
    unfold date_ltb. simpl. lia.
Qed.

(** X7.  A reminder added by the monthly batch is not selected on any day
    of its own month: a tick of that month makes no call of the sink for
    it and leaves it as created. *)
Theorem batch_reminder_waits_for_next_month target_month d0 r now smtp :
  NoDup (Reminder.id <$> reminders d0) ->
  r ∈ reminders (create_monthly_reminders target_month d0) ->
  r ∉ reminders d0 ->
  year (dt_date now) = year target_month ->
  month (dt_date now) = month target_month ->
  let d1 := create_monthly_reminders target_month d0 in
  is_pending (dt_date now) r = false /\
  r ∈ reminders (process_daily_reminders now smtp d1).1 /\
  calls_for (Reminder.id r) (process_daily_reminders now smtp d1).2 = [].
Proof.
  intros N I New Y M. cbv zeta.
  assert (is_pending (dt_date now) r = false) as P.
  { destruct (_calculate_expected_date target_month) as [expected|e] eqn:X.
    - destruct (create_for_companies_total target_month expected
                  (filter (fun c => Company.is_active c) (companies d0))
                  (reminders d0) X) as [rs' C].
      destruct (create_for_companies_rows _ _ _ _ _ X C) as (ext & E & F).
      assert (reminders (create_monthly_reminders target_month d0) = rs') as Er.
      { unfold create_monthly_reminders. by rewrite C. }
      rewrite Er, E in I. apply elem_of_app in I as [I|I]; [done|].
      rewrite Forall_forall in F. destruct (F r I) as (c & _ & ->).
      apply not_true_iff_false. intros (_ & _ & _ & _ & D)%is_pending_spec.
      simpl in D. unfold date_leb in D.
      by rewrite (_calculate_expected_date_later target_month expected _ X Y M) in D.
    - exfalso. apply New. revert I. unfold create_monthly_reminders.
      destruct (create_for_companies _ _ _) as [rs|] eqn:C; simpl; [|done].
      destruct (create_for_companies_covers _ _ _ _ C) as [[ext ->] _].
      intros [I|I]%elem_of_app; [done|]. exfalso.
      clear New N. revert C I.
      generalize (reminders d0).
      induction (filter (fun c => Company.is_active c) (companies d0))
        as [|c cs IH]; intros rs; simpl.
      + intros [= E]. apply (f_equal length) in E. rewrite length_app in E.
        destruct ext; [by intros ?%elem_of_nil|simpl in E; lia].
      + destruct (has_reminder _ _ rs); [apply IH|]. by rewrite X. }
  split; [done|].
  apply tick_passes_by; [|done|done].
  apply (step_keeps_ids_NoDup (mkWorld d0 []) (CreateMonthly target_month) N).
Qed.

Lemma batch_reminder_waits_for_next_month_witness :
  calls_for 1 (process_daily_reminders (DateTime (Date 2025 6 30) 0) smtp_ok
                 (create_monthly_reminders june acme_db)).2 = [].
Proof.
  refine (proj2 (proj2 (batch_reminder_waits_for_next_month june acme_db
            (Reminder.mk 1 1 june (Date 2025 7 7) 5 0 true false false None)
            (DateTime (Date 2025 6 30) 0) smtp_ok _ _ _ eq_refl eq_refl))).
  - constructor.
  - vm_compute. apply list_elem_of_here.
  - by intros ?%elem_of_nil.
Defined.

(** ** X8: deleting a reminder *)

Lemma delete_row_get_same i rs :
  NoDup (Reminder.id <$> rs) ->
  head (filter (fun r => Reminder.id r =? i) (delete_row i rs)) = None.
Proof.
  induction rs as [|r rs IH]; [done|].
  rewrite fmap_cons, NoDup_cons. intros [N D]. simpl.
  destruct (Reminder.id r =? i) eqn:E.
  - apply Z.eqb_eq in E. subst i.
    rewrite filter_none; [done|].
    intros x I Ex%Is_true_true%Z.eqb_eq. apply N, list_elem_of_fmap. eauto.
  - rewrite head_filter_id_cons, E. by apply IH.
Qed.

Lemma delete_row_get_other i j rs :
  j <> i ->
  head (filter (fun r => Reminder.id r =? j) (delete_row i rs)) =
  head (filter (fun r => Reminder.id r =? j) rs).
Proof.
  intros Ne. induction rs as [|r rs IH]; [done|]. simpl.
  destruct (Reminder.id r =? i) eqn:E.
  - rewrite head_filter_id_cons.
    assert ((Reminder.id r =? j) = false) as -> by lia. done.
  - rewrite !head_filter_id_cons. by rewrite IH.
Qed.

Lemma get_reminder_elem d0 r :
  r ∈ reminders d0 -> get_reminder d0 (Reminder.id r) <> None.
Proof.
  unfold get_reminder. induction (reminders d0) as [|x rs IH];
    [by intros ?%elem_of_nil|].
  rewrite head_filter_id_cons. intros [->|I]%elem_of_cons.
  - by rewrite Z.eqb_refl.
  - destruct (_ =? _); [done|by apply IH].
Qed.

Lemma get_reminder_None d0 i :
  get_reminder d0 i = None <-> i ∉ (Reminder.id <$> reminders d0).
Proof.
  split.
  - intros G (r & -> & I)%list_elem_of_fmap. by apply (get_reminder_elem d0 r).
  - intros N. unfold get_reminder.
    destruct (head _) as [r|] eqn:H; [|done]. exfalso. apply N.
    apply head_Some_elem_of, list_elem_of_filter in H as [E I].
    apply Is_true_true, Z.eqb_eq in E. apply list_elem_of_fmap. eauto.
Qed.

(** Without a creation the identifiers of the table stay, and a tick
    calls the sink for identifiers of the table only. *)
Lemma step_keeps_ids w o :
  creates_nothing o ->
  Reminder.id <$> reminders (db (step w o)) = Reminder.id <$> reminders (db w).
Proof.
  destruct o as [now smtp|tm|rem|i data|i|i|es|cs ces]; simpl; try done; intros _.
  - destruct (step_outbox_tick now smtp w) as [_ E]. simpl in E. rewrite E.
    by rewrite process_daily_reminders_rows, process_rows_ids.
  - unfold update_reminder. destruct (get_reminder _ _); simpl; [|done].
    apply update_row_fmap. intros r. unfold setattrs. by repeat case_match.
  - unfold stop. destruct (get_reminder _ _); simpl; [|done].
    by apply update_row_fmap.
  - unfold restart. destruct (get_reminder _ _); simpl; [|done].
    by apply update_row_fmap.
Qed.

Lemma step_calls_absent w o i :
  i ∉ (Reminder.id <$> reminders (db w)) ->
  calls_for i (outbox (step w o)) = calls_for i (outbox w).
Proof.
  intros N. destruct o as [now smtp|tm|rem|j data|j|j|es|cs ces]; try done.
  destruct (step_outbox_tick now smtp w) as [-> _].
  rewrite calls_for_app, (calls_for_others i (process_daily_reminders _ _ _).2).
  - by rewrite app_nil_r.
  - intros d. rewrite process_daily_reminders_log.
    intros (r & I & Id%tick_row_log_id)%process_rows_log E.
    apply N, list_elem_of_fmap. exists r. split; [congruence|done].
Qed.

Lemma run_without_reminder ops w i :
  Forall creates_nothing ops ->
  i ∉ (Reminder.id <$> reminders (db w)) ->
  (i ∉ (Reminder.id <$> reminders (db (run ops w)))) /\
  calls_for i (outbox (run ops w)) = calls_for i (outbox w).
Proof.
  intros F. revert w. induction F as [|o ops Fo _ IH]; intros w N; [done|].
  rewrite run_cons.
  destruct (IH (step w o)) as [N' C'].
  { by rewrite step_keeps_ids. }
  split; [done|]. rewrite C'. by apply step_calls_absent.
Qed.

(** X8.  [delete_reminder] answers 404 for an identifier that is not in
    the table and then leaves the database as it is; otherwise the table
    loses one row, the reminder can no longer be fetched and every other
    reminder is fetched as before.  From then on, along every sequence
    of ticks, updates, stops and restarts, and whatever happens to the
    other tables, the identifier stays out of the table and no tick calls
    the sink for it; this holds as long as no reminder is created, a new
    reminder taking the first identifier above those of the table. *)
Theorem delete_reminder_removes reminder_id d0 :
  NoDup (Reminder.id <$> reminders d0) ->
  let d1 := (delete_reminder reminder_id d0).1 in
  get_reminder d1 reminder_id = None /\
  (forall j, j <> reminder_id -> get_reminder d1 j = get_reminder d0 j) /\
  (get_reminder d0 reminder_id = None ->
   delete_reminder reminder_id d0 = (d0, HTTPException 404)) /\
  (get_reminder d0 reminder_id <> None ->
   (delete_reminder reminder_id d0).2 = Ok tt /\
   length (reminders d0) = Datatypes.S (length (reminders d1))) /\
  (forall now smtp,
      calls_for reminder_id (process_daily_reminders now smtp d1).2 = []) /\
  (forall ops log,
      Forall creates_nothing ops ->
      get_reminder (db (run ops (mkWorld d1 log))) reminder_id = None /\
      calls_for reminder_id (outbox (run ops (mkWorld d1 log))) =
        calls_for reminder_id log).
Proof.
  intros N. cbv zeta.
  assert (get_reminder (delete_reminder reminder_id d0).1 reminder_id = None) as G.
  { unfold delete_reminder. destruct (get_reminder d0 reminder_id) eqn:E; [|done].
    simpl. unfold get_reminder. simpl. by apply delete_row_get_same. }
  split; [done|]. split; [|split; [|split; [|split]]].
  - intros j Ne. unfold delete_reminder.
    destruct (get_reminder d0 reminder_id); [|done]. simpl.
    unfold get_reminder. simpl. by apply delete_row_get_other.
  - intros E. unfold delete_reminder. by rewrite E.
  - unfold delete_reminder, get_reminder.
    destruct (head _) eqn:E; [|done]. intros _. split; [done|]. simpl.
    clear N G. revert E. induction (reminders d0) as [|x rs IH]; [done|].
    rewrite head_filter_id_cons. simpl.
    destruct (_ =? _); [done|]. intros E. simpl. f_equal. by apply IH.
  - intros now smtp. apply calls_for_others. intros d.
    rewrite process_daily_reminders_log.
    intros (r & I & Id%tick_row_log_id)%process_rows_log E.
    apply (get_reminder_elem _ r I). congruence.
  - intros ops log F. apply get_reminder_None in G.
    destruct (run_without_reminder ops
                (mkWorld (delete_reminder reminder_id d0).1 log) reminder_id F G)
      as [N' C'].
    split; [by apply get_reminder_None|done].
Qed.

Lemma delete_reminder_removes_witness :
  let d0 := db (run [CreateMonthly june] acme_world) in
  calls_for 1
    (outbox (run [Tick july_8 smtp_ok; Restart 1; SetEmails [gst_june];
                  Update 1 (ReminderUpdate.mk (Some 9) (Some true) (Some false));
                  Tick july_9 smtp_ok]
                 (mkWorld (delete_reminder 1 d0).1 []))) = [].
Proof.
  intros d0.
  refine (proj2 (proj2 (proj2 (proj2 (proj2 (proj2
            (delete_reminder_removes 1 d0 _))))) _ [] _)).
  - vm_compute. apply NoDup_singleton.
  - repeat constructor.
Defined.

(** ** X9: stopping and restarting *)

Lemma update_row_fixed i f rs obj :
  head (filter (fun r => Reminder.id r =? i) rs) = Some obj ->
  f obj = obj -> update_row i f rs = rs.
Proof.
  intros G F. induction rs as [|r rs IH]; [done|]. simpl.
  rewrite head_filter_id_cons in G. destruct (Reminder.id r =? i).
  - injection G as ->. by rewrite F.
  - by rewrite IH.
Qed.

Lemma update_row_twice i f g rs :
  (forall r, Reminder.id (f r) = Reminder.id r) ->
  update_row i g (update_row i f rs) = update_row i (fun r => g (f r)) rs.
Proof.
  intros Hf. induction rs as [|r rs IH]; [done|]. simpl.
  destruct (Reminder.id r =? i) eqn:E; simpl.
  - by rewrite Hf, E.
  - by rewrite E, IH.
Qed.

Lemma with_reminders_same d0 : with_reminders (reminders d0) d0 = d0.
Proof. by destruct d0. Qed.

(** X9.  On an existing reminder a second [stop] changes nothing and a
    second [restart] changes nothing; [restart] undoes [stop] on a
    reminder that was active and not stopped, and [stop] undoes [restart]
    on a reminder that was active and stopped. *)
Theorem stop_restart_round_trip reminder_id d0 obj :
  get_reminder d0 reminder_id = Some obj ->
  stop reminder_id (stop reminder_id d0).1 = stop reminder_id d0 /\
  restart reminder_id (restart reminder_id d0).1 = restart reminder_id d0 /\
  (Reminder.is_active obj = true -> Reminder.manual_stop obj = false ->
   (restart reminder_id (stop reminder_id d0).1).1 = d0) /\
  (Reminder.is_active obj = true -> Reminder.manual_stop obj = true ->
   (stop reminder_id (restart reminder_id d0).1).1 = d0).
Proof.
  intros G.
  assert (forall f, (forall r, Reminder.id (f r) = Reminder.id r) ->
            get_reminder
              (with_reminders (update_row reminder_id f (reminders d0)) d0)
              reminder_id = Some (f obj)) as Get.
  { intros f Hf. unfold get_reminder. simpl. by apply update_row_get. }
  unfold stop, restart. rewrite G. simpl.
  rewrite (Get (Reminder.with_manual_stop true)) by done.
  rewrite (Get restart_fields) by done. simpl.
  unfold with_reminders. simpl. rewrite !update_row_twice by done.
  split; [reflexivity|]. split; [reflexivity|]. split.
  - intros A M. rewrite (update_row_fixed _ _ _ obj G).
    + by destruct d0.
    + destruct obj. simpl in *. by subst.
  - intros A M. rewrite (update_row_fixed _ _ _ obj G).
    + by destruct d0.
    + destruct obj. simpl in *. by subst.
Qed.

Lemma stop_restart_round_trip_witness :
  let d0 := db (run [CreateMonthly june; Tick july_8 smtp_ok] acme_world) in
  (restart 1 (stop 1 d0).1).1 = d0.
Proof.
  intros d0.
  refine (proj1 (proj2 (proj2 (stop_restart_round_trip 1 d0
            (Reminder.mk 1 1 june (Date 2025 7 7) 5 1 true false false (Some july_8))
            eq_refl))) eq_refl eq_refl).
Defined.

(** ** X10, X11: whom a notification is sent to *)

Lemma tick_row_mail now smtp d0 r d :
  d ∈ (tick_row now smtp d0 r).2 ->
  exists company,
    company_of d0 (Reminder.company_id r) = Some company /\
    recipients (mail d) =
      ClientEmail.email <$>
        filter (fun e => ClientEmail.is_active e) (client_emails_of d0 company) /\
    recipients (mail d) <> [] /\
    company_name (mail d) = Company.name company /\
    about_month (mail d) = Reminder.reminder_month r /\
    delivered d = smtp (Reminder.id r) (mail d).
Proof.
  unfold tick_row. destruct (is_pending _ r); [|by intros ?%elem_of_nil].
  unfold _process_reminder.
  destruct (_check_gst_received d0 r); [by intros ?%elem_of_nil|].
  destruct (negb _); [by intros ?%elem_of_nil|].
  destruct (company_of d0 _) as [company|]; [|by intros ?%elem_of_nil].
  destruct (send_gst_reminder_uniform d0 company (Reminder.reminder_month r))
    as [E|(m & R & Ne & Na & Mo & E)]; rewrite E.
  - by intros ?%elem_of_nil.
  - intros I. exists company. split; [done|].
    assert (d = mkDispatch (Reminder.id r) m now (smtp (Reminder.id r) m)) as ->.
    { destruct (smtp (Reminder.id r) m); simpl in I.
      - destruct (_ <=? _); by apply list_elem_of_singleton in I.
      - by apply list_elem_of_singleton in I. }
    done.
Qed.

(** X10.  Every notification of a tick goes to the active addresses of
    the company of its reminder, all of them and in the order of the
    table, and there is at least one; it names that company and the month
    of the reminder; whether the company itself is active plays no part. *)
Theorem dispatch_goes_to_active_addresses now smtp d0 d :
  d ∈ (process_daily_reminders now smtp d0).2 ->
  exists r company,
    r ∈ reminders d0 /\
    Reminder.id r = for_reminder d /\
    company_of d0 (Reminder.company_id r) = Some company /\
    recipients (mail d) =
      ClientEmail.email <$>
        filter (fun e => ClientEmail.is_active e) (client_emails_of d0 company) /\
    recipients (mail d) <> [] /\
    company_name (mail d) = Company.name company /\
    about_month (mail d) = Reminder.reminder_month r /\
    delivered d = smtp (Reminder.id r) (mail d).
Proof.
  rewrite process_daily_reminders_log. intros (r & I & Id)%process_rows_log.
  destruct (tick_row_mail now smtp d0 r d Id) as (company & H).
  exists r, company. split; [done|]. split; [|done].
  symmetry. by eapply tick_row_log_id.
Qed.

Lemma dispatch_goes_to_active_addresses_witness :
  let d0 := db (run [CreateMonthly june] acme_world) in
  let d := mkDispatch 1 (mkMail ["a@x"%string] "Acme" june) july_8 true in
  exists r company,
    r ∈ reminders d0 /\
    Reminder.id r = for_reminder d /\
    company_of d0 (Reminder.company_id r) = Some company /\
    recipients (mail d) =
      ClientEmail.email <$>
        filter (fun e => ClientEmail.is_active e) (client_emails_of d0 company) /\
    recipients (mail d) <> [] /\
    company_name (mail d) = Company.name company /\
    about_month (mail d) = Reminder.reminder_month r /\
    delivered d = smtp_ok (Reminder.id r) (mail d).
Proof.
  intros d0 d. apply (dispatch_goes_to_active_addresses july_8 smtp_ok d0 d).
  vm_compute. apply list_elem_of_here.
Defined.

(** X11.  A reminder whose company row is missing, or whose company has
    no active address, is never notified: the tick makes no call of the
    sink for it, and unless compliance is received it leaves the reminder
    exactly as it is, counter and [is_active] included. *)
Theorem no_active_address_no_dispatch now smtp d0 r :
  NoDup (Reminder.id <$> reminders d0) ->
  r ∈ reminders d0 ->
  (forall company,
      company_of d0 (Reminder.company_id r) = Some company ->
      filter (fun e => ClientEmail.is_active e) (client_emails_of d0 company) = []) ->
  calls_for (Reminder.id r) (process_daily_reminders now smtp d0).2 = [] /\
  (_check_gst_received d0 r = false ->
   r ∈ reminders (process_daily_reminders now smtp d0).1).
Proof.
  intros N I A.
  assert ((tick_row now smtp d0 r).2 = []) as L.
  { destruct (tick_row now smtp d0 r).2 as [|d l] eqn:E; [done|]. exfalso.
    destruct (tick_row_mail now smtp d0 r d) as (company & C & R & Ne & _).
    { rewrite E. apply list_elem_of_here. }
    apply Ne. rewrite R. by rewrite (A company C). }
  rewrite process_daily_reminders_log, process_daily_reminders_rows.
  rewrite calls_for_process_rows by done. rewrite L. split; [done|].
  intros G. pose proof (process_rows_elem now smtp d0 _ r I) as I'.
  destruct (tick_row_full now smtp d0 r)
    as [[E _]|[(_ & G' & _)|[(m & _ & _ & _ & E)|(m & _ & _ & _ & E)]]].
  - by rewrite E in I'.
  - congruence.
  - by rewrite E in L.
  - by rewrite E in L.
Qed.

Lemma no_active_address_no_dispatch_witness :
  let d0 :=
    mkDB [Company.mk 1 "Acme" true] [ClientEmail.mk 1 "a@x" (Some 1) false] [] []
         [Reminder.mk 1 1 june (Date 2025 7 7) 5 0 true false false None] in
  calls_for 1 (process_daily_reminders july_8 smtp_ok d0).2 = [].
Proof.
  intros d0.
  refine (proj1 (no_active_address_no_dispatch july_8 smtp_ok d0
            (Reminder.mk 1 1 june (Date 2025 7 7) 5 0 true false false None) _ _ _)).
  - vm_compute. apply NoDup_singleton.
  - apply list_elem_of_here.
  - intros company [= <-]. reflexivity.
Defined.

(** ** X12: the registered addresses *)

Lemma registered_addresses_spec db ces :
  (Forall (fun ce => is_Some (ClientEmail.company_id ce ≫= company_of db)) ces /\
   registered_addresses db ces =
     Return (ClientEmail.email <$> filter (fun ce => of_active_company db ce) ces)) \/
  (Exists (fun ce => ClientEmail.company_id ce ≫= company_of db = None) ces /\
   exists e, registered_addresses db ces = Raise e).
Proof.
  induction ces as [|ce ces IH]; [left; split; [constructor|done]|].
  simpl. rewrite filter_cons.
  destruct (ClientEmail.company_id ce ≫= company_of db) as [company|] eqn:C.
  - assert (of_active_company db ce = Company.is_active company) as Ea.
    { unfold of_active_company. by rewrite C. }
    simpl. destruct IH as [[F ->]|[X [e ->]]].
    + left. split; [constructor; [by eexists|done]|]. simpl.
      destruct (decide _) as [i|n]; rewrite Ea in *.
      * by destruct (Company.is_active company).
      * by destruct (Company.is_active company); [destruct n|].
    + right. split; [by apply Exists_cons_tl|]. simpl. eauto.
  - right. split; [by apply Exists_cons_hd|]. simpl. eauto.
Qed.

(** X12.  [get_registered_emails] gives, in the order of the table, the
    active addresses whose company is active, provided every active
    address has a company row; one active address without company row
    makes the comprehension fail, and the result is then the empty list:
    no address at all is polled. *)
Theorem get_registered_emails_spec d0 :
  let active := filter (fun ce => ClientEmail.is_active ce) (client_emails d0) in
  (Forall (fun ce => is_Some (ClientEmail.company_id ce ≫= company_of d0)) active ->
   get_registered_emails d0 =
     ClientEmail.email <$> filter (fun ce => of_active_company d0 ce) active) /\
  (Exists (fun ce => ClientEmail.company_id ce ≫= company_of d0 = None) active ->
   get_registered_emails d0 = []).
Proof.
  cbv zeta. unfold get_registered_emails.
  destruct (registered_addresses_spec d0
              (filter (fun ce => ClientEmail.is_active ce) (client_emails d0)))
    as [[F ->]|[X [e ->]]]; simpl.
  - split; [done|]. intros (ce & I & N)%Exists_exists.
    rewrite Forall_forall in F. destruct (F ce I) as [c C]. congruence.
  - split; [|done]. intros F. apply Exists_exists in X as (ce & I & N).
    rewrite Forall_forall in F. destruct (F ce I) as [c C]. congruence.
Qed.

Lemma get_registered_emails_spec_witness :
  get_registered_emails acme_db = ["a@x"%string] /\
  get_registered_emails
    (mkDB [Company.mk 1 "Acme" true]
          [ClientEmail.mk 1 "a@x" (Some 1) true; ClientEmail.mk 2 "b@y" None true]
          [] [] []) = [].
Proof.
  split.
  - refine (proj1 (get_registered_emails_spec acme_db) _).
    repeat constructor. by eexists.
  - refine (proj2 (get_registered_emails_spec _) _).
    apply Exists_cons_tl, Exists_cons_hd. reflexivity.
Defined.

(** ** X13: a second poll *)

Lemma _save_attachment_companies S message part email_record st :
  companies (store (_save_attachment S message part email_record st)) =
    companies (store st) /\
  client_emails (store (_save_attachment S message part email_record st)) =
    client_emails (store st).
Proof.
  unfold _save_attachment. destruct (Part.body part); [|done].
  destruct (negb _); [done|].
  by destruct (_ ≫= _) as [[w r]|].
Qed.

Lemma _process_attachments_companies S message email_record st :
  companies (store (_process_attachments S message email_record st)) =
    companies (store st) /\
  client_emails (store (_process_attachments S message email_record st)) =
    client_emails (store st).
Proof.
  unfold _process_attachments. destruct (Part.parts _) as [parts|]; [|done].
  revert st. induction parts as [|p parts IH]; intros st; simpl; [done|].
  destruct (IH (if truthy_str (Part.filename p)
                then _save_attachment S message p email_record st else st))
    as [-> ->].
  destruct (truthy_str _); [|done]. apply _save_attachment_companies.
Qed.

Lemma _process_email_companies S message_id sender_email st :
  companies (store (_process_email S message_id sender_email st)) =
    companies (store st) /\
  client_emails (store (_process_email S message_id sender_email st)) =
    client_emails (store st).
Proof.
  unfold _process_email. destruct (message_exists _ _); [done|].
  cbv zeta. destruct (gmail_get S message_id) as [message|e]; [|done].
  destruct (classify_email S _) as [[classified ok]|e]; simpl;
    match goal with
    | |- context [_process_attachments S message ?r ?s] =>
        destruct (_process_attachments_companies S message r s) as [-> ->]
    end;
    done.
Qed.

Lemma get_registered_emails_ext d d' :
  companies d = companies d' -> client_emails d = client_emails d' ->
  get_registered_emails d = get_registered_emails d'.
Proof.
  intros Ec Ee. unfold get_registered_emails. rewrite Ee. f_equal.
  induction (filter _ (client_emails d')) as [|ce ces IH]; [done|].
  simpl. unfold company_of. by rewrite Ec, IH.
Qed.

Lemma process_messages_cons S email_address message_id messages st :
  process_messages S email_address (message_id :: messages) st =
  process_messages S email_address messages
    (_process_email S message_id email_address st).
Proof. done. Qed.

Lemma fetch_from_all_cons S list_unread email_address rest st n :
  fetch_from_all S list_unread (email_address :: rest) st n =
  fetch_from_all S list_unread rest
    (_fetch_from_email S list_unread email_address st).1
    (n + listed_count list_unread email_address).
Proof.
  simpl. unfold _fetch_from_email, listed_count.
  by destruct (list_unread email_address).
Qed.

Lemma fetch_from_all_count S list_unread addresses st n :
  (fetch_from_all S list_unread addresses st n).2 =
  n + foldr Z.add 0 (listed_count list_unread <$> addresses).
Proof.
  revert st n. induction addresses as [|a rest IH]; intros st n.
  - simpl. lia.
  - rewrite fetch_from_all_cons, IH, fmap_cons. simpl. lia.
Qed.

Lemma process_messages_companies S email_address messages st :
  companies (store (process_messages S email_address messages st)) =
    companies (store st) /\
  client_emails (store (process_messages S email_address messages st)) =
    client_emails (store st).
Proof.
  revert st. induction messages as [|m ms IH]; intros st; [done|].
  rewrite process_messages_cons.
  destruct (IH (_process_email S m email_address st)) as [-> ->].
  apply _process_email_companies.
Qed.

Lemma _fetch_from_email_companies S list_unread email_address st :
  companies (store (_fetch_from_email S list_unread email_address st).1) =
    companies (store st) /\
  client_emails (store (_fetch_from_email S list_unread email_address st).1) =
    client_emails (store st).
Proof.
  unfold _fetch_from_email. destruct (list_unread _); [|done].
  apply process_messages_companies.
Qed.

Lemma fetch_from_all_companies S list_unread addresses st n :
  companies (store (fetch_from_all S list_unread addresses st n).1) =
    companies (store st) /\
  client_emails (store (fetch_from_all S list_unread addresses st n).1) =
    client_emails (store st).
Proof.
  revert st n. induction addresses as [|a rest IH]; intros st n; [done|].
  rewrite fetch_from_all_cons.
  destruct (IH (_fetch_from_email S list_unread a st).1
               (n + listed_count list_unread a)) as [-> ->].
  apply _fetch_from_email_companies.
Qed.

(** A message that is handled leaves the tables and the disk alone. *)
Lemma _process_email_settled S message_id sender_email st :
  handled S (store st) message_id ->
  store (_process_email S message_id sender_email st) = store st /\
  disk (_process_email S message_id sender_email st) = disk st.
Proof.
  intros H. unfold _process_email.
  destruct (message_exists (store st) message_id) eqn:E; [done|].
  destruct H as [H|[e H]]; [congruence|]. cbv zeta. by rewrite H.
Qed.

Lemma _process_email_emails S message_id sender_email st :
  exists ext,
    emails (store (_process_email S message_id sender_email st)) =
    emails (store st) ++ ext.
Proof.
  destruct (message_exists (store st) message_id) eqn:E.
  - exists []. unfold _process_email. by rewrite E, app_nil_r.
  - destruct (gmail_get S message_id) as [message|e] eqn:G.
    + apply message_exists_not_stored in E.
      destruct (_process_email_new S message_id sender_email st message E G)
        as (-> & _). by eexists.
    + exists []. unfold _process_email. cbv zeta. by rewrite E, G, app_nil_r.
Qed.

Lemma _process_email_handles S message_id sender_email st :
  handled S (store (_process_email S message_id sender_email st)) message_id.
Proof.
  destruct (message_exists (store st) message_id) eqn:E.
  - unfold _process_email. rewrite E. by left.
  - destruct (gmail_get S message_id) as [message|e] eqn:G.
    + left. apply message_exists_stored. apply message_exists_not_stored in E.
      by rewrite (stored_emails_new S message_id sender_email st message E G).
    + right. eauto.
Qed.

Lemma _process_email_handled_mono S message_id sender_email st m :
  handled S (store st) m ->
  handled S (store (_process_email S message_id sender_email st)) m.
Proof.
  intros [H|H]; [left|by right].
  apply message_exists_stored in H. apply message_exists_stored.
  destruct (_process_email_emails S message_id sender_email st) as [ext E].
  unfold stored_emails in *. rewrite E, filter_app.
  intros [N _]%app_eq_nil. done.
Qed.

Lemma process_messages_handled S email_address messages st :
  (forall m, handled S (store st) m ->
             handled S (store (process_messages S email_address messages st)) m) /\
  (forall m, m ∈ messages ->
             handled S (store (process_messages S email_address messages st)) m).
Proof.
  revert st. induction messages as [|x ms IH]; intros st.
  - split; [done|]. by intros m ?%elem_of_nil.
  - rewrite process_messages_cons.
    destruct (IH (_process_email S x email_address st)) as [Mono New].
    split.
    + intros m H. by apply Mono, _process_email_handled_mono.
    + intros m [->|I]%elem_of_cons; [|by apply New].
      apply Mono, _process_email_handles.
Qed.

Lemma fetch_from_all_handled S list_unread addresses st n :
  (forall m, handled S (store st) m ->
             handled S (store (fetch_from_all S list_unread addresses st n).1) m) /\
  (forall a ms m,
      a ∈ addresses -> list_unread a = Return ms -> m ∈ ms ->
      handled S (store (fetch_from_all S list_unread addresses st n).1) m).
Proof.
  revert st n. induction addresses as [|x rest IH]; intros st n.
  - split; [done|]. by intros a ms m ?%elem_of_nil.
  - rewrite fetch_from_all_cons.
    destruct (IH (_fetch_from_email S list_unread x st).1
                 (n + listed_count list_unread x)) as [Mono New].
    assert (forall m, handled S (store st) m ->
              handled S (store (_fetch_from_email S list_unread x st).1) m) as Mono1.
    { intros m H. unfold _fetch_from_email.
      destruct (list_unread x) as [ms|]; [|done].
      by apply (proj1 (process_messages_handled S x ms st)). }
    split.
    + intros m H. by apply Mono, Mono1.
    + intros a ms m [->|I]%elem_of_cons L Im; [|by eapply New].
      apply Mono. unfold _fetch_from_email. rewrite L.
      by apply (proj2 (process_messages_handled S x ms st)).
Qed.

Lemma process_messages_settled S email_address messages st :
  (forall m, m ∈ messages -> handled S (store st) m) ->
  store (process_messages S email_address messages st) = store st /\
  disk (process_messages S email_address messages st) = disk st.
Proof.
  revert st. induction messages as [|x ms IH]; intros st H; [done|].
  rewrite process_messages_cons.
  destruct (_process_email_settled S x email_address st) as [Es Ed].
  { apply H, list_elem_of_here. }
  destruct (IH (_process_email S x email_address st)) as [-> ->]; [|done].
  intros m I. rewrite Es. by apply H, list_elem_of_further.
Qed.

Lemma fetch_from_all_settled S list_unread addresses st n :
  (forall a ms m,
      a ∈ addresses -> list_unread a = Return ms -> m ∈ ms ->
      handled S (store st) m) ->
  store (fetch_from_all S list_unread addresses st n).1 = store st /\
  disk (fetch_from_all S list_unread addresses st n).1 = disk st.
Proof.
  revert st n. induction addresses as [|x rest IH]; intros st n H; [done|].
  rewrite fetch_from_all_cons.
  assert (store (_fetch_from_email S list_unread x st).1 = store st /\
          disk (_fetch_from_email S list_unread x st).1 = disk st) as [Es Ed].
  { unfold _fetch_from_email. destruct (list_unread x) as [ms|] eqn:L; [|done].
    apply process_messages_settled. intros m I.
    eapply H; [apply list_elem_of_here|done|done]. }
  destruct (IH (_fetch_from_email S list_unread x st).1
               (n + listed_count list_unread x)) as [-> ->]; [|done].
  intros a ms m I L Im. rewrite Es. eapply H; [|done|done].
  by apply list_elem_of_further.
Qed.

(** X13.  A poll returns the number of messages Gmail lists for the
    registered addresses, an address whose listing fails counting for
    zero, whether or not the messages were stored before; and a second
    poll with the same answers of Gmail returns the same number and
    leaves every table and the disk as the first poll left them. *)
Theorem fetch_unread_emails_again S list_unread st :
  let poll := fetch_unread_emails S list_unread true in
  (poll st).2 =
    foldr Z.add 0 (listed_count list_unread <$> get_registered_emails (store st)) /\
  (poll (poll st).1).2 = (poll st).2 /\
  store (poll (poll st).1).1 = store (poll st).1 /\
  disk (poll (poll st).1).1 = disk (poll st).1.
Proof.
  cbv zeta. unfold fetch_unread_emails. simpl.
  set (addresses := get_registered_emails (store st)).
  set (st1 := (fetch_from_all S list_unread addresses st 0).1).
  assert (get_registered_emails (store st1) = addresses) as ->.
  { destruct (fetch_from_all_companies S list_unread addresses st 0) as [Ec Ee].
    by apply get_registered_emails_ext. }
  rewrite !fetch_from_all_count. split; [lia|]. split; [done|].
  apply fetch_from_all_settled. intros a ms m I L Im.
  by apply (proj2 (fetch_from_all_handled S list_unread addresses st 0) a ms m).
Qed.

(** ** X14, X15: what a poll adds *)

(** What [_save_attachment] adds: nothing, or one file and its row. *)
Lemma _save_attachment_rows S message part email_record st :
  let st1 := _save_attachment S message part email_record st in
  emails (store st1) = emails (store st) /\
  ((attachments (store st1) = attachments (store st) /\ disk st1 = disk st) \/
   (exists a w,
       attachments (store st1) = attachments (store st) ++ [a] /\
       disk st1 = disk st ++ [w] /\
       Attachment.id a = fresh_id (Attachment.id <$> attachments (store st)) /\
       Attachment.email_id a = Email.id email_record /\
       Attachment.file_path_ a = w.1 /\
       (Email.primary_category email_record = None -> is_temp w.1 = true))).
Proof.
  cbv zeta. split; [apply _save_attachment_emails|].
  unfold _save_attachment. destruct (Part.body part) as [body|]; [|by left].
  destruct (negb _); [by left|].
  destruct (gmail_attachment S _ _) as [file_data|]; simpl; [|by left].
  unfold store_attachment.
  destruct (Part.filename part) as [filename|]; simpl; [|by left].
  destruct (Email.company_id email_record ≫= company_of (store st)) as [company|].
  - destruct (truthy_str (Email.primary_category email_record)) eqn:T.
    + unfold save_attachment, create_storage_path.
      destruct (_ && _); simpl; [|by left].
      destruct (write_file S _); simpl; [|by left].
      right. eexists _, _. repeat (split; [done|]).
      intros N. by rewrite N in T.
    + destruct (write_file S _); simpl; [|by left].
      right. eexists _, _. by repeat (split; [done|]).
  - destruct (write_file S _); simpl; [|by left].
    right. eexists _, _. by repeat (split; [done|]).
Qed.

Lemma _process_attachments_rows S message email_record st :
  let st1 := _process_attachments S message email_record st in
  exists rows files,
    attachments (store st1) = attachments (store st) ++ rows /\
    disk st1 = disk st ++ files /\
    Forall (fun a => Attachment.email_id a = Email.id email_record) rows /\
    (NoDup (Attachment.id <$> attachments (store st)) ->
     NoDup (Attachment.id <$> attachments (store st1))) /\
    (Email.primary_category email_record = None ->
     Forall (fun w => is_temp w.1 = true) files /\
     Forall (fun a => is_temp (Attachment.file_path_ a) = true) rows).
Proof.
  cbv zeta. unfold _process_attachments.
  destruct (Part.parts _) as [parts|];
    [|exists [], []; by rewrite !app_nil_r].
  revert st. induction parts as [|p parts IH]; intros st; simpl.
  { exists [], []. by rewrite !app_nil_r. }
  set (st0 := if truthy_str (Part.filename p)
              then _save_attachment S message p email_record st else st).
  assert ((attachments (store st0) = attachments (store st) /\ disk st0 = disk st) \/
          (exists a w,
              attachments (store st0) = attachments (store st) ++ [a] /\
              disk st0 = disk st ++ [w] /\
              Attachment.id a = fresh_id (Attachment.id <$> attachments (store st)) /\
              Attachment.email_id a = Email.id email_record /\
              Attachment.file_path_ a = w.1 /\
              (Email.primary_category email_record = None -> is_temp w.1 = true)))
    as Step.
  { unfold st0. destruct (truthy_str _); [|by left].
    apply _save_attachment_rows. }
  destruct (IH st0) as (rows & files & Ea & Ed & F & N & T).
  destruct Step as [[Ea0 Ed0]|(a & w & Ea0 & Ed0 & Ia & Re & Pa & Tw)].
  - exists rows, files. rewrite Ea, Ed, Ea0, Ed0. split; [done|]. split; [done|].
    split; [done|]. split; [|done]. intros D. rewrite <- Ea0, <- Ea. apply N.
    by rewrite Ea0.
  - exists (a :: rows), (w :: files). rewrite Ea, Ed, Ea0, Ed0, <- !app_assoc.
    split; [done|]. split; [done|]. split; [by constructor|]. split.
    + intros D. rewrite (app_assoc _ [a] rows), <- Ea0, <- Ea. apply N.
      rewrite Ea0, fmap_app. simpl. rewrite Ia. by apply NoDup_fresh_id.
    + intros C. destruct (T C) as [Tf Tr]. split; constructor; try done.
      * by apply Tw.
      * rewrite Pa. by apply Tw.
Qed.

(** What [_process_email] adds to the tables and to the disk. *)
Lemma _process_email_adds S message_id sender_email st :
  let st1 := _process_email S message_id sender_email st in
  exists new rows files,
    emails (store st1) = emails (store st) ++ new /\
    attachments (store st1) = attachments (store st) ++ rows /\
    disk st1 = disk st ++ files /\
    Forall (fun w => is_temp w.1 = true) files /\
    Forall (fun a => is_temp (Attachment.file_path_ a) = true) rows /\
    (keys_ok (store st) -> keys_ok (store st1)).
Proof.
  cbv zeta.
  destruct (message_exists (store st) message_id) eqn:E.
  { unfold _process_email. rewrite E. exists [], [], []. by rewrite !app_nil_r. }
  destruct (gmail_get S message_id) as [message|e] eqn:G.
  2:{ unfold _process_email. cbv zeta. rewrite E, G. simpl.
      exists [], [], []. by rewrite !app_nil_r. }
  apply message_exists_not_stored in E.
  destruct (_process_email_new S message_id sender_email st message E G)
    as (Em & At & Di & _).
  set (email_record := new_email_record S message_id sender_email message (store st))
    in *.
  set (added := with_store
                  (with_emails (emails (store st) ++ [email_record]) (store st))
                  (log_call (GmailGet message_id) st)) in *.
  destruct (_process_attachments_rows S message email_record added)
    as (rows & files & Ea & Ed & F & N & T).
  destruct (T eq_refl) as [Tf Tr].
  destruct (stored_record_keeps S email_record) as (Ki & Km & _).
  eexists _, rows, files. split; [exact Em|]. rewrite At, Di.
  split; [exact Ea|]. split; [exact Ed|]. split; [done|]. split; [done|].
  intros (Ni & Nm & Na & Ref). unfold keys_ok. rewrite Em, At, !fmap_app. simpl.
  rewrite Ki, Km. simpl. split; [by apply NoDup_fresh_id|]. split; [|split].
  - apply NoDup_app. split; [done|]. split; [|apply NoDup_singleton].
    intros m Im ->%list_elem_of_singleton.
    apply list_elem_of_fmap in Im as (e & Me & Ie).
    assert (e ∈ stored_emails message_id (store st)) as Is.
    { apply list_elem_of_filter. split; [|done].
      apply Is_true_true. rewrite <- Me. apply String.eqb_refl. }
    rewrite E in Is. by apply elem_of_nil in Is.
  - by apply N.
  - intros a. rewrite Ea. intros [I|I]%elem_of_app.
    + apply elem_of_app. left. by apply Ref.
    + apply elem_of_app. right. rewrite Forall_forall in F. rewrite (F a I).
      apply list_elem_of_here.
Qed.

Lemma process_messages_adds S email_address messages st :
  let st1 := process_messages S email_address messages st in
  exists new rows files,
    emails (store st1) = emails (store st) ++ new /\
    attachments (store st1) = attachments (store st) ++ rows /\
    disk st1 = disk st ++ files /\
    Forall (fun w => is_temp w.1 = true) files /\
    Forall (fun a => is_temp (Attachment.file_path_ a) = true) rows /\
    (keys_ok (store st) -> keys_ok (store st1)).
Proof.
  cbv zeta. revert st. induction messages as [|m ms IH]; intros st.
  { exists [], [], []. by rewrite !app_nil_r. }
  rewrite process_messages_cons.
  destruct (_process_email_adds S m email_address st)
    as (new0 & rows0 & files0 & Em0 & Ea0 & Ed0 & Tf0 & Tr0 & K0).
  destruct (IH (_process_email S m email_address st))
    as (new & rows & files & -> & -> & -> & Tf & Tr & K).
  exists (new0 ++ new), (rows0 ++ rows), (files0 ++ files).
  rewrite Em0, Ea0, Ed0, <- !app_assoc. repeat (split; [done|]).
  split; [by apply Forall_app|]. split; [by apply Forall_app|]. auto.
Qed.

Lemma fetch_from_all_adds S list_unread addresses st n :
  let st1 := (fetch_from_all S list_unread addresses st n).1 in
  exists new rows files,
    emails (store st1) = emails (store st) ++ new /\
    attachments (store st1) = attachments (store st) ++ rows /\
    disk st1 = disk st ++ files /\
    Forall (fun w => is_temp w.1 = true) files /\
    Forall (fun a => is_temp (Attachment.file_path_ a) = true) rows /\
    (keys_ok (store st) -> keys_ok (store st1)).
Proof.
  cbv zeta. revert st n. induction addresses as [|x rest IH]; intros st n.
  { exists [], [], []. by rewrite !app_nil_r. }
  rewrite fetch_from_all_cons.
  assert (exists new rows files,
            emails (store (_fetch_from_email S list_unread x st).1) =
              emails (store st) ++ new /\
            attachments (store (_fetch_from_email S list_unread x st).1) =
              attachments (store st) ++ rows /\
            disk (_fetch_from_email S list_unread x st).1 = disk st ++ files /\
            Forall (fun w => is_temp w.1 = true) files /\
            Forall (fun a => is_temp (Attachment.file_path_ a) = true) rows /\
            (keys_ok (store st) ->
             keys_ok (store (_fetch_from_email S list_unread x st).1)))
    as (new0 & rows0 & files0 & Em0 & Ea0 & Ed0 & Tf0 & Tr0 & K0).
  { unfold _fetch_from_email. destruct (list_unread x) as [ms|].
    - apply process_messages_adds.
    - exists [], [], []. by rewrite !app_nil_r. }
  destruct (IH (_fetch_from_email S list_unread x st).1
               (n + listed_count list_unread x))
    as (new & rows & files & -> & -> & -> & Tf & Tr & K).
  exists (new0 ++ new), (rows0 ++ rows), (files0 ++ files).
  rewrite Em0, Ea0, Ed0, <- !app_assoc. repeat (split; [done|]).
  split; [by apply Forall_app|]. split; [by apply Forall_app|]. auto.
Qed.

(** X14.  A poll keeps the keys of the e-mail tables: the identifiers of
    the e-mails, their message identifiers and the identifiers of the
    attachments stay unique, and every attachment belongs to a stored
    e-mail; the rows that were stored stay, in their order. *)
Theorem fetch_unread_emails_keeps_keys S list_unread authenticated st :
  keys_ok (store st) ->
  let st1 := (fetch_unread_emails S list_unread authenticated st).1 in
  keys_ok (store st1) /\
  (exists new, emails (store st1) = emails (store st) ++ new) /\
  (exists rows, attachments (store st1) = attachments (store st) ++ rows).
Proof.
  intros K. cbv zeta. unfold fetch_unread_emails.
  destruct authenticated; simpl.
  - destruct (fetch_from_all_adds S list_unread
                (get_registered_emails (store st)) st 0)
      as (new & rows & files & Em & Ea & _ & _ & _ & K1).
    split; [by apply K1|]. split; by eexists.
  - split; [done|]. split; exists []; by rewrite app_nil_r.
Qed.

Lemma fetch_unread_emails_keeps_keys_witness :
  keys_ok (store (fetch_unread_emails timeout_services one_unread true mailroom).1).
Proof.
  refine (proj1 (fetch_unread_emails_keeps_keys timeout_services one_unread true
                   mailroom _)).
  unfold keys_ok. simpl. repeat split; try constructor.
  by intros a ?%elem_of_nil.
Defined.

(** X15.  Every file a poll writes goes to the [temp] folder, and every
    attachment row it adds points there: attachments are saved before
    the classification is asked for, so that the folder hierarchy of
    [StorageService] is never used by the poll, whatever the
    classification service answers. *)
Theorem fetch_unread_emails_writes_temp S list_unread authenticated st :
  let st1 := (fetch_unread_emails S list_unread authenticated st).1 in
  exists rows files,
    attachments (store st1) = attachments (store st) ++ rows /\
    disk st1 = disk st ++ files /\
    Forall (fun w => is_temp w.1 = true) files /\
    Forall (fun a => is_temp (Attachment.file_path_ a) = true) rows.
Proof.
  cbv zeta. unfold fetch_unread_emails. destruct authenticated; simpl.
  - destruct (fetch_from_all_adds S list_unread
                (get_registered_emails (store st)) st 0)
      as (new & rows & files & _ & Ea & Ed & Tf & Tr & _).
    by exists rows, files.
  - exists [], []. by rewrite !app_nil_r.
Qed.

(** ** X16: from a classified e-mail to the reminder *)

Lemma classify_email_answer S email_record d pc sc dm dy :
  _call_perplexity_api S
    (_create_classification_prompt (Email.subject email_record)
       (Email.body email_record) (Email.sender email_record)) = Some d ->
  d <> ∅ ->
  db_update_classification S
    (dict_get d "primary_category") (dict_get d "sub_category")
    (dict_get d "data_month") (dict_get d "data_year") = Return (pc, sc, dm, dy) ->
  classify_email S email_record =
    Return (Email.with_classification pc sc dm dy email_record, true).
Proof.
  intros A N U. unfold classify_email, _update_email_classification.
  rewrite A, U. simpl.
  destruct (bool_decide (d = ∅)) eqn:E; [|done].
  by apply bool_decide_eq_true in E.
Qed.

Lemma is_gst_email_for_unclassified r e :
  Email.primary_category e = None -> is_gst_email_for r e = false.
Proof.
  intros P. unfold is_gst_email_for. rewrite P.
  rewrite (bool_decide_eq_false_2 (None = Some "GST"%string)) by done.
  by rewrite andb_false_r.
Qed.

(** X16.  A new message of a registered address, for which the
    classification service gives a dictionary that is not empty: when
    the database takes the four values, whatever their JSON types, and
    holds the category GST with a month and a year, the e-mail the poll
    stores makes [_check_gst_received] hold for every reminder of that
    company, month and year, and at its next turn such a reminder has
    its compliance recorded, is deactivated, and no notification is sent
    for it; when the database refuses the values, the e-mail stored
    counts for no reminder. *)
Theorem classified_gst_email_stops_reminder
    S message_id sender_email st message company d r now smtp :
  stored_emails message_id (store st) = [] ->
  gmail_get S message_id = Return message ->
  _get_company_from_email (store st) sender_email = Some company ->
  (let e := new_email_record S message_id sender_email message (store st) in
   _call_perplexity_api S
     (_create_classification_prompt (Email.subject e) (Email.body e) (Email.sender e))
   = Some d) ->
  d <> ∅ ->
  Reminder.company_id r = Company.id company ->
  let st1 := _process_email S message_id sender_email st in
  let commit :=
    db_update_classification S
      (dict_get d "primary_category") (dict_get d "sub_category")
      (dict_get d "data_month") (dict_get d "data_year") in
  (forall sc,
      commit = Return (Some "GST"%string, sc,
                       Some (month (Reminder.reminder_month r)),
                       Some (year (Reminder.reminder_month r))) ->
      _check_gst_received (store st1) r = true /\
      _process_reminder now smtp (store st1) r =
        (Reminder.with_is_active false (Reminder.with_gst_received true r), [])) /\
  (forall e,
      commit = Raise e ->
      _check_gst_received (store st1) r = _check_gst_received (store st) r).
Proof.
  intros E G C A Ne Rc. cbv zeta in *.
  destruct (_process_email_new S message_id sender_email st message E G)
    as (Em & _).
  split.
  - intros sc U.
    assert (_check_gst_received (store (_process_email S message_id sender_email st)) r
            = true) as Ch.
    { unfold stored_record in Em.
      rewrite (classify_email_answer _ _ d _ _ _ _ A Ne U) in Em.
      unfold _check_gst_received. apply Z.ltb_lt.
      rewrite Em, filter_app, length_app, filter_cons.
      destruct (decide _) as [|n]; [cbn [length]; lia|]. destruct n.
      unfold is_gst_email_for. simpl. rewrite C, Rc. simpl.
      by rewrite !bool_decide_eq_true_2. }
    split; [done|]. unfold _process_reminder. by rewrite Ch.
  - intros e U.
    assert (exists e', classify_email S
              (new_email_record S message_id sender_email message (store st))
            = Raise e') as [e' R].
    { apply classify_email_raises. by exists d, e. }
    unfold stored_record in Em. rewrite R in Em.
    unfold _check_gst_received. rewrite Em, filter_app, filter_cons_False.
    + by rewrite app_nil_r.
    + apply Is_true_false. by apply is_gst_email_for_unclassified.
Qed.

Lemma classified_gst_email_stops_reminder_witness :
  let r := Reminder.mk 1 1 june (Date 2025 7 7) 5 0 true false false None in
  _process_reminder july_8 smtp_ok
    (store (_process_email text_month_services "m1" "a@x" mailroom)) r =
    (Reminder.with_is_active false (Reminder.with_gst_received true r), []).
Proof.
  intros r.
  refine (proj2 (proj1 (classified_gst_email_stops_reminder text_month_services
                          "m1" "a@x" mailroom sample_message (Company.mk 1 "Acme" true)
                          (<["primary_category" := JStr "GST"]>
                             (<["data_month" := JStr "6"]>
                                (<["data_year" := JNum 2025]> ∅)))
                          r july_8 smtp_ok eq_refl eq_refl eq_refl eq_refl _ eq_refl)
                       None eq_refl)).
  intros N. apply (f_equal (fun m => m !! "data_year"%string)) in N.
  vm_compute in N. discriminate.
Defined.

(** ** X17, X18: the answer of the classification service *)

Lemma find_from_spec c s i :
  (find_from c s i = -1 /\ forall k, String.get k s <> Some c) \/
  (exists k : nat,
      find_from c s i = i + Z.of_nat k /\ String.get k s = Some c /\
      forall j, (j < k)%nat -> String.get j s <> Some c).
Proof.
  revert i. induction s as [|a s IH]; intros i; simpl.
  - left. split; [done|]. by intros k.
  - destruct (Ascii.eqb a c) eqn:E.
    + apply Ascii.eqb_eq in E as ->. right. exists 0%nat.
      split; [lia|]. split; [done|]. intros j ?. lia.
    + apply Ascii.eqb_neq in E.
      destruct (IH (i + 1)) as [[-> N]|(k & -> & G & N)].
      * left. split; [done|]. intros [|k]; simpl; [congruence|apply N].
      * right. exists (Datatypes.S k). split; [lia|]. split; [done|].
        intros [|j] ?; simpl; [congruence|]. apply N. lia.
Qed.

Lemma rfind_from_spec c s i last :
  (rfind_from c s i last = last /\ forall k, String.get k s <> Some c) \/
  (exists k : nat,
      rfind_from c s i last = i + Z.of_nat k /\ String.get k s = Some c /\
      forall j, (k < j)%nat -> String.get j s <> Some c).
Proof.
  revert i last. induction s as [|a s IH]; intros i last; simpl.
  - left. split; [done|]. by intros k.
  - destruct (IH (i + 1) (if Ascii.eqb a c then i else last))
      as [[-> N]|(k & -> & G & N)].
    + destruct (Ascii.eqb a c) eqn:E.
      * apply Ascii.eqb_eq in E as ->. right. exists 0%nat.
        split; [lia|]. split; [done|].
        intros [|j] ?; simpl; [lia|apply N].
      * apply Ascii.eqb_neq in E. left. split; [done|].
        intros [|k]; simpl; [congruence|apply N].
    + right. exists (Datatypes.S k). split; [lia|]. split; [done|].
      intros [|j] ?; simpl; [lia|]. apply N. lia.
Qed.

(** X17.  [_call_perplexity_api] returns a dictionary in one case only:
    the request is answered with a status from 200 to 299, the answer
    holds a text with an opening brace and a closing brace after it, and
    [json.loads] accepts the text from the first opening brace to the
    last closing one; the dictionary is what [json.loads] gives. *)
Theorem _call_perplexity_api_success S prompt d :
  _call_perplexity_api S prompt = Some d <->
  exists status_code content,
    http_post S prompt = Reply status_code (Some content) /\
    200 <= status_code <= 299 /\
    str_find content "{" <> -1 /\
    str_find content "{" <= str_rfind content "}" /\
    json_loads S (str_slice content (str_find content "{")
                            (str_rfind content "}" + 1)) = Return d.
Proof.
  unfold _call_perplexity_api, raise_for_status, is_success. split.
  - destruct (http_post S prompt) as [e|status_code content]; [done|].
    destruct ((200 <=? status_code) && (status_code <=? 299)) eqn:St; [|done].
    simpl. destruct content as [content|]; [|done]. simpl.
    destruct (negb (str_find content "{" =? -1) &&
              (str_find content "{" <? str_rfind content "}" + 1)) eqn:B; [|done].
    destruct (json_loads S _) as [d'|e] eqn:J; simpl; [|by destruct e].
    intros [= ->]. exists status_code, content.
    apply andb_true_iff in B as [B1%negb_true_iff%Z.eqb_neq B2%Z.ltb_lt].
    split; [done|]. split; [lia|]. split; [done|]. split; [lia|done].
  - intros (status_code & content & -> & St & B1 & B2 & J).
    assert (((200 <=? status_code) && (status_code <=? 299)) = true) as -> by lia.
    simpl.
    assert ((negb (str_find content "{" =? -1) &&
             (str_find content "{" <? str_rfind content "}" + 1)) = true) as ->.
    { apply andb_true_iff. split; [apply negb_true_iff|]; lia. }
    by rewrite J.
Qed.

Lemma _call_perplexity_api_success_witness :
  exists status_code content,
    http_post answering_services (mkPrompt "a@x" "GST June" "hello") =
      Reply status_code (Some content) /\
    200 <= status_code <= 299 /\
    str_find content "{" <> -1 /\
    str_find content "{" <= str_rfind content "}" /\
    json_loads answering_services
      (str_slice content (str_find content "{") (str_rfind content "}" + 1)) =
    Return (<["primary_category" := JStr "GST"]>
              (<["data_month" := JNum 6]> (<["data_year" := JNum 2025]> ∅))).
Proof.
  apply (proj1 (_call_perplexity_api_success answering_services
                  (mkPrompt "a@x" "GST June" "hello") _)).
  reflexivity.
Defined.

(** X18.  The text handed to [json.loads] begins with the first opening
    brace of the answer and ends with its last closing brace: no opening
    brace comes before it and no closing brace after it. *)
Theorem json_slice_braces content :
  let json_start := str_find content "{" in
  let json_end := str_rfind content "}" + 1 in
  json_start <> -1 ->
  json_start < json_end ->
  let json_str := str_slice content json_start json_end in
  String.get 0 json_str = Some ("{" : ascii) /\
  String.get (Z.to_nat (json_end - json_start - 1)) json_str = Some ("}" : ascii) /\
  String.get (Z.to_nat (json_end - json_start)) json_str = None /\
  (forall k, (k < Z.to_nat json_start)%nat ->
             String.get k content <> Some ("{" : ascii)) /\
  (forall k, (Z.to_nat json_end <= k)%nat ->
             String.get k content <> Some ("}" : ascii)).
Proof.
  cbv zeta. unfold str_find, str_rfind, str_slice.
  destruct (find_from_spec "{" content 0) as [[-> _]|(k1 & -> & G1 & N1)]; [done|].
  intros _.
  destruct (rfind_from_spec "}" content 0 (-1)) as [[-> _]|(k2 & -> & G2 & N2)];
    [lia|].
  intros L.
  replace (Z.to_nat (0 + Z.of_nat k1)) with k1 by lia.
  replace (Z.to_nat (0 + Z.of_nat k2 + 1 - (0 + Z.of_nat k1)))
    with (Datatypes.S (k2 - k1)) by lia.
  replace (Z.to_nat (0 + Z.of_nat k2 + 1 - (0 + Z.of_nat k1) - 1))
    with (k2 - k1)%nat by lia.
  replace (Z.to_nat (0 + Z.of_nat k2 + 1)) with (Datatypes.S k2) by lia.
  split; [|split; [|split; [|split]]].
  - rewrite substring_correct1 by lia. exact G1.
  - rewrite substring_correct1 by lia.
    replace (k2 - k1 + k1)%nat with k2 by lia. exact G2.
  - apply substring_correct2. lia.
  - exact N1.
  - intros k ?. apply N2. lia.
Qed.

Lemma json_slice_braces_witness :
  String.get 0 (str_slice "Here it is: {gst-june} thanks" 12 22) = Some ("{" : ascii).
Proof.
  refine (proj1 (json_slice_braces "Here it is: {gst-june} thanks" _ _)).
  - vm_compute. discriminate.
  - vm_compute. reflexivity.
Defined.

(** ** X19: the prompt *)

Lemma append_cons a s t : (String a s +:+ t = String a (s +:+ t))%string.
Proof. reflexivity. Qed.

Lemma append_length s t :
  String.length (s +:+ t) = (String.length s + String.length t)%nat.
Proof.
  induction s as [|a s IH]; [done|]. rewrite append_cons. simpl. by rewrite IH.
Qed.

Lemma append_empty s : (s +:+ "")%string = s.
Proof.
  induction s as [|a s IH]; [done|]. rewrite append_cons. by rewrite IH.
Qed.

Lemma substring_0_prefix n s :
  (exists rest, s = (substring 0 n s +:+ rest)%string) /\
  String.length (substring 0 n s) = Nat.min n (String.length s).
Proof.
  revert s. induction n as [|n IH]; intros s.
  - destruct s; simpl; (split; [by eexists|done]).
  - destruct s as [|a s]; simpl; [split; [by exists ""%string|done]|].
    destruct (IH s) as [[rest E] L]. split.
    + exists rest. rewrite append_cons. f_equal. exact E.
    + by rewrite L.
Qed.

(** X19.  The prompt carries the sender and the subject as they are and
    a prefix of the body of at most 1000 characters: the whole body when
    it is not longer. *)
Theorem _create_classification_prompt_truncates subject body sender :
  let prompt := _create_classification_prompt subject body sender in
  about_sender prompt = sender /\
  about_subject prompt = subject /\
  (exists rest, body = (about_body prompt +:+ rest)%string) /\
  String.length (about_body prompt) = Nat.min 1000 (String.length body) /\
  ((String.length body <= 1000)%nat -> about_body prompt = body).
Proof.
  cbv zeta. unfold _create_classification_prompt. cbn [about_sender about_subject about_body].
  destruct (substring_0_prefix 1000 body) as [[rest E] L].
  split; [done|]. split; [done|]. split; [by exists rest|]. split; [done|].
  intros Le.
  assert (String.length rest = 0%nat) as R.
  { apply (f_equal String.length) in E.
    rewrite append_length, L in E. lia. }
  destruct rest; [|done]. rewrite E at 2. by rewrite append_empty.
Qed.

(** ** X20: reprocessing an e-mail *)

Lemma update_email_filter_length (p : Email.t -> bool) i f es :
  (forall e, p (f e) = p e) ->
  length (filter (fun e => p e) (update_email i f es)) =
  length (filter (fun e => p e) es).
Proof.
  intros Hp. induction es as [|e es IH]; [done|]. simpl.
  destruct (Email.id e =? i).
  - destruct (p e) eqn:Pe.
    + rewrite !filter_cons_True; [done| |]; apply Is_true_true; by rewrite ?Hp.
    + rewrite !filter_cons_False; [done| |]; apply Is_true_false; by rewrite ?Hp.
  - destruct (p e) eqn:Pe.
    + rewrite !filter_cons_True by by apply Is_true_true. simpl. by rewrite IH.
    + rewrite !filter_cons_False by by apply Is_true_false. done.
Qed.

Lemma update_email_get i f es e :
  (forall x, Email.id (f x) = Email.id x) ->
  head (filter (fun x => Email.id x =? i) es) = Some e ->
  head (filter (fun x => Email.id x =? i) (update_email i f es)) = Some (f e).
Proof.
  intros Hf. induction es as [|x es IH]; [done|]. simpl.
  destruct (Email.id x =? i) eqn:E.
  - rewrite !filter_cons_True; [|apply Is_true_true; by rewrite ?Hf..].
    by intros [= ->].
  - rewrite !filter_cons_False; [|apply Is_true_false; by rewrite ?Hf..].
    exact IH.
Qed.

Lemma message_exists_length db message_id :
  message_exists db message_id =
  negb (Nat.eqb (length (stored_emails message_id db)) 0).
Proof.
  unfold message_exists, stored_emails.
  by destruct (filter _ (emails db)).
Qed.

(** The row [update_email] reaches, and the rows around it. *)
Lemma update_email_split i es e :
  head (filter (fun x => Email.id x =? i) es) = Some e ->
  exists before after,
    es = before ++ e :: after /\
    Forall (fun x => Email.id x <> i) before /\
    forall f, update_email i f es = before ++ f e :: after.
Proof.
  induction es as [|x es IH]; [done|]. simpl.
  destruct (Email.id x =? i) eqn:E.
  - rewrite filter_cons_True by by apply Is_true_true.
    intros [= ->]. exists [], es. split; [done|]. split; [constructor|].
    intros f. done.
  - rewrite filter_cons_False by by apply Is_true_false.
    intros G. destruct (IH G) as (before & after & -> & F & U).
    exists (x :: before), after. split; [done|]. split.
    + constructor; [|done]. by apply Z.eqb_neq.
    + intros f. simpl. by rewrite U.
Qed.

(** X20.  [reprocess_email] answers 404 for an unknown identifier and
    leaves the database as it is; otherwise it clears [is_processed] and
    [ai_classified] on the e-mail with that identifier and changes
    nothing else: the e-mail keeps its eleven other fields, every other
    e-mail keeps its place and its fields, and the other tables are
    untouched.  The classification stays, so [_check_gst_received]
    answers as before for every reminder, and the message identifier
    stays, so the poll still passes the message by. *)
Theorem reprocess_email_resets_flags_only email_id d0 :
  let d1 := (reprocess_email email_id d0).1 in
  (get_email d0 email_id = None ->
   reprocess_email email_id d0 = (d0, HTTPException 404)) /\
  (forall e, get_email d0 email_id = Some e ->
     get_email d1 email_id = Some (reset_flags e) /\
     exists before after e',
       emails d0 = before ++ e :: after /\
       Forall (fun x => Email.id x <> email_id) before /\
       emails d1 = before ++ e' :: after /\
       Email.is_processed e' = false /\
       Email.ai_classified e' = false /\
       Email.id e' = Email.id e /\
       Email.message_id e' = Email.message_id e /\
       Email.sender e' = Email.sender e /\
       Email.subject e' = Email.subject e /\
       Email.body e' = Email.body e /\
       Email.company_id e' = Email.company_id e /\
       Email.primary_category e' = Email.primary_category e /\
       Email.sub_category e' = Email.sub_category e /\
       Email.data_month e' = Email.data_month e /\
       Email.data_year e' = Email.data_year e /\
       Email.received_date e' = Email.received_date e) /\
  (forall r, _check_gst_received d1 r = _check_gst_received d0 r) /\
  (forall S message_id sender_email st,
      store st = d1 -> message_exists d0 message_id = true ->
      _process_email S message_id sender_email st = st) /\
  companies d1 = companies d0 /\
  client_emails d1 = client_emails d0 /\
  attachments d1 = attachments d0 /\
  reminders d1 = reminders d0.
Proof.
  cbv zeta. unfold reprocess_email.
  destruct (get_email d0 email_id) as [e0|] eqn:G; simpl.
  - split; [done|]. split; [|split; [|split; [|done]]].
    + intros e [= <-]. split.
      * unfold get_email in *. simpl. by apply update_email_get.
      * destruct (update_email_split email_id (emails d0) e0 G)
          as (before & after & E & F & U).
        exists before, after, (reset_flags e0). rewrite U.
        by repeat (split; [done|]).
    + intros r. unfold _check_gst_received. simpl.
      by rewrite (update_email_filter_length (is_gst_email_for r)).
    + intros S message_id sender_email st E M. unfold _process_email.
      rewrite E, message_exists_length. unfold stored_emails. simpl.
      rewrite (update_email_filter_length
                 (fun e => String.eqb (Email.message_id e) message_id)) by done.
      rewrite message_exists_length in M. unfold stored_emails in M.
      by rewrite M.
  - split; [done|]. split; [done|]. split; [done|]. split; [|done].
    intros S message_id sender_email st E M. unfold _process_email.
    by rewrite E, M.
Qed.

(** ** X21, X22: the folders of the month and of the financial year *)

Lemma py_index_month_names month :
  -13 <= month <= 12 ->
  exists name, name ∈ month_names /\ py_index month_names month = Return name.
Proof.
  intros H.
  assert (month = -13 \/ month = -12 \/ month = -11 \/ month = -10 \/
          month = -9 \/ month = -8 \/ month = -7 \/ month = -6 \/ month = -5 \/
          month = -4 \/ month = -3 \/ month = -2 \/ month = -1 \/ month = 0 \/
          month = 1 \/ month = 2 \/ month = 3 \/ month = 4 \/ month = 5 \/
          month = 6 \/ month = 7 \/ month = 8 \/ month = 9 \/ month = 10 \/
          month = 11 \/ month = 12) as C by lia.
  clear H.
  repeat (destruct C as [->|C]; [eexists; split; [|reflexivity]; set_solver|]).
  subst. eexists. split; [|reflexivity]. set_solver.
Qed.

(** X21.  [get_month_folder] gives a folder name exactly for the months
    from -13 to 12, the months for which [create_storage_path] gives a
    path, and raises [IndexError] for every other month; a month from
    -12 to -1 gives the folder of the month thirteen later (-1 is
    December), since a negative index counts from the end of the list of
    names. *)
Theorem get_month_folder_range month year :
  (-13 <= month <= 12 ->
   exists name,
     name ∈ month_names /\
     get_month_folder month year =
       Return (name +:+ "-" +:+ drop2 (py_str year))%string) /\
  (month < -13 \/ 12 < month -> get_month_folder month year = Raise IndexError) /\
  (forall company_name category filename,
      (exists p, create_storage_path company_name month year category filename
                 = Return p) <->
      (exists folder, get_month_folder month year = Return folder)) /\
  (-12 <= month <= -1 ->
   get_month_folder month year = get_month_folder (month + 13) year).
Proof.
  assert (month < -13 \/ 12 < month -> py_index month_names month = Raise IndexError)
    as Out.
  { intros H. unfold py_index. cbn [length month_names].
    destruct (0 <=? month) eqn:E.
    - apply Z.leb_le in E.
      rewrite lookup_ge_None_2; [done|]. cbn [length month_names]. lia.
    - apply Z.leb_gt in E.
      destruct (Z.leb_spec (- Z.of_nat 13) month); [lia|done]. }
  split; [|split; [|split]].
  - intros H. destruct (py_index_month_names month H) as (name & I & E).
    exists name. split; [done|]. unfold get_month_folder. by rewrite E.
  - intros H. unfold get_month_folder. by rewrite (Out H).
  - intros company_name category filename. unfold create_storage_path.
    destruct ((-13 <=? month) && (month <=? 12)) eqn:R.
    + split; [|by eexists]. intros _.
      destruct (py_index_month_names month) as (name & _ & E); [lia|].
      unfold get_month_folder. rewrite E. by eexists.
    + split; [by intros [p ?]|]. intros [folder F].
      unfold get_month_folder in F. rewrite Out in F; [done|lia].
  - intros H. unfold get_month_folder.
    assert (month = -12 \/ month = -11 \/ month = -10 \/ month = -9 \/
            month = -8 \/ month = -7 \/ month = -6 \/ month = -5 \/
            month = -4 \/ month = -3 \/ month = -2 \/ month = -1) as C by lia.
    clear H Out.
    repeat (destruct C as [->|C]; [reflexivity|]). by subst.
Qed.

Lemma get_month_folder_range_witness :
  get_month_folder (-1) 2025 = get_month_folder 12 2025 /\
  get_month_folder 13 2025 = Raise IndexError.
Proof.
  split.
  - refine (proj2 (proj2 (proj2 (get_month_folder_range (-1) 2025))) _). lia.
  - refine (proj1 (proj2 (get_month_folder_range 13 2025)) _). lia.
Defined.

(** X22.  The months from April to December of a year and the months
    from January to March of the next year have the same financial
    year. *)
Theorem get_financial_year_april_to_march month month' year :
  4 <= month -> month' < 4 ->
  get_financial_year month year = get_financial_year month' (year + 1).
Proof.
  intros H H'. unfold get_financial_year.
  assert ((4 <=? month) = true) as -> by lia.
  assert ((4 <=? month') = false) as -> by lia.
  by replace (year + 1 - 1) with year by lia.
Qed.

Lemma get_financial_year_april_to_march_witness :
  get_financial_year 4 2025 = get_financial_year 3 2026.
Proof.
  apply (get_financial_year_april_to_march 4 3 2025); lia.
Defined.

(** ** X23: the headers *)

Lemma _get_header_value_case S headers name name' :
  str_lower S name' = str_lower S name ->
  _get_header_value S headers name' = _get_header_value S headers name.
Proof.
  intros E. induction headers as [|h hs IH]; [done|]. simpl. by rewrite E, IH.
Qed.

(** X23.  [_get_header_value] compares names through [str.lower],
    whatever its tables are: it gives the value of the first header
    whose name in lower case is the name asked for in lower case, and
    the empty string when there is none; two names with the same lower
    case give the same result. *)
Theorem _get_header_value_first S headers name :
  ((exists before header after,
       headers = before ++ header :: after /\
       Forall (fun h => str_lower S (Header.name h) <> str_lower S name) before /\
       str_lower S (Header.name header) = str_lower S name /\
       _get_header_value S headers name = Header.value header) \/
   (Forall (fun h => str_lower S (Header.name h) <> str_lower S name) headers /\
    _get_header_value S headers name = ""%string)) /\
  (forall name', str_lower S name' = str_lower S name ->
                 _get_header_value S headers name' = _get_header_value S headers name).
Proof.
  split.
  - induction headers as [|h hs IH]; simpl.
    + right. by split.
    + destruct (String.eqb _ _) eqn:E.
      * apply String.eqb_eq in E. left. exists [], h, hs. by repeat split.
      * apply String.eqb_neq in E. destruct IH as
          [(before & header & after & -> & F & M & V)|[F V]].
        -- left. exists (h :: before), header, after. repeat split; try done.
           by constructor.
        -- right. split; [by constructor|done].
  - intros name'. apply _get_header_value_case.
Qed.

(** With the ASCII tables of the sample data. *)
Example _get_header_value_subject :
  _get_header_value timeout_services (Message.headers sample_message) "SUBJECT"
  = "GST June"%string.
Proof. vm_compute. done. Qed.

(** ** X24: the company of a polled e-mail *)

Lemma stored_record_processed S e :
  Email.is_processed (stored_record S e) = true \/ stored_record S e = e.
Proof.
  unfold stored_record. destruct (classify_email S e) as [[e' ok]|]; [by left|by right].
Qed.

Lemma _get_company_from_email_ext d d' email_address :
  companies d = companies d' -> client_emails d = client_emails d' ->
  _get_company_from_email d email_address = _get_company_from_email d' email_address.
Proof.
  intros Ec Ee. unfold _get_company_from_email, company_of. by rewrite Ec, Ee.
Qed.

(** A registered address is the address of a company. *)
Lemma registered_address_has_company d0 email_address :
  email_address ∈ get_registered_emails d0 ->
  exists company, _get_company_from_email d0 email_address = Some company.
Proof.
  unfold get_registered_emails.
  destruct (registered_addresses_spec d0
              (filter (fun ce => ClientEmail.is_active ce) (client_emails d0)))
    as [[F ->]|[X [e ->]]]; simpl; [|by intros ?%elem_of_nil].
  intros (ce & -> & [_ [Act I]%list_elem_of_filter]%list_elem_of_filter)%list_elem_of_fmap.
  unfold _get_company_from_email.
  match goal with
  | |- context [head ?rows] => destruct rows as [|x l] eqn:Fi
  end.
  - assert (ce ∈ filter (fun ce0 => String.eqb (ClientEmail.email ce0)
                                      (ClientEmail.email ce) &&
                                    ClientEmail.is_active ce0) (client_emails d0))
      as I'; [|rewrite Fi in I'; by apply elem_of_nil in I'].
    apply list_elem_of_filter. split; [|done].
    apply Is_true_true. rewrite String.eqb_refl. by apply Is_true_true in Act.
  - assert (x ∈ filter (fun ce0 => String.eqb (ClientEmail.email ce0)
                                     (ClientEmail.email ce) &&
                                   ClientEmail.is_active ce0) (client_emails d0))
      as [Px Ix]%list_elem_of_filter by (rewrite Fi; apply list_elem_of_here).
    simpl. apply Is_true_true, andb_true_iff in Px as [_ Ax].
    rewrite Forall_forall in F. destruct (F x) as [c Hc].
    { apply list_elem_of_filter. split; [by apply Is_true_true|done]. }
    destruct (ClientEmail.company_id x); [|done]. by exists c.
Qed.

Lemma _process_email_company S message_id sender_email st company :
  _get_company_from_email (store st) sender_email = Some company ->
  exists new,
    emails (store (_process_email S message_id sender_email st)) =
      emails (store st) ++ new /\
    Forall (fun e =>
              Email.company_id e = Some (Company.id company) /\
              (Email.is_processed e = true \/
               Email.is_processed e = false /\ Email.ai_classified e = false /\
               Email.primary_category e = None)) new.
Proof.
  intros C.
  destruct (message_exists (store st) message_id) eqn:E.
  { unfold _process_email. rewrite E. exists []. by rewrite app_nil_r. }
  destruct (gmail_get S message_id) as [message|e] eqn:G.
  2:{ unfold _process_email. cbv zeta. rewrite E, G. exists []. by rewrite app_nil_r. }
  apply message_exists_not_stored in E.
  destruct (_process_email_new S message_id sender_email st message E G) as (Em & _).
  eexists. split; [exact Em|]. constructor; [|done]. split.
  - destruct (stored_record_keeps S
                (new_email_record S message_id sender_email message (store st)))
      as (_ & _ & ->).
    simpl. by rewrite C.
  - destruct (stored_record_processed S
                (new_email_record S message_id sender_email message (store st)))
      as [P| ->]; [by left|by right].
Qed.

Lemma process_messages_company S email_address messages st company :
  _get_company_from_email (store st) email_address = Some company ->
  exists new,
    emails (store (process_messages S email_address messages st)) =
      emails (store st) ++ new /\
    Forall (fun e =>
              Email.company_id e = Some (Company.id company) /\
              (Email.is_processed e = true \/
               Email.is_processed e = false /\ Email.ai_classified e = false /\
               Email.primary_category e = None)) new.
Proof.
  revert st. induction messages as [|m ms IH]; intros st C.
  { exists []. by rewrite app_nil_r. }
  rewrite process_messages_cons.
  destruct (_process_email_company S m email_address st company C) as (new0 & E0 & F0).
  destruct (IH (_process_email S m email_address st)) as (new & -> & F).
  { rewrite <- C. destruct (_process_email_companies S m email_address st).
    by apply _get_company_from_email_ext. }
  exists (new0 ++ new). rewrite E0, <- app_assoc. split; [done|]. by apply Forall_app.
Qed.

Lemma fetch_from_all_company S list_unread addresses st n d0 :
  companies (store st) = companies d0 ->
  client_emails (store st) = client_emails d0 ->
  (forall a, a ∈ addresses -> a ∈ get_registered_emails d0) ->
  exists new,
    emails (store (fetch_from_all S list_unread addresses st n).1) =
      emails (store st) ++ new /\
    Forall (fun e =>
              (exists a company,
                  a ∈ get_registered_emails d0 /\
                  _get_company_from_email d0 a = Some company /\
                  Email.company_id e = Some (Company.id company)) /\
              (Email.is_processed e = true \/
               Email.is_processed e = false /\ Email.ai_classified e = false /\
               Email.primary_category e = None)) new.
Proof.
  revert st n. induction addresses as [|x rest IH]; intros st n Ec Ee R.
  { exists []. by rewrite app_nil_r. }
  rewrite fetch_from_all_cons.
  destruct (registered_address_has_company d0 x) as [company C];
    [apply R, list_elem_of_here|].
  assert (exists new,
            emails (store (_fetch_from_email S list_unread x st).1) =
              emails (store st) ++ new /\
            Forall (fun e =>
                      Email.company_id e = Some (Company.id company) /\
                      (Email.is_processed e = true \/
                       Email.is_processed e = false /\
                       Email.ai_classified e = false /\
                       Email.primary_category e = None)) new)
    as (new0 & E0 & F0).
  { unfold _fetch_from_email. destruct (list_unread x) as [ms|].
    - apply process_messages_company. rewrite <- C.
      by apply _get_company_from_email_ext.
    - exists []. by rewrite app_nil_r. }
  destruct (_fetch_from_email_companies S list_unread x st) as [Ec1 Ee1].
  destruct (IH (_fetch_from_email S list_unread x st).1
               (n + listed_count list_unread x)) as (new & -> & F).
  { by rewrite Ec1. }
  { by rewrite Ee1. }
  { intros a I. by apply R, list_elem_of_further. }
  exists (new0 ++ new). rewrite E0, <- app_assoc. split; [done|].
  apply Forall_app. split; [|done].
  eapply Forall_impl; [exact F0|]. intros e [Ce P]. split; [|done].
  exists x, company. split; [apply R, list_elem_of_here|done].
Qed.

(** X24.  Every e-mail a poll stores carries a company: the company of
    the registered address the message was listed for.  It is marked
    processed, or else it is left not processed, not classified and
    without category, which is what the poll leaves when the commit of
    the classification fails. *)
Theorem fetch_unread_emails_assigns_company S list_unread authenticated st :
  let st1 := (fetch_unread_emails S list_unread authenticated st).1 in
  exists new,
    emails (store st1) = emails (store st) ++ new /\
    Forall (fun e =>
              (exists a company,
                  a ∈ get_registered_emails (store st) /\
                  _get_company_from_email (store st) a = Some company /\
                  Email.company_id e = Some (Company.id company)) /\
              (Email.is_processed e = true \/
               Email.is_processed e = false /\ Email.ai_classified e = false /\
               Email.primary_category e = None)) new.
Proof.
  cbv zeta. unfold fetch_unread_emails. destruct authenticated; simpl.
  - by apply fetch_from_all_company.
  - exists []. by rewrite app_nil_r.
Qed.

(** ** X25: when a notification is sent *)

(** X25.  The conditions of a notification are sufficient: a reminder
    that is selected today, for which no GST e-mail is stored, that was
    not sent today, and whose company has an active address, gets
    exactly one call of the sink in the tick, to those addresses; when
    the sink delivers, its counter and [last_sent] advance (and it is
    deactivated on reaching its budget), and when the sink fails the
    reminder is left as it is, to be tried again. *)
Theorem pending_reminder_is_notified now smtp d0 r company :
  NoDup (Reminder.id <$> reminders d0) ->
  r ∈ reminders d0 ->
  is_pending (dt_date now) r = true ->
  _check_gst_received d0 r = false ->
  _should_send_today (dt_date now) r = true ->
  company_of d0 (Reminder.company_id r) = Some company ->
  filter (fun e => ClientEmail.is_active e) (client_emails_of d0 company) <> [] ->
  let m :=
    mkMail (ClientEmail.email <$>
              filter (fun e => ClientEmail.is_active e) (client_emails_of d0 company))
           (Company.name company) (Reminder.reminder_month r) in
  calls_for (Reminder.id r) (process_daily_reminders now smtp d0).2 =
    [mkDispatch (Reminder.id r) m now (smtp (Reminder.id r) m)] /\
  (if smtp (Reminder.id r) m then after_delivery now r else r)
    ∈ reminders (process_daily_reminders now smtp d0).1.
Proof.
  intros N I P G T C A. cbv zeta.
  set (m := mkMail _ _ _).
  assert (tick_row now smtp d0 r =
          (if smtp (Reminder.id r) m then after_delivery now r else r,
           [mkDispatch (Reminder.id r) m now (smtp (Reminder.id r) m)])) as E.
  { unfold tick_row. rewrite P. unfold _process_reminder. rewrite G, T. simpl.
    rewrite C. unfold send_gst_reminder.
    destruct (bool_decide (client_emails_of d0 company = [])) eqn:B1.
    { apply bool_decide_eq_true in B1. by rewrite B1 in A. }
    destruct (bool_decide (ClientEmail.email <$> _ = [])) eqn:B2.
    { apply bool_decide_eq_true in B2. by apply fmap_nil_inv in B2. }
    fold m. destruct (smtp (Reminder.id r) m); simpl; [|done].
    unfold after_delivery. destruct r; simpl. by destruct (_ <=? _). }
  rewrite process_daily_reminders_log, process_daily_reminders_rows.
  rewrite calls_for_process_rows by done. rewrite E. split.
  - unfold calls_for. cbn [snd]. rewrite filter_cons_True; [done|].
    apply Is_true_true. simpl. apply Z.eqb_refl.
  - pose proof (process_rows_elem now smtp d0 _ r I) as I'. by rewrite E in I'.
Qed.

Lemma pending_reminder_is_notified_witness :
  let d0 := create_monthly_reminders june acme_db in
  let r := Reminder.mk 1 1 june (Date 2025 7 7) 5 0 true false false None in
  let m := mkMail ["a@x"%string] "Acme" june in
  calls_for 1 (process_daily_reminders july_8 smtp_ok d0).2 =
    [mkDispatch 1 m july_8 true].
Proof.
  intros d0 r m.
  refine (proj1 (pending_reminder_is_notified july_8 smtp_ok d0 r
                   (Company.mk 1 "Acme" true) _ _ eq_refl eq_refl eq_refl eq_refl _)).
  - vm_compute. apply NoDup_singleton.
  - vm_compute. apply list_elem_of_here.
  - vm_compute. discriminate.
Defined.

(** ** X26: the listing *)

Lemma filter_update_row_ids (p : Reminder.t -> bool) i f rs :
  (forall r, p (f r) = p r) -> (forall r, Reminder.id (f r) = Reminder.id r) ->
  Reminder.id <$> filter (fun r => p r) (update_row i f rs) =
  Reminder.id <$> filter (fun r => p r) rs.
Proof.
  intros Hp Hf. induction rs as [|r rs IH]; [done|]. simpl.
  destruct (Reminder.id r =? i).
  - destruct (p r) eqn:Pr.
    + rewrite !filter_cons_True; [|apply Is_true_true; by rewrite ?Hp..].
      by rewrite !fmap_cons, Hf.
    + rewrite !filter_cons_False; [done| |]; apply Is_true_false; by rewrite ?Hp.
  - destruct (p r) eqn:Pr.
    + rewrite !filter_cons_True by by apply Is_true_true.
      by rewrite !fmap_cons, IH.
    + by rewrite !filter_cons_False by by apply Is_true_false.
Qed.

(** X26.  The listing with [active_only] gives the reminders whose
    [is_active] holds, in the order of the table, a sublist of the full
    listing; every reminder the tick would select is among them; and a
    stopped reminder stays listed, [stop] leaving [is_active] alone. *)
Theorem list_reminders_active active_only d0 :
  list_reminders true d0 `sublist_of` list_reminders active_only d0 /\
  (forall r, r ∈ list_reminders true d0 <->
             r ∈ reminders d0 /\ Reminder.is_active r = true) /\
  (forall today, _get_pending_reminders today d0 `sublist_of` list_reminders true d0) /\
  (forall reminder_id,
      Reminder.id <$> list_reminders true (stop reminder_id d0).1 =
      Reminder.id <$> list_reminders true d0).
Proof.
  unfold list_reminders. split; [|split; [|split]].
  - destruct active_only; [done|]. apply sublist_filter.
  - intros r. rewrite list_elem_of_filter. split.
    + intros [A I]. split; [done|]. by apply Is_true_true.
    + intros [I A]. split; [by apply Is_true_true|done].
  - intros today. unfold _get_pending_reminders.
    induction (reminders d0) as [|r rs IH]; [done|].
    rewrite !filter_cons. destruct (decide _) as [P|P].
    + destruct (decide _) as [A|A].
      * by apply sublist_skip.
      * destruct A. apply Is_true_true in P.
        apply is_pending_spec in P as (A & _). by apply Is_true_true.
    + destruct (decide _); [by apply sublist_cons|done].
  - intros reminder_id. unfold stop.
    destruct (get_reminder d0 reminder_id); [|done]. simpl.
    by apply (filter_update_row_ids Reminder.is_active).
Qed.

(** ** X27: field updates *)

Lemma update_row_get_other i j f rs :
  (forall r, Reminder.id (f r) = Reminder.id r) -> j <> i ->
  head (filter (fun r => Reminder.id r =? j) (update_row i f rs)) =
  head (filter (fun r => Reminder.id r =? j) rs).
Proof.
  intros Hf Ne. induction rs as [|r rs IH]; [done|]. simpl.
  destruct (Reminder.id r =? i) eqn:E.
  - rewrite !head_filter_id_cons, Hf.
    assert ((Reminder.id r =? j) = false) as -> by lia. done.
  - rewrite !head_filter_id_cons. by rewrite IH.
Qed.

(** X27.  [update_reminder] answers 404 for an unknown identifier and
    leaves the database as it is.  On an existing reminder it assigns the
    fields the request sets among [max_days_to_send], [is_active] and
    [manual_stop], and nothing else: the counter, the compliance flag,
    [last_sent] and the dates cannot be changed through it, a request
    that sets no field changes nothing, the other reminders and the other
    tables are untouched.  [stop] is the update that sets [manual_stop],
    and [restart] the update that sets [is_active] and clears
    [manual_stop]. *)
Theorem update_reminder_assigns_three_fields reminder_id data d0 :
  let d1 := (update_reminder reminder_id data d0).1 in
  (get_reminder d0 reminder_id = None ->
   update_reminder reminder_id data d0 = (d0, HTTPException 404)) /\
  (forall obj, get_reminder d0 reminder_id = Some obj ->
     exists obj',
       (update_reminder reminder_id data d0).2 = Ok obj' /\
       get_reminder d1 reminder_id = Some obj' /\
       Reminder.max_days_to_send obj' =
         default (Reminder.max_days_to_send obj) (ReminderUpdate.max_days_to_send data) /\
       Reminder.is_active obj' =
         default (Reminder.is_active obj) (ReminderUpdate.is_active data) /\
       Reminder.manual_stop obj' =
         default (Reminder.manual_stop obj) (ReminderUpdate.manual_stop data) /\
       Reminder.id obj' = Reminder.id obj /\
       Reminder.company_id obj' = Reminder.company_id obj /\
       Reminder.reminder_month obj' = Reminder.reminder_month obj /\
       Reminder.expected_by_date obj' = Reminder.expected_by_date obj /\
       Reminder.days_sent obj' = Reminder.days_sent obj /\
       Reminder.gst_received obj' = Reminder.gst_received obj /\
       Reminder.last_sent obj' = Reminder.last_sent obj) /\
  (forall j, j <> reminder_id -> get_reminder d1 j = get_reminder d0 j) /\
  (data = ReminderUpdate.mk None None None -> d1 = d0) /\
  companies d1 = companies d0 /\
  client_emails d1 = client_emails d0 /\
  emails d1 = emails d0 /\
  attachments d1 = attachments d0 /\
  (update_reminder reminder_id (ReminderUpdate.mk None None (Some true)) d0).1 =
    (stop reminder_id d0).1 /\
  (update_reminder reminder_id (ReminderUpdate.mk None (Some true) (Some false)) d0).1 =
    (restart reminder_id d0).1.
Proof.
  assert (forall r, Reminder.id (setattrs data r) = Reminder.id r) as Hid.
  { intros r. unfold setattrs. by repeat case_match. }
  cbv zeta. unfold update_reminder, stop, restart.
  destruct (get_reminder d0 reminder_id) as [obj0|] eqn:G; simpl.
  - split; [done|]. split; [|split; [|split; [|repeat (split; [done|]); done]]].
    + intros obj [= <-]. exists (setattrs data obj0). split; [done|]. split.
      * unfold get_reminder in *. simpl. by apply update_row_get.
      * unfold setattrs. destruct data as [[m|] [a|] [s|]]; by destruct obj0.
    + intros j Ne. unfold get_reminder. simpl. by apply update_row_get_other.
    + intros ->. rewrite (update_row_fixed _ _ _ obj0 G).
      * by destruct d0.
      * by destruct obj0.
  - repeat (split; [done|]). done.
Qed.
